(** * A shallow embedding of the scraping toolkit

    The development follows the Python sources module by module:
    - [Py]: the effect model shared by every module (program state, the
      answers of the outside world, exceptions, the chronological event
      trace) and the Python string helpers the sources rely on;
    - [SeleniumHandler]: the [retry] decorator and the browser calls that
      the CAPTCHA handler uses (selenium_handler.py);
    - [PdfDownloader]: pdf_downloader.py;
    - [CaptchaHandler]: captcha_handler.py;
    - [V1]: the first version of the crawler (v1/main.py);
    - [PdfDownloadProcess]: from the page to the link, [fetch_pdf_link] of
      selenium_handler.py and [start_pdf_download_process] of
      pdf_downloader.py;
    - [ConfigTables], [LoggingManager]: the tables of paths of config.py
      and what logging_manager.py reads from them. *)

From Stdlib Require Import ZArith String List Strings.Byte Ascii Lia.
From stdpp Require Import gmap strings list pretty list_numbers.

Local Open Scope Z_scope.
Local Open Scope string_scope.

#[global] Instance byte_eq_decision : EqDecision byte := Byte.byte_eq_dec.

(** ** The effect model *)

Module Py.

(** Exceptions: the class (as far as some handler of the sources tells
    classes apart) and the text that [str(e)] gives. *)
Inductive ExnClass :=
| GenericException
| RequestException
| TimeoutException
| NoSuchElementException
| ElementClickInterceptedException
| WebDriverException
| FileNotFoundError
| TypeError
| IndexError
| UnidentifiedImageError
| UnpicklingError
| EOFError
| RecursionError.

#[global] Instance ExnClass_eq_dec : EqDecision ExnClass.
Proof. solve_decision. Defined.

Record Exn := mkExn { exn_class : ExnClass; exn_msg : string }.

#[global] Instance Exn_eq_dec : EqDecision Exn.
Proof. solve_decision. Defined.

(** [ErrorType] of logging_manager.py. *)
Inductive ErrorType := NETWORK | PARSING | FILE_IO | CONFIGURATION | CAPTCHA | UNKNOWN.

#[global] Instance ErrorType_eq_dec : EqDecision ErrorType.
Proof. solve_decision. Defined.

(** The levels that v1/main.py passes to [logging.log]. *)
Inductive LogLevel := INFO | WARNING | ERROR.

#[global] Instance LogLevel_eq_dec : EqDecision LogLevel.
Proof. solve_decision. Defined.

(** Everything the program does to the outside world, in the order it does
    it.  [log_to_csv] appends [CsvRow file_type record]; [LogInfo],
    [LogWarning] and [LogError] are the calls of logging_manager.py,
    [Logging] is [LoggingManager.log] of v1/main.py, and [Submit] is
    [executor.submit(self.download_pdf, url)]. *)
Inductive Event :=
| LogInfo (msg : string)
| LogWarning (msg : string)
| LogError (msg : string) (ty : ErrorType)
| CsvRow (file_type : string) (record : list string)
| HttpGet (url : string)
| HttpPost (url : string)
| Sleep (secs : Z)
| Input (prompt : string)
| WaitElement (locator : string)
| FillInput (locator : string) (value : string)
| Click (locator : string)
| WaitPageLoad
| ReadPageSource
| Submit (url : string)
| Logging (level : LogLevel) (msg : string)
| ReadClock
| GetPage (url : string)
| ReadCurrentUrl
| ShowCaptchaWindow
| DriverQuit.

#[global] Instance Event_eq_dec : EqDecision Event.
Proof. solve_decision. Defined.

(** What [requests.get] gives: a transport error, or a status with a body
    that arrives in chunks and may break off ([broken = Some msg]) before
    the end. *)
Inductive HttpResult :=
| ConnectionFailed (msg : string)
| Response (status : Z) (chunks : list (list byte)) (broken : option string).

(** What [requests.post] to the solving service gives; [json_solution] is
    [response.json().get('solution')], [None] when the field is missing and
    [bad_json] when the body is no JSON at all. *)
Inductive PostResult :=
| PostFailed (msg : string)
| PostResponse (status : Z) (bad_json : option string) (json_solution : option string).

(** The outside world.  Every call that brings data in takes the answer
    that the world gives at the current [tick] and advances the tick, so an
    answer may depend on everything that happened before it. *)
Record Env := mkEnv {
  requests_get : nat -> string -> HttpResult;
  requests_post : nat -> string -> PostResult;
  (* what the operator types at a prompt of [input()]; the prompt is
     always answered (a closed stdin, on which [input()] raises EOFError,
     is outside this world) *)
  stdin : nat -> string;
  (* presence_of_element_located: the [src] attribute of the element, or
     the TimeoutException of the wait *)
  element_src : nat -> string -> Exn + string;
  fill_outcome : nat -> option Exn;
  click_outcome : nat -> option Exn;
  page_load_outcome : nat -> option Exn;
  page_source : nat -> Exn + string;
  current_url : nat -> string;
  (* the Tk window of v1: what the operator submitted, [None] when the
     window was closed without submitting *)
  gui_entry : nat -> option string;
  strftime : nat -> string
}.

(** The program state: the files, the tick of the outside world, and
    [visited_urls], the attribute of the v1 [Crawler] object.

    [fs] holds the regular files that the handlers read and write, and not
    the log and the CSV files of the logging manager: what is written to
    those is an event of the trace.  Directories are not part of it: the
    folders that the handlers write into are taken to be there, so that
    writing never fails, and a path at which a directory sits counts as
    free.  A property of a call that tests a path with [os.path.exists] is
    therefore stated on the branch that the call took, as its trace shows
    it, where a directory at that path would make a difference. *)
Record State := mkState {
  fs : gmap string (list byte);
  tick : nat;
  visited_urls : gset string
}.

Definition set_fs (f : gmap string (list byte) -> gmap string (list byte)) (s : State) : State :=
  mkState (f (fs s)) (tick s) (visited_urls s).

Definition next_tick (s : State) : State :=
  mkState (fs s) (S (tick s)) (visited_urls s).

Inductive Outcome (A : Type) :=
| Val (a : A)
| Exc (e : Exn).
Arguments Val {A} a.
Arguments Exc {A} e.

Record Run (A : Type) := mkRun { res : Outcome A; st : State; out : list Event }.
Arguments mkRun {A} res st out.
Arguments res {A} r.
Arguments st {A} r.
Arguments out {A} r.

(** A computation: from a state to an outcome, the state it leaves and the
    events it emitted. *)
Definition M (A : Type) : Type := State -> Run A.

Definition ret {A} (a : A) : M A := fun s => mkRun (Val a) s [].

Definition raise {A} (e : Exn) : M A := fun s => mkRun (Exc e) s [].

(** A run that comes after the events [t]. *)
Definition after {A} (t : list Event) (r : Run A) : Run A :=
  mkRun (res r) (st r) (t ++ out r).

Definition bind {A B} (m : M A) (k : A -> M B) : M B := fun s =>
  let r := m s in
  match res r with
  | Val a => after (out r) (k a (st r))
  | Exc e => mkRun (Exc e) (st r) (out r)
  end.

Declare Scope py_scope.
Delimit Scope py_scope with py.
Notation "x <- m ;; k" := (bind m (fun x => k))
  (at level 100, m at next level, right associativity) : py_scope.
Notation "m ;; k" := (bind m (fun _ => k))
  (at level 100, right associativity) : py_scope.
Local Open Scope py_scope.

Definition emit (e : Event) : M unit := fun s => mkRun (Val tt) s [e].

(** [try: m except <classes>: handler], [catches] telling which exceptions
    the clause names. *)
Definition try_except {A} (m : M A) (catches : Exn -> bool) (handler : Exn -> M A) : M A := fun s =>
  let r := m s in
  match res r with
  | Val a => r
  | Exc e =>
      if catches e then after (out r) (handler e (st r))
      else r
  end.

(** [except Exception] *)
Definition any_exception (e : Exn) : bool := true.

(** [try: m finally: cleanup]: the cleanup runs whatever [m] did; its own
    exception, if any, replaces the outcome of [m]. *)
Definition try_finally {A} (m : M A) (cleanup : M unit) : M A := fun s =>
  let r := m s in
  let c := cleanup (st r) in
  match res c with
  | Val _ => mkRun (res r) (st c) (out r ++ out c)
  | Exc e => mkRun (Exc e) (st c) (out r ++ out c)
  end.

(** One question to the outside world. *)
Definition ask {A} (answer : nat -> A) (e : Event) : M A := fun s =>
  mkRun (Val (answer (tick s))) (next_tick s) [e].

Definition get_state : M State := fun s => mkRun (Val s) s [].

Definition modify_fs (f : gmap string (list byte) -> gmap string (list byte)) : M unit := fun s =>
  mkRun (Val tt) (set_fs f s) [].

(** [time.sleep(secs)], for a length that it accepts: the wait is recorded
    and the call returns.  ([time.sleep] raises ValueError for a negative
    length; the properties that need the wait to return say which lengths
    they are about.) *)
Definition sleep (secs : Z) : M unit := emit (Sleep secs).

(** logging_manager.py.  [log_error] writes a line to the general log and
    a row to the CSV error log, recorded together as one [LogError];
    [log_to_csv] appends the record to the CSV file of [file_type] (the
    line about it that it adds to the general log is not recorded). *)
Definition log_info (msg : string) : M unit := emit (LogInfo msg).
Definition log_warning (msg : string) : M unit := emit (LogWarning msg).
Definition log_error (msg : string) (ty : ErrorType) : M unit := emit (LogError msg ty).
Definition log_to_csv (file_type : string) (record : list string) : M unit :=
  emit (CsvRow file_type record).

(** [os.path.exists], on the regular files of [fs] *)
Definition path_exists (path : string) : M bool :=
  s <- get_state ;; ret (bool_decide (is_Some (fs s !! path))).

(** ** Projections of a trace *)

Definition is_get (e : Event) : bool := match e with HttpGet _ => true | _ => false end.
Definition is_post (e : Event) : bool := match e with HttpPost _ => true | _ => false end.
Definition is_input (e : Event) : bool := match e with Input _ => true | _ => false end.

Definition network_calls (t : list Event) : nat := length (List.filter is_get t).

Fixpoint sleeps (t : list Event) : list Z :=
  match t with
  | [] => []
  | Sleep d :: t' => d :: sleeps t'
  | _ :: t' => sleeps t'
  end.

Fixpoint submitted (t : list Event) : list string :=
  match t with
  | [] => []
  | Submit u :: t' => u :: submitted t'
  | _ :: t' => submitted t'
  end.

(** ** Python strings *)

(** [s.split(sep)] for a one-character separator. *)
Fixpoint split_on (sep : ascii) (s : string) : list string :=
  match s with
  | EmptyString => [EmptyString]
  | String c rest =>
      if Ascii.eqb c sep then EmptyString :: split_on sep rest
      else match split_on sep rest with
           | hd :: tl => String c hd :: tl
           | [] => [String c EmptyString]
           end
  end.

Definition startswith (s pre : string) : bool := String.prefix pre s.

Fixpoint endswith_char (s : string) (c : ascii) : bool :=
  match s with
  | EmptyString => false
  | String d EmptyString => Ascii.eqb d c
  | String _ rest => endswith_char rest c
  end.

(** [os.path.join(a, b)] of posixpath. *)
Definition os_path_join (a b : string) : string :=
  if startswith b "/" then b
  else if (String.eqb a "" || endswith_char a "/")%bool then a +:+ b
  else a +:+ "/" +:+ b.

(** [needle in s] *)
Fixpoint str_contains (needle s : string) : bool :=
  (String.prefix needle s ||
   match s with
   | EmptyString => false
   | String _ rest => str_contains needle rest
   end)%bool.

(** [str.isspace] on one ASCII character; the white space beyond ASCII
    that [str.strip] also removes is not told apart here. *)
Definition is_space (c : ascii) : bool :=
  let n := nat_of_ascii c in
  ((9 <=? n)%nat && (n <=? 13)%nat || (28 <=? n)%nat && (n <=? 32)%nat)%bool.

Fixpoint lstrip (s : string) : string :=
  match s with
  | EmptyString => EmptyString
  | String c rest => if is_space c then lstrip rest else s
  end.

Fixpoint rstrip (s : string) : string :=
  match s with
  | EmptyString => EmptyString
  | String c rest =>
      match rstrip rest with
      | EmptyString => if is_space c then EmptyString else String c EmptyString
      | r => String c r
      end
  end.

(** [s.strip()] *)
Definition strip (s : string) : string := rstrip (lstrip s).

End Py.

Export Py.
Local Open Scope py_scope.

(** ** config.py: the settings the handlers read

    The accessors [get_directory] and [get_html_element] that the handlers
    call are not part of config.py, so the values they stand for are
    fields here; a locator is kept as the text an f-string prints for it. *)

Record Config := mkConfig {
  pdf_dir : string;
  captcha_image : string;
  max_retries : Z;
  retry_delay : Z;
  network_timeout : Z;
  element_timeout : Z;
  page_load_timeout : Z;
  ai_captcha_service_url : string;
  ai_captcha_service_api_key : string;
  captcha_id : string;
  captcha_input_id : string;
  submit_button_xpath : string
}.

Definition dquote : string := String (ascii_of_nat 34) EmptyString.

(** The values of config.py ([network_timeout] is absent there and read
    with its default; the service URL and key are Fernet tokens, of which
    only the emptiness is ever tested). *)
Definition default_config : Config :=
  {| pdf_dir := "data/pdfs";
     captcha_image := "captcha.png";
     max_retries := 3;
     retry_delay := 5;
     network_timeout := 10;
     element_timeout := 10;
     page_load_timeout := 30;
     ai_captcha_service_url := "gAAAAAB-url";
     ai_captcha_service_api_key := "gAAAAAB-key";
     captcha_id := "('id', 'captcha')";
     captcha_input_id := "('id', 'captcha_input')";
     submit_button_xpath :=
       "('xpath', '//input[@type=" +:+ dquote +:+ "submit" +:+ dquote +:+ "]')" |}.

(** ** selenium_handler.py *)

Module SeleniumHandler.

Section Retry.
Context {A : Type}.
Variables (max_tries delay backoff : Z).
Variable exceptions : Exn -> bool.
Variable func : M A.

(** The wrapper of the [retry] decorator.  [iterations] is the number of
    rounds that [while tries < max_tries] still allows, that is
    [max_tries - tries] ([retry_loop_unfold] below is the equation of the
    loop with its test); falling out of the loop returns [None]. *)
Fixpoint retry_loop (iterations : nat) (tries : Z) : M (option A) :=
  match iterations with
  | O => ret None
  | S n =>
      try_except (a <- func ;; ret (Some a)) exceptions (fun e =>
        let tries := tries + 1 in
        if Z.eqb tries max_tries then raise e
        else (sleep (delay * backoff ^ (tries - 1)) ;; retry_loop n tries))
  end.

Definition retry : M (option A) := retry_loop (Z.to_nat max_tries) 0.

End Retry.

Definition is_class (c : ExnClass) (e : Exn) : bool := bool_decide (exn_class e = c).

Definition timeout_or_no_such_element (e : Exn) : bool :=
  (is_class TimeoutException e || is_class NoSuchElementException e)%bool.

Section Browser.
Variable config : Config.
Variable env : Env.

(** The handle of the element is represented by its [src] attribute. *)
Definition wait_for_element (locator : string) : M string :=
  try_except
    (r <- ask (fun t => element_src env t locator) (WaitElement locator) ;;
     match r with
     | inl e => raise e
     | inr element => log_info ("Element located: " +:+ locator) ;; ret element
     end)
    (is_class TimeoutException)
    (fun e =>
       log_error ("Element not found within " +:+ pretty (element_timeout config)
                  +:+ " seconds: " +:+ locator) PARSING ;;
       raise e).

Definition click_element_once (locator : string) : M unit :=
  try_except
    (r <- ask (click_outcome env) (Click locator) ;;
     match r with
     | Some e => raise e
     | None => log_info ("Clicked element: " +:+ locator)
     end)
    timeout_or_no_such_element
    (fun e =>
       log_error ("Element not clickable or not found: " +:+ locator) PARSING ;;
       raise e).

(** [@retry(exceptions=(ElementClickInterceptedException,))] with the
    defaults [max_tries=3, delay=1, backoff=2]. *)
Definition click_element (locator : string) : M (option unit) :=
  retry 3 1 2 (is_class ElementClickInterceptedException) (click_element_once locator).

Definition fill_input_field (locator value : string) : M unit :=
  try_except
    (r <- ask (fill_outcome env) (FillInput locator value) ;;
     match r with
     | Some e => raise e
     | None => log_info ("Filled input field " +:+ locator +:+ " with value: " +:+ value)
     end)
    timeout_or_no_such_element
    (fun e => log_error ("Error filling input field " +:+ locator) PARSING ;; raise e).

Definition wait_for_page_load : M unit :=
  try_except
    (r <- ask (page_load_outcome env) WaitPageLoad ;;
     match r with
     | Some e => raise e
     | None => log_info "Page loaded successfully."
     end)
    (is_class TimeoutException)
    (fun e =>
       log_error ("Page load timeout after " +:+ pretty (page_load_timeout config)
                  +:+ " seconds") NETWORK ;;
       raise e).

Definition submit_form (submit_button_locator : string) : M unit :=
  try_except
    (click_element submit_button_locator ;;
     wait_for_page_load ;;
     log_info ("Form submitted by clicking: " +:+ submit_button_locator))
    any_exception
    (fun e => log_error "Error submitting form" PARSING ;; raise e).

(** [self.driver.page_source] *)
Definition driver_page_source : M string :=
  r <- ask (page_source env) ReadPageSource ;;
  match r with
  | inl e => raise e
  | inr src => ret src
  end.

End Browser.

End SeleniumHandler.

(** ** pdf_downloader.py *)

Module PdfDownloader.

(** [b'%PDF'] *)
Definition pdf_magic : list byte := list_byte_of_string "%PDF".

Section Downloader.
Variable config : Config.
Variable env : Env.

Definition _create_pdf_filename (download_url : string) : string :=
  let file_name := List.last (split_on "/" download_url) "" in
  os_path_join (pdf_dir config) file_name.

Definition _is_pdf_valid (file_path : string) : M bool :=
  s <- get_state ;;
  match fs s !! file_path with
  | Some content =>
      let header := take 4 content in
      ret (bool_decide (header = pdf_magic))
  | None =>
      log_error ("Error validating PDF file: [Errno 2] No such file or directory: '"
                 +:+ file_path +:+ "'") FILE_IO ;;
      ret false
  end.

(** [for chunk in response.iter_content(...): if chunk: pdf_file.write(chunk)] *)
Fixpoint write_chunks (path : string) (chunks : list (list byte)) : M unit :=
  match chunks with
  | [] => ret tt
  | chunk :: rest =>
      (match chunk with
       | [] => ret tt
       | _ => modify_fs (alter (fun written => (written ++ chunk)%list) path)
       end) ;;
      write_chunks path rest
  end.

(** [with open(pdf_filename, 'wb') as pdf_file: ...]: the file is created
    empty, the chunks are appended as they arrive, and a stream that breaks
    raises with what was written so far left in the file. *)
Definition save_stream (path : string) (chunks : list (list byte)) (broken : option string) : M unit :=
  modify_fs (insert path []) ;;
  write_chunks path chunks ;;
  match broken with
  | Some msg => raise (mkExn RequestException msg)
  | None => ret tt
  end.

(** The body of the [try] of one attempt; it either returns the file name
    or raises. *)
Definition attempt_download (pdf_link pdf_filename : string) : M string :=
  response <- ask (fun t => requests_get env t pdf_link) (HttpGet pdf_link) ;;
  match response with
  | ConnectionFailed msg => raise (mkExn RequestException msg)
  | Response status_code chunks broken =>
      if Z.eqb status_code 200 then
        save_stream pdf_filename chunks broken ;;
        log_info ("PDF downloaded successfully: " +:+ pdf_filename) ;;
        valid <- _is_pdf_valid pdf_filename ;;
        if valid then
          log_info ("PDF validation successful: " +:+ pdf_filename) ;;
          log_to_csv "all" [pdf_link; "Success"; "PDF downloaded and valid"] ;;
          log_to_csv "good" [pdf_link; "Success"; "PDF downloaded and valid"] ;;
          ret pdf_filename
        else
          log_error ("Invalid PDF file format: " +:+ pdf_filename) FILE_IO ;;
          log_to_csv "all" [pdf_link; "Failed"; "Invalid PDF format"] ;;
          log_to_csv "bad" [pdf_link; "Failed"; "Invalid PDF format"] ;;
          raise (mkExn GenericException "Invalid PDF file format.")
      else
        raise (mkExn GenericException
                 ("Failed to download PDF. Status code: " +:+ pretty status_code))
  end.

(** [except Exception as e] of one attempt. *)
Definition attempt_failed (pdf_link : string) (attempt : Z) (e : Exn) : M unit :=
  log_error ("Error downloading PDF (Attempt " +:+ pretty attempt +:+ "/"
             +:+ pretty (max_retries config) +:+ "): " +:+ exn_msg e) NETWORK ;;
  log_to_csv "all" [pdf_link; "Failed"; exn_msg e] ;;
  if Z.ltb attempt (max_retries config) then
    log_info ("Retrying in " +:+ pretty (retry_delay config) +:+ " seconds...") ;;
    sleep (retry_delay config)
  else ret tt.

(** [for attempt in range(1, self.max_retries + 1)] and what follows the
    loop.  [Some] inside the loop is the [return] of the [try]. *)
Fixpoint download_attempts (pdf_link pdf_filename : string) (attempts : list Z) : M (option string) :=
  match attempts with
  | [] =>
      log_error "PDF download failed after maximum retries." NETWORK ;;
      log_to_csv "bad" [pdf_link; "Failed"; "Maximum retries exceeded"] ;;
      ret None
  | attempt :: rest =>
      returned <- try_except
                    (name <- attempt_download pdf_link pdf_filename ;; ret (Some name))
                    any_exception
                    (fun e => attempt_failed pdf_link attempt e ;; ret None) ;;
      match returned with
      | Some name => ret (Some name)
      | None => download_attempts pdf_link pdf_filename rest
      end
  end.

Definition download_pdf (pdf_link : string) : M (option string) :=
  let pdf_filename := _create_pdf_filename pdf_link in
  found <- path_exists pdf_filename ;;
  if found then
    log_info ("PDF already exists at: " +:+ pdf_filename +:+ ". Skipping download.") ;;
    log_to_csv "all" [pdf_link; "Skipped"; "PDF already exists"] ;;
    ret (Some pdf_filename)
  else
    log_info ("Attempting to download PDF from: " +:+ pdf_link) ;;
    log_to_csv "all" [pdf_link; "Attempting"; "Download started"] ;;
    download_attempts pdf_link pdf_filename (seqZ 1 (max_retries config)).

End Downloader.

End PdfDownloader.


(** ** captcha_handler.py *)

Module CaptchaHandler.
Import SeleniumHandler.

Section Handler.
Variable config : Config.
Variable env : Env.

Definition captcha_image_path : string :=
  os_path_join (pdf_dir config) (captcha_image config).

Definition fetch_captcha_file : M unit :=
  try_except
    (log_info "Fetching CAPTCHA image..." ;;
     captcha_src <- wait_for_element config env (captcha_id config) ;;
     captcha_img <- ask (fun t => requests_get env t captcha_src) (HttpGet captcha_src) ;;
     match captcha_img with
     | ConnectionFailed msg => raise (mkExn RequestException msg)
     | Response status_code chunks broken =>
         if Z.eqb status_code 200 then
           (* open(..., 'wb') creates the file, then .content reads the body *)
           modify_fs (insert captcha_image_path []) ;;
           match broken with
           | Some msg => raise (mkExn RequestException msg)
           | None =>
               modify_fs (insert captcha_image_path (concat chunks)) ;;
               log_info ("CAPTCHA image saved to " +:+ captcha_image_path)
           end
         else
           raise (mkExn GenericException
                    ("Failed to fetch CAPTCHA image. Status code: " +:+ pretty status_code))
     end)
    any_exception
    (fun e => log_error ("Error fetching CAPTCHA: " +:+ exn_msg e) NETWORK ;; raise e).

Definition manual_prompt : string :=
  "Please solve the CAPTCHA manually and enter the solution: ".

Definition solve_captcha_manually : M string :=
  log_info "Waiting for manual CAPTCHA solving..." ;;
  captcha_solution <- ask (stdin env) (Input manual_prompt) ;;
  ret (strip captcha_solution).

(** [not self.ai_service_url or not self.ai_service_api_key] *)
Definition ai_not_configured : bool :=
  (String.eqb (ai_captcha_service_url config) ""
   || String.eqb (ai_captcha_service_api_key config) "")%bool.

Definition solve_captcha_with_ai : M string :=
  if ai_not_configured then
    log_warning "AI CAPTCHA service not configured. Falling back to manual solving." ;;
    solve_captcha_manually
  else
    try_except
      (log_info "Attempting to solve CAPTCHA with AI..." ;;
       s <- get_state ;;
       match fs s !! captcha_image_path with
       | None =>
           raise (mkExn FileNotFoundError
                    ("[Errno 2] No such file or directory: '" +:+ captcha_image_path +:+ "'"))
       | Some image_file =>
           response <- ask (fun t => requests_post env t (ai_captcha_service_url config))
                           (HttpPost (ai_captcha_service_url config)) ;;
           match response with
           | PostFailed msg => raise (mkExn RequestException msg)
           | PostResponse status_code bad_json json_solution =>
               if Z.eqb status_code 200 then
                 match bad_json with
                 | Some msg => raise (mkExn RequestException msg)
                 | None =>
                     match json_solution with
                     | Some (String c rest) =>
                         log_info "CAPTCHA solved successfully using AI." ;;
                         ret (String c rest)
                     | _ => raise (mkExn GenericException "AI service did not return a solution.")
                     end
                 end
               else
                 raise (mkExn GenericException
                          ("AI service returned status code: " +:+ pretty status_code))
           end
       end)
      any_exception
      (fun e =>
         log_error ("Failed to solve CAPTCHA with AI: " +:+ exn_msg e) NETWORK ;;
         raise e).

Definition enter_captcha_solution (solution : string) : M bool :=
  try_except
    (fill_input_field env (captcha_input_id config) solution ;;
     submit_form config env (submit_button_xpath config) ;;
     sleep (retry_delay config) ;;
     source <- driver_page_source env ;;
     if str_contains "Invalid CAPTCHA" source then
       log_warning "CAPTCHA solution incorrect." ;;
       ret false
     else ret true)
    any_exception
    (fun e =>
       log_error ("Error entering CAPTCHA solution: " +:+ exn_msg e) PARSING ;;
       ret false).

Definition clean_up_captcha_file : M unit :=
  found <- path_exists captcha_image_path ;;
  if found then
    modify_fs (delete captcha_image_path) ;;
    log_info ("Deleted CAPTCHA image: " +:+ captcha_image_path)
  else
    log_warning ("CAPTCHA image not found for deletion: " +:+ captcha_image_path).

(** [solve_captcha] is given here block by block, with [recurse] standing
    for the call [self.solve_captcha(tries_remaining - 1)].

    The [if tries_remaining == 1: ... else: ...] block ends either with the
    value that the function returns at once ([inl], the [return] inside
    [except Exception]) or with the solution to submit ([inr]). *)
Definition obtain_solution (recurse : M bool) (tries_remaining : Z) : M (bool + string) :=
  if Z.eqb tries_remaining 1 then
    log_info "One try remaining. Resorting to manual CAPTCHA solving." ;;
    solution <- solve_captcha_manually ;;
    ret (inr solution)
  else
    log_info ("Tries remaining: " +:+ pretty tries_remaining
              +:+ ". Attempting AI CAPTCHA solving.") ;;
    try_except
      (solution <- solve_captcha_with_ai ;; ret (inr solution))
      any_exception
      (fun _ =>
         if Z.ltb 0 (tries_remaining - 1) then
           returned <- recurse ;; ret (inl returned)
         else
           solution <- solve_captcha_manually ;;
           ret (inr solution)).

(** The [if self.enter_captcha_solution(solution): ... else: ...] block. *)
Definition submit_solution (recurse : M bool) (tries_remaining : Z) (solution : string)
    : M bool :=
  accepted <- enter_captcha_solution solution ;;
  if accepted then
    log_info "CAPTCHA solved successfully." ;;
    ret true
  else if Z.ltb 1 tries_remaining then recurse
  else ret false.

Definition solve_captcha_body (recurse : M bool) (tries_remaining : Z) : M bool :=
  try_finally
    (fetch_captcha_file ;;
     phase <- obtain_solution recurse tries_remaining ;;
     match phase with
     | inl returned => ret returned
     | inr solution => submit_solution recurse tries_remaining solution
     end)
    clean_up_captcha_file.

(** [solve_captcha] calls itself only with [tries_remaining - 1] and only
    when [tries_remaining > 1], so [tries_remaining - 1] nested calls are
    all there can be; [solve_captcha_unfold] below shows that the innermost
    stand-in is never run. *)
Fixpoint solve_captcha_depth (depth : nat) (tries_remaining : Z) : M bool :=
  solve_captcha_body
    (match depth with
     | O => ret false
     | S d => solve_captcha_depth d (tries_remaining - 1)
     end)
    tries_remaining.

Definition solve_captcha (tries_remaining : Z) : M bool :=
  solve_captcha_depth (Z.to_nat (tries_remaining - 1)) tries_remaining.

Definition start_captcha_process : M bool :=
  log_info ("Starting CAPTCHA process with max retries: " +:+ pretty (max_retries config)) ;;
  solve_captcha (max_retries config).

End Handler.

End CaptchaHandler.

(** ** v1/main.py *)

Module V1.

(** [class Config] *)
Definition SEARCH_URL : string := "https://judgments.ecourts.gov.in/pdfsearch/".
Definition PDF_DIR : string := "pdfs".
Definition ALL_CSV : string := "all_urls.csv".
Definition GOOD_CSV : string := "good_urls.csv".
Definition BAD_CSV : string := "bad_urls.csv".
Definition RESUME_STATE_FILE : string := "resume_state.pkl".
Definition MAX_RETRIES : Z := 3.
Definition RETRY_DELAY : Z := 5.
Definition MAX_WORKERS : Z := 5.

Definition logging_log (message : string) (level : LogLevel) : M unit :=
  emit (Logging level message).

Section Crawler.
Variable env : Env.
(** The library functions of which only the outcome matters:
    [os.path.splitext(os.path.basename(urlparse(url).path))],
    [PIL.Image.open], [PyPDF2.PdfReader], [pickle.load], [pickle.dump]
    ([None] is a call that does not raise). *)
Variable url_name_ext : string -> string * string.
Variable Image_open : list byte -> option Exn.
Variable PdfReader : list byte -> option Exn.
Variable pickle_load : list byte -> Exn + gset string.
Variable pickle_dump : gset string -> list byte.

(** *** CaptchaHandler *)

Definition display_captcha_and_get_input : M string :=
  entry <- ask (gui_entry env) ShowCaptchaWindow ;;
  match entry with
  | Some captcha_text => ret captcha_text
  | None => raise (mkExn IndexError "list index out of range")
  end.

Definition handle_captcha : M unit :=
  element <- ask (fun t => element_src env t "captcha_image") (WaitElement "captcha_image") ;;
  match element with
  | inl e => raise e
  | inr src =>
      url <- ask (current_url env) ReadCurrentUrl ;;
      let captcha_image_url := hd "" (split_on "?" url) +:+ src in
      captcha_response <- ask (fun t => requests_get env t captcha_image_url)
                              (HttpGet captcha_image_url) ;;
      match captcha_response with
      | ConnectionFailed msg => raise (mkExn RequestException msg)
      | Response _ _ (Some msg) => raise (mkExn RequestException msg)
      | Response _ chunks None =>
          match Image_open (concat chunks) with
          | Some e => raise e
          | None =>
              captcha_text <- display_captcha_and_get_input ;;
              filled <- ask (fill_outcome env) (FillInput "captcha" captcha_text) ;;
              match filled with
              | Some e => raise e
              | None =>
                  clicked <- ask (click_outcome env) (Click ("//input[@type=" +:+ dquote +:+ "submit" +:+ dquote +:+ "]")) ;;
                  match clicked with
                  | Some e => raise e
                  | None => ret tt
                  end
              end
          end
      end
  end.

(** *** SeleniumHandler *)

Definition get_page (url : string) : M unit :=
  loaded <- ask (page_load_outcome env) (GetPage url) ;;
  match loaded with
  | Some e => raise e
  | None => ret tt
  end.

Definition selenium_quit : M unit := emit DriverQuit.

(** *** PDFDownloader *)

Definition log_to_csv (csv_file pdf_url status : string) : M unit :=
  now <- ask (strftime env) ReadClock ;;
  emit (CsvRow csv_file [pdf_url; status; now]).

Definition log_pdf_details (pdf_url status : string) : M unit :=
  log_to_csv ALL_CSV pdf_url status ;;
  let csv_file := if String.eqb status "Success" then GOOD_CSV else BAD_CSV in
  log_to_csv csv_file pdf_url status.

Definition candidate_name (name ext : string) (counter : Z) : string :=
  os_path_join PDF_DIR (name +:+ "_" +:+ pretty counter +:+ ext).

(** [while os.path.exists(candidate): counter += 1].  Each round finds
    one more file, so the loop makes at most as many rounds as there are
    files; [rounds] counts them down, and [first_free_name_total] below
    shows that they never run out. *)
Fixpoint first_free_name (files : gmap string (list byte)) (name ext : string)
    (rounds : nat) (counter : Z) : option string :=
  if bool_decide (is_Some (files !! candidate_name name ext counter)) then
    match rounds with
    | O => None
    | S n => first_free_name files name ext n (counter + 1)
    end
  else Some (candidate_name name ext counter).

Definition get_unique_filename (url : string) : M string :=
  let '(name, ext) := url_name_ext url in
  s <- get_state ;;
  match first_free_name (fs s) name ext (size (fs s)) 1 with
  | Some path => ret path
  | None => raise (mkExn RecursionError "get_unique_filename")
  end.

Definition validate_pdf (pdf_path : string) : M bool :=
  s <- get_state ;;
  match fs s !! pdf_path with
  | Some content =>
      match PdfReader content with
      | None => ret true
      | Some _ => ret false
      end
  | None => ret false
  end.

Definition is_request_exception (e : Exn) : bool :=
  bool_decide (exn_class e = RequestException).

(** [response.raise_for_status()]; the reason phrase of the server is not
    part of the message here. *)
Definition raise_for_status (status_code : Z) (url : string) : M unit :=
  if (Z.leb 400 status_code && Z.ltb status_code 500)%bool then
    raise (mkExn RequestException (pretty status_code +:+ " Client Error for url: " +:+ url))
  else if (Z.leb 500 status_code && Z.ltb status_code 600)%bool then
    raise (mkExn RequestException (pretty status_code +:+ " Server Error for url: " +:+ url))
  else ret tt.

(** The body of the [try] of one attempt: it always returns from
    [download_pdf] or raises.  [PDF_DIR] is taken to be there, as for every
    folder that is written into: nothing in v1/main.py creates it, and
    without it [open] raises FileNotFoundError, which no clause of
    [download_pdf] catches. *)
Definition attempt_download (pdf_url : string) : M bool :=
  response <- ask (fun t => requests_get env t pdf_url) (HttpGet pdf_url) ;;
  match response with
  | ConnectionFailed msg => raise (mkExn RequestException msg)
  | Response _ _ (Some msg) => raise (mkExn RequestException msg)
  | Response status_code chunks None =>
      raise_for_status status_code pdf_url ;;
      pdf_name <- get_unique_filename pdf_url ;;
      modify_fs (insert pdf_name (concat chunks)) ;;
      valid <- validate_pdf pdf_name ;;
      if valid then
        logging_log ("Downloaded and validated PDF: " +:+ pdf_name) INFO ;;
        log_pdf_details pdf_url "Success" ;;
        ret true
      else
        logging_log ("Invalid PDF: " +:+ pdf_name) WARNING ;;
        modify_fs (delete pdf_name) ;;
        ret false
  end.

(** [for attempt in range(self.config.MAX_RETRIES)] and what follows it. *)
Fixpoint download_attempts (pdf_url : string) (attempts : list Z) : M bool :=
  match attempts with
  | [] => log_pdf_details pdf_url "Failed" ;; ret false
  | attempt :: rest =>
      returned <- try_except
                    (b <- attempt_download pdf_url ;; ret (Some b))
                    is_request_exception
                    (fun e =>
                       logging_log ("Attempt " +:+ pretty (attempt + 1) +:+ " failed for "
                                    +:+ pdf_url +:+ ": " +:+ exn_msg e) ERROR ;;
                       (if Z.ltb attempt (MAX_RETRIES - 1) then sleep RETRY_DELAY else ret tt) ;;
                       ret None) ;;
      match returned with
      | Some b => ret b
      | None => download_attempts pdf_url rest
      end
  end.

Definition download_pdf (pdf_url : string) : M bool :=
  download_attempts pdf_url (seqZ 0 MAX_RETRIES).

(** [future_to_url = {self.executor.submit(self.download_pdf, url): url
    for url in pdf_urls}] *)
Fixpoint submit_all (pdf_urls : list string) : M unit :=
  match pdf_urls with
  | [] => ret tt
  | url :: rest => emit (Submit url) ;; submit_all rest
  end.

(** [for future in as_completed(future_to_url)].  The jobs of the pool
    are run here one after the other in the order of their submission,
    which is one of the schedules of the executor. *)
Fixpoint collect_results (pdf_urls : list string) : M unit :=
  match pdf_urls with
  | [] => ret tt
  | url :: rest =>
      try_except (download_pdf url ;; ret tt) any_exception
        (fun e => logging_log ("Error downloading PDF " +:+ url +:+ ": " +:+ exn_msg e) ERROR) ;;
      collect_results rest
  end.

(** [pdf_urls] is a Python value: [None] is not iterable. *)
Definition download_pdfs (pdf_urls : option (list string)) : M unit :=
  match pdf_urls with
  | None => raise (mkExn TypeError "'NoneType' object is not iterable")
  | Some urls => submit_all urls ;; collect_results urls
  end.

(** *** Crawler *)

Definition load_resume_state : M (gset string) :=
  found <- path_exists RESUME_STATE_FILE ;;
  if found then
    s <- get_state ;;
    match fs s !! RESUME_STATE_FILE with
    | Some content =>
        match pickle_load content with
        | inl e => raise e
        | inr visited => ret visited
        end
    | None => ret ∅
    end
  else ret ∅.

(** [self.visited_urls = self.load_resume_state()] of [__init__] *)
Definition init_crawler : M unit :=
  visited <- load_resume_state ;;
  fun s => mkRun (Val tt) (mkState (fs s) (tick s) visited) [].

Definition save_resume_state : M unit :=
  s <- get_state ;;
  modify_fs (insert RESUME_STATE_FILE (pickle_dump (visited_urls s))).

(** The body is [pass]. *)
Definition extract_pdf_urls : M (option (list string)) := ret None.

Definition crawl : M unit :=
  try_finally
    (try_except
       (get_page SEARCH_URL ;;
        handle_captcha ;;
        pdf_urls <- extract_pdf_urls ;;
        download_pdfs pdf_urls)
       any_exception
       (fun e => logging_log ("Error during crawling: " +:+ exn_msg e) ERROR))
    (save_resume_state ;; selenium_quit).

Definition main : M unit := init_crawler ;; crawl.

End Crawler.

End V1.


(** ** selenium_handler.py and pdf_downloader.py: from the page to the link *)

Module PdfDownloadProcess.

Section Process.
Variable config : Config.
Variable env : Env.
(** [self.config.get_html_element("pdf_button_xpath")] and
    [self.config.get_site_specific("click_pdf_button_js")] *)
Variable pdf_button_xpath : string.
Variable click_pdf_button_js : string.
(** [self.driver.execute_async_script]: the exception of the driver, or
    what the script of the page hands to its callback, [None] for a
    JavaScript [null]. *)
Variable execute_async_script : nat -> string -> Exn + option string.

(** One call of the driver's script engine; it takes its turn on the clock
    and leaves no event of its own. *)
Definition driver_execute_async_script (js_code : string) : M (Exn + option string) := fun s =>
  mkRun (Val (execute_async_script (tick s) js_code)) (next_tick s) [].

(** [SeleniumHandler.trigger_js_function] *)
Definition trigger_js_function (js_code : string) : M (option string) :=
  try_except
    (r <- driver_execute_async_script js_code ;;
     match r with
     | inl e => raise e
     | inr result =>
         log_info "JavaScript function triggered successfully." ;;
         ret result
     end)
    any_exception
    (fun e => log_error "Error executing JavaScript" PARSING ;; raise e).

(** [SeleniumHandler.fetch_pdf_link]; [if pdf_link:] holds for a string
    that is not empty. *)
Definition fetch_pdf_link : M (option string) :=
  try_except
    (SeleniumHandler.click_element env pdf_button_xpath ;;
     log_info "PDF button clicked, triggering JavaScript." ;;
     pdf_link <- trigger_js_function click_pdf_button_js ;;
     match pdf_link with
     | Some (String c rest) =>
         log_info ("PDF link generated: " +:+ String c rest) ;;
         ret (Some (String c rest))
     | _ =>
         log_error "No PDF link found after JavaScript execution." PARSING ;;
         ret None
     end)
    any_exception
    (fun e => log_error "Error fetching PDF link" PARSING ;; raise e).

(** [PDFDownloader.start_pdf_download_process].  In the row of the branch
    without a link [pdf_link] is [None], which [csv.writer] writes as the
    empty string. *)
Definition start_pdf_download_process : M (option string) :=
  try_except
    (log_info "Starting PDF download process..." ;;
     pdf_link <- fetch_pdf_link ;;
     match pdf_link with
     | Some (String c rest) => PdfDownloader.download_pdf config env (String c rest)
     | _ =>
         log_error "No valid PDF link found." PARSING ;;
         log_to_csv "bad" [""; "Failed"; "No valid PDF link found"] ;;
         ret None
     end)
    any_exception
    (fun e =>
       log_error ("Unexpected error during PDF download process: " +:+ exn_msg e) UNKNOWN ;;
       ret None).

End Process.

End PdfDownloadProcess.

(** ** config.py: the tables of paths *)

Module ConfigTables.

(** [raise ValueError(msg)] *)
Inductive ConfigError := ValueError (msg : string).

(** [if not value]: a key that is missing and a string that is empty are
    both false. *)
Definition truthy (value : option string) : bool :=
  match value with
  | Some (String _ _) => true
  | _ => false
  end.

Section GetFullPath.
(** [self.folders], [self.files] *)
Variables folders files : gmap string string.

Definition get_full_path (folder_key : string) (file_key : option string)
    : ConfigError + string :=
  match folders !! folder_key with
  | Some (String c rest) =>
      let folder := String c rest in
      match file_key with
      | Some (String k key_rest) =>
          match files !! String k key_rest with
          | Some (String d name_rest) => inr (os_path_join folder (String d name_rest))
          | _ => inl (ValueError ("Invalid file key: " +:+ String k key_rest))
          end
      | _ => inr folder
      end
  | _ => inl (ValueError ("Invalid folder key: " +:+ folder_key))
  end.

End GetFullPath.

Section Tables.
(** [datetime.now().strftime("%Y/%m")] and [datetime.now().strftime("%Y%m%d")] *)
Variables year_month day : string.

Definition folders : gmap string string :=
  list_to_map
    [("pdfs", os_path_join "data" "pdfs");
     ("logs", os_path_join (os_path_join "data" "logs") year_month);
     ("csv_files", os_path_join "data" "csv")].

Definition files : gmap string string :=
  list_to_map
    [("captcha_image", "captcha.png");
     ("all_urls_csv", "all_urls.csv");
     ("good_urls_csv", "good_urls.csv");
     ("bad_urls_csv", "bad_urls.csv");
     ("resume_state", "resume_state.pkl");
     ("log_file", "crawler_log_" +:+ day +:+ ".txt");
     ("csv_error_log", "csv_error_log_" +:+ day +:+ ".csv")].

(** The entries of [self.directories], in the order in which the dict
    display evaluates them; the first [ValueError] ends [__init__]. *)
Definition directory_entries : list (string * (string * option string)) :=
  [("pdf_dir", ("pdfs", None));
   ("log_file", ("logs", Some "log_file"));
   ("captcha_image_path", ("pdfs", Some "captcha_image"));
   ("all_csv", ("csv_files", Some "all_urls_csv"));
   ("good_csv", ("csv_files", Some "good_urls_csv"));
   ("bad_csv", ("csv_files", Some "bad_urls_csv"));
   ("resume_state_file", ("csv_files", Some "resume_state"));
   ("csv_error_log", ("csv_files", Some "csv_error_log"))].

Fixpoint resolve_entries (entries : list (string * (string * option string)))
    : ConfigError + list (string * string) :=
  match entries with
  | [] => inr []
  | (key, (folder_key, file_key)) :: rest =>
      match get_full_path folders files folder_key file_key with
      | inl e => inl e
      | inr path =>
          match resolve_entries rest with
          | inl e => inl e
          | inr resolved => inr ((key, path) :: resolved)
          end
      end
  end.

Definition directories : ConfigError + gmap string string :=
  match resolve_entries directory_entries with
  | inl e => inl e
  | inr resolved => inr (list_to_map resolved)
  end.

End Tables.

End ConfigTables.

(** ** logging_manager.py: what depends on the tables of config.py *)

Module LoggingManager.
Import ConfigTables.

Section Manager.
(** [self.config.directories] *)
Variable directories : gmap string string.

(** [self.config.directories.get(f'{file_type}_csv')] *)
Definition csv_file_of (file_type : string) : option string :=
  directories !! (file_type +:+ "_csv").

(** [for key in required_keys] of [validate_logging_config] *)
Fixpoint check_required_keys (keys : list string) : M bool :=
  match keys with
  | [] => ret true
  | key :: rest =>
      if truthy (directories !! key) then check_required_keys rest
      else
        log_error ("Missing configuration key: " +:+ key) CONFIGURATION ;;
        ret false
  end.

Definition required_keys : list string :=
  ["log_file"; "csv_error_log"; "all_csv"; "good_csv"; "bad_csv"].

Definition validate_logging_config : M bool := check_required_keys required_keys.

End Manager.

End LoggingManager.
(** * Concrete worlds used by the examples *)

(** A world in which nothing answers: every request fails, no element is
    found, the operator types nothing. *)
Definition offline : Env :=
  {| requests_get := fun _ _ => ConnectionFailed "Connection refused";
     requests_post := fun _ _ => PostFailed "Connection refused";
     stdin := fun _ => "";
     element_src := fun _ _ => inl (mkExn TimeoutException "Message: ");
     fill_outcome := fun _ => None;
     click_outcome := fun _ => None;
     page_load_outcome := fun _ => None;
     page_source := fun _ => inr "";
     current_url := fun _ => "";
     gui_entry := fun _ => None;
     strftime := fun _ => "2024-01-01 00:00:00" |}.

(** The offline world, except that every GET is answered by [r]. *)
Definition serving (r : HttpResult) : Env :=
  {| requests_get := fun _ _ => r;
     requests_post := requests_post offline;
     stdin := stdin offline;
     element_src := element_src offline;
     fill_outcome := fill_outcome offline;
     click_outcome := click_outcome offline;
     page_load_outcome := page_load_outcome offline;
     page_source := page_source offline;
     current_url := current_url offline;
     gui_entry := gui_entry offline;
     strftime := strftime offline |}.

Definition empty_state : State := mkState ∅ 0 ∅.

Definition a_pdf_url : string := "https://portal.example/files/a.pdf".
Definition a_pdf_path : string := "data/pdfs/a.pdf".

Definition html_body : list byte := list_byte_of_string "<html>blocked</html>".
Definition pdf_body : list byte := list_byte_of_string "%PDF-1.7 body".

(** * Vocabulary of the statements *)

(** The file at [path] after the body of a response was streamed into it. *)
Definition stored (path : string) (chunks : list (list byte)) (s : State) : State :=
  set_fs (insert path (concat chunks)) s.

(** Whether a body carries the signature. *)
Definition has_pdf_header (content : list byte) : bool :=
  bool_decide (take 4 content = PdfDownloader.pdf_magic).

Definition invalid_format : Exn := mkExn GenericException "Invalid PDF file format.".


(** What [except Exception as e] of attempt number [attempt] emits. *)
Definition failure_events (config : Config) (pdf_link : string) (attempt : Z) (e : Exn)
    : list Event :=
  [LogError ("Error downloading PDF (Attempt " +:+ pretty attempt +:+ "/"
             +:+ pretty (max_retries config) +:+ "): " +:+ exn_msg e) NETWORK;
   CsvRow "all" [pdf_link; "Failed"; exn_msg e]]
  ++ (if Z.ltb attempt (max_retries config)
      then [LogInfo ("Retrying in " +:+ pretty (retry_delay config) +:+ " seconds...");
            Sleep (retry_delay config)]
      else []).

(** The events of the branch of [download_pdf] that skips the download. *)
Definition skipped_events (pdf_link pdf_filename : string) : list Event :=
  [LogInfo ("PDF already exists at: " +:+ pdf_filename +:+ ". Skipping download.");
   CsvRow "all" [pdf_link; "Skipped"; "PDF already exists"]].

(** The wait of the retry policy as the specification words it:
    [base * backoff^(attempt-1)] for the 1-indexed [attempt]. *)
Definition spec_delay (base backoff attempt : Z) : Z := base * backoff ^ (attempt - 1).

(** The offline world, except that every click is intercepted by an
    overlay. *)
Definition intercepting : Env :=
  {| requests_get := requests_get offline;
     requests_post := requests_post offline;
     stdin := stdin offline;
     element_src := element_src offline;
     fill_outcome := fill_outcome offline;
     click_outcome := fun _ =>
       Some (mkExn ElementClickInterceptedException "element click intercepted");
     page_load_outcome := page_load_outcome offline;
     page_source := page_source offline;
     current_url := current_url offline;
     gui_entry := gui_entry offline;
     strftime := strftime offline |}.

(** Every event that a computation emits satisfies [P], from whatever state
    it starts. *)
Definition emits {A} (P : Event -> Prop) (m : M A) : Prop :=
  forall s, Forall P (out (m s)).

(** The two log lines by which [solve_captcha] tells which way it goes. *)
Definition manual_branch_line : Event :=
  LogInfo "One try remaining. Resorting to manual CAPTCHA solving.".

Definition ai_branch_line (tries_remaining : Z) : Event :=
  LogInfo ("Tries remaining: " +:+ pretty tries_remaining +:+ ". Attempting AI CAPTCHA solving.").

(** The events of the strategy that uses the solving service: the log line
    of the branch of [solve_captcha] that takes it, the two lines with which
    [solve_captcha_with_ai] opens, and the request to the service. *)
Definition is_ai_event (e : Event) : bool :=
  match e with
  | HttpPost _ => true
  | LogInfo msg =>
      (String.prefix "Tries remaining: " msg
       || String.eqb msg "Attempting to solve CAPTCHA with AI...")%bool
  | LogWarning msg =>
      String.eqb msg "AI CAPTCHA service not configured. Falling back to manual solving."
  | _ => false
  end.

Definition not_ai_event (e : Event) : Prop := is_ai_event e = false.

(** A configuration with other settings of the solving service, and a
    world with another solving service. *)
Definition with_ai_settings (config : Config) (url api_key : string) : Config :=
  {| pdf_dir := pdf_dir config;
     captcha_image := captcha_image config;
     max_retries := max_retries config;
     retry_delay := retry_delay config;
     network_timeout := network_timeout config;
     element_timeout := element_timeout config;
     page_load_timeout := page_load_timeout config;
     ai_captcha_service_url := url;
     ai_captcha_service_api_key := api_key;
     captcha_id := captcha_id config;
     captcha_input_id := captcha_input_id config;
     submit_button_xpath := submit_button_xpath config |}.

Definition with_requests_post (env : Env) (service : nat -> string -> PostResult) : Env :=
  {| requests_get := requests_get env;
     requests_post := service;
     stdin := stdin env;
     element_src := element_src env;
     fill_outcome := fill_outcome env;
     click_outcome := click_outcome env;
     page_load_outcome := page_load_outcome env;
     page_source := page_source env;
     current_url := current_url env;
     gui_entry := gui_entry env;
     strftime := strftime env |}.

(** A world in which the page shows the CAPTCHA image, the image is
    served, and the operator types [answer]; the page after a submission is
    [page]. *)
Definition captcha_world (answer page : string) : Env :=
  {| requests_get := fun _ _ => Response 200 [list_byte_of_string "PNG"] None;
     requests_post := fun _ _ => PostResponse 200 None (Some "ai-guess");
     stdin := fun _ => answer;
     element_src := fun _ _ => inr "https://portal.example/captcha.png";
     fill_outcome := fun _ => None;
     click_outcome := fun _ => None;
     page_load_outcome := fun _ => None;
     page_source := fun _ => inr page;
     current_url := fun _ => "https://portal.example/pdfsearch/?p=1";
     gui_entry := fun _ => Some answer;
     strftime := fun _ => "2024-01-01 00:00:00" |}.

(** The world of [captcha_world], except that the input field of the
    CAPTCHA is missing from the page. *)
Definition missing_input_field : Env :=
  {| requests_get := requests_get (captcha_world "X7K2" "Results");
     requests_post := requests_post (captcha_world "X7K2" "Results");
     stdin := stdin (captcha_world "X7K2" "Results");
     element_src := element_src (captcha_world "X7K2" "Results");
     fill_outcome := fun _ => Some (mkExn NoSuchElementException "no such element");
     click_outcome := click_outcome (captcha_world "X7K2" "Results");
     page_load_outcome := page_load_outcome (captcha_world "X7K2" "Results");
     page_source := page_source (captcha_world "X7K2" "Results");
     current_url := current_url (captcha_world "X7K2" "Results");
     gui_entry := gui_entry (captcha_world "X7K2" "Results");
     strftime := strftime (captcha_world "X7K2" "Results") |}.

(** The two browser calls with which [enter_captcha_solution] begins. *)
Definition fill_and_submit (config : Config) (env : Env) (solution : string) : M unit :=
  SeleniumHandler.fill_input_field env (captcha_input_id config) solution ;;
  SeleniumHandler.submit_form config env (submit_button_xpath config).

(** A computation leaves [visited_urls], the crawl state, as it found it. *)
Definition keeps_visited {A} (m : M A) : Prop :=
  forall s, visited_urls (st (m s)) = visited_urls s.

Definition is_submit (e : Event) : bool :=
  match e with Submit _ => true | _ => false end.

Definition not_submit (e : Event) : Prop := is_submit e = false.

(** Stand-ins for the library calls of v1/main.py in the examples: the name
    and extension that [urlparse], [basename] and [splitext] give for
    [a_pdf_url], an image library and a PDF reader that accept what carries
    the signature of the format, and an unpickler that finds the end of
    the input where a pickle should begin, as [pickle.load] does on an
    empty file. *)
Definition example_url_name_ext (url : string) : string * string := ("a", ".pdf").

Definition example_Image_open (content : list byte) : option Exn :=
  if bool_decide (take 3 content = list_byte_of_string "PNG") then None
  else Some (mkExn UnidentifiedImageError "cannot identify image file").

Definition example_PdfReader (content : list byte) : option Exn :=
  if has_pdf_header content then None
  else Some (mkExn GenericException "EOF marker not found").

Definition example_pickle_load (content : list byte) : Exn + gset string :=
  match content with
  | [] => inl (mkExn EOFError "Ran out of input")
  | _ => inr ∅
  end.

Definition example_pickle_dump (visited : gset string) : list byte :=
  list_byte_of_string "pickle".

(** A state in which the resume file was created but nothing was written
    to it. *)
Definition truncated_resume_state : State :=
  mkState {[ V1.RESUME_STATE_FILE := [] ]} 0 ∅.

(** A state in which [a_pdf_url] is already marked as visited. *)
Definition already_visited : State := mkState ∅ 0 {[ a_pdf_url ]}.

(** * Vocabulary of the further properties *)

(** The records that [log_to_csv] wrote to the CSV file of [file_type]. *)
Fixpoint csv_rows (file_type : string) (t : list Event) : list (list string) :=
  match t with
  | [] => []
  | CsvRow ft record :: t' =>
      if String.eqb ft file_type then record :: csv_rows file_type t'
      else csv_rows file_type t'
  | _ :: t' => csv_rows file_type t'
  end.



(** The rows with which [download_pdf] ends a download. *)
Definition success_row (pdf_link : string) : list string :=
  [pdf_link; "Success"; "PDF downloaded and valid"].

Definition exhausted_row (pdf_link : string) : list string :=
  [pdf_link; "Failed"; "Maximum retries exceeded"].

Definition a_mirror_url : string := "https://mirror.example/archive/2024/a.pdf".


Definition is_click (e : Event) : bool :=
  match e with Click _ => true | _ => false end.

Definition count_events (p : Event -> bool) (t : list Event) : nat :=
  length (List.filter p t).

(** The offline world, except that no click finds its element in time. *)
Definition click_times_out : Env :=
  {| requests_get := requests_get offline;
     requests_post := requests_post offline;
     stdin := stdin offline;
     element_src := element_src offline;
     fill_outcome := fill_outcome offline;
     click_outcome := fun _ => Some (mkExn TimeoutException "Message: ");
     page_load_outcome := page_load_outcome offline;
     page_source := page_source offline;
     current_url := current_url offline;
     gui_entry := gui_entry offline;
     strftime := strftime offline |}.

(** A computation never raises. *)
Definition never_raises {A} (m : M A) : Prop :=
  forall s, exists a, res (m s) = Val a.

(** Whenever a computation raises, it has emitted the event [line e] for
    the exception [e] that comes out of it. *)
Definition raises_only {A} (line : Exn -> Event) (m : M A) : Prop :=
  forall s e, res (m s) = Exc e -> line e ∈ out (m s).

(** The line that [fetch_captcha_file] logs before it raises. *)
Definition fetch_error_line (e : Exn) : Event :=
  LogError ("Error fetching CAPTCHA: " +:+ exn_msg e) NETWORK.

Definition not_post (e : Event) : Prop := is_post e = false.

(** A configuration without solving service. *)
Definition without_ai_service : Config := with_ai_settings default_config "" "".

(** A computation leaves a state that is related by [R] to the state it
    started from. *)
Definition preserves {A} (R : State -> State -> Prop) (m : M A) : Prop :=
  forall s, R s (st (m s)).



(** Events that mark one attempt of [solve_captcha]: looking up the image
    element (once per fetch) and typing a solution into the form (once per
    submission). *)
Definition is_wait_element (e : Event) : bool :=
  match e with WaitElement _ => true | _ => false end.

Definition is_fill_input (e : Event) : bool :=
  match e with FillInput _ _ => true | _ => false end.

(** A computation emits at most [n] events of kind [p], from whatever state
    it starts. *)
Definition at_most {A} (p : Event -> bool) (n : nat) (m : M A) : Prop :=
  forall s, (count_events p (out (m s)) <= n)%nat.

(** The lines by which the captcha handler tells how a submission went:
    [solve_captcha]'s "CAPTCHA solved successfully.", and the two lines of
    [enter_captcha_solution] for a solution that did not go through. *)
Definition is_solved_line (e : Event) : bool :=
  match e with
  | LogInfo msg => String.eqb msg "CAPTCHA solved successfully."
  | _ => false
  end.

Definition is_rejection (e : Event) : bool :=
  match e with
  | LogWarning msg => String.eqb msg "CAPTCHA solution incorrect."
  | LogError msg PARSING => startswith msg "Error entering CAPTCHA solution: "
  | _ => false
  end.

(** The log agrees with the answer of a run: the success line is there
    exactly when the answer is [True], and a [False] comes with a rejection
    line. *)
Definition log_agrees (r : Run bool) : Prop :=
  (res r = Val true <-> existsb is_solved_line (out r) = true) /\
  (res r = Val false -> existsb is_rejection (out r) = true).

(** The files and the crawl state are as they were (the clock may have
    moved on). *)
Definition same_files_and_visited (s s' : State) : Prop :=
  fs s' = fs s /\ visited_urls s' = visited_urls s.

Definition is_csv_row (e : Event) : bool :=
  match e with CsvRow _ _ => true | _ => false end.

(** An event that is neither a GET nor a row of a CSV file. *)
Definition no_get_no_row (e : Event) : Prop :=
  (negb (is_get e) && negb (is_csv_row e))%bool = true.

(** An event that is no CSV row, or a row for one of the three CSV files
    that the crawler keeps. *)
Definition csv_type_known (e : Event) : bool :=
  match e with
  | CsvRow file_type _ =>
      (String.eqb file_type "all" || String.eqb file_type "good"
       || String.eqb file_type "bad")%bool
  | _ => true
  end.

(** A length that [time.sleep] accepts: it raises ValueError for a negative
    one, and OverflowError for one that its clock cannot hold (2^32
    milliseconds on the narrowest platform). *)
Definition accepted_by_sleep (secs : Z) : Prop := 0 <= secs <= 4294967.

(** The trace of a call of [download_pdf] that found nothing at the
    destination, file or directory, and went on to fetch: its first line
    is the one that announces the download. *)
Definition attempted (pdf_link : string) (t : list Event) : Prop :=
  hd_error t = Some (LogInfo ("Attempting to download PDF from: " +:+ pdf_link)).

(** The state in which the wrapper of [retry] makes its try number
    [i + 1], when the tries before it failed: a wait changes nothing. *)
Definition state_after_tries {A} (func : M A) (i : nat) (s : State) : State :=
  Nat.iter i (fun s' => st (func s')) s.

(** The first [n] tries of [func] each raise an exception of the classes
    that the decorator names. *)
Definition fails_first {A} (exceptions : Exn -> bool) (func : M A) (n : nat) (s : State)
    : Prop :=
  forall i, (i < n)%nat ->
    exists e, res (func (state_after_tries func i s)) = Exc e /\ exceptions e = true.

(** * Facts about the effect model *)

Lemma bind_val {A B} (m : M A) (k : A -> M B) s a :
  res (m s) = Val a ->
  bind m k s = after (out (m s)) (k a (st (m s))).
Proof. intros H. unfold bind. now rewrite H. Qed.

Lemma try_except_val {A} (m : M A) catches handler s a :
  res (m s) = Val a -> try_except m catches handler s = m s.
Proof. intros H. unfold try_except. now rewrite H. Qed.

Lemma try_except_caught {A} (m : M A) catches handler s e :
  res (m s) = Exc e -> catches e = true ->
  try_except m catches handler s = after (out (m s)) (handler e (st (m s))).
Proof. intros H Hc. unfold try_except. now rewrite H, Hc. Qed.

Lemma try_except_uncaught {A} (m : M A) catches handler s e :
  res (m s) = Exc e -> catches e = false ->
  try_except m catches handler s = m s.
Proof. intros H Hc. unfold try_except. now rewrite H, Hc. Qed.

Lemma after_after {A} t1 t2 (r : Run A) : after t1 (after t2 r) = after (t1 ++ t2) r.
Proof. unfold after. simpl. now rewrite app_assoc. Qed.

Lemma after_nil {A} (r : Run A) : after [] r = r.
Proof. now destruct r. Qed.

(** Running the primitive at the head of a sequence. *)
Ltac run_head :=
  erewrite bind_val by reflexivity;
  cbn [log_info log_warning log_error log_to_csv sleep emit ask get_state modify_fs
       ret raise res st out].

Ltac run_heads := repeat run_head.

Lemma bind_exc {A B} (m : M A) (k : A -> M B) s e :
  res (m s) = Exc e ->
  bind m k s = mkRun (Exc e) (st (m s)) (out (m s)).
Proof. intros H. unfold bind. now rewrite H. Qed.

Lemma sleeps_app t1 t2 : sleeps (t1 ++ t2) = (sleeps t1 ++ sleeps t2)%list.
Proof.
  induction t1 as [|e t1 IH]; [reflexivity|].
  destruct e; simpl; rewrite ?IH; reflexivity.
Qed.

Lemma submitted_app t1 t2 : submitted (t1 ++ t2) = (submitted t1 ++ submitted t2)%list.
Proof.
  induction t1 as [|e t1 IH]; [reflexivity|].
  destruct e; simpl; rewrite ?IH; reflexivity.
Qed.

Lemma network_calls_app t1 t2 :
  network_calls (t1 ++ t2) = (network_calls t1 + network_calls t2)%nat.
Proof. unfold network_calls. now rewrite List.filter_app, length_app. Qed.

(** * pdf_downloader.py: what one attempt and the retry loop do *)

Section PdfDownloaderFacts.
Import PdfDownloader.
Variable config : Config.
Variable env : Env.

Lemma write_chunks_run path chunks s written :
  fs s !! path = Some written ->
  write_chunks path chunks s =
  mkRun (Val tt) (set_fs (insert path (written ++ concat chunks)%list) s) [].
Proof.
  revert s written. induction chunks as [|chunk rest IH]; intros s written Hw.
  - simpl. unfold ret. f_equal. destruct s as [f t v]. unfold set_fs. simpl in *.
    f_equal. rewrite app_nil_r. symmetry. now apply insert_id.
  - simpl. destruct chunk as [|b chunk].
    + run_head. rewrite (IH s written Hw). reflexivity.
    + run_head.
      erewrite IH.
      2:{ unfold set_fs; simpl. rewrite lookup_alter_eq, Hw. reflexivity. }
      unfold after. cbn [res st out app]. f_equal.
      destruct s as [f t v]. unfold set_fs. simpl in *. f_equal.
      rewrite <- app_assoc. simpl.
      apply map_eq. intros i. destruct (decide (i = path)) as [->|Hne].
      * now rewrite !lookup_insert_eq.
      * rewrite !lookup_insert_ne by congruence. now rewrite lookup_alter_ne by congruence.
Qed.

Lemma save_stream_run path chunks broken s :
  save_stream path chunks broken s =
  mkRun (match broken with
         | Some msg => Exc (mkExn RequestException msg)
         | None => Val tt
         end) (stored path chunks s) [].
Proof.
  unfold save_stream. run_head.
  assert (Hw : write_chunks path chunks (set_fs (insert path []) s) =
               mkRun (Val tt) (stored path chunks s) []).
  { rewrite (write_chunks_run path chunks _ []).
    - f_equal. unfold stored, set_fs. simpl. f_equal. apply insert_insert_eq.
    - unfold set_fs. simpl. apply lookup_insert_eq. }
  erewrite bind_val by (rewrite Hw; reflexivity).
  rewrite Hw. cbn [res st out]. destruct broken; reflexivity.
Qed.

Lemma _is_pdf_valid_stored path chunks s :
  _is_pdf_valid path (stored path chunks s) =
  mkRun (Val (bool_decide (take 4 (concat chunks) = pdf_magic))) (stored path chunks s) [].
Proof.
  unfold _is_pdf_valid. run_head.
  unfold stored at 1, set_fs at 1. cbn [fs]. rewrite lookup_insert_eq.
  reflexivity.
Qed.

(** One attempt, case by case on what the server answers. *)
Lemma attempt_download_run pdf_link pdf_filename s :
  attempt_download env pdf_link pdf_filename s =
  match requests_get env (tick s) pdf_link with
  | ConnectionFailed msg =>
      mkRun (Exc (mkExn RequestException msg)) (next_tick s) [HttpGet pdf_link]
  | Response status_code chunks broken =>
      if Z.eqb status_code 200 then
        let s' := stored pdf_filename chunks (next_tick s) in
        match broken with
        | Some msg => mkRun (Exc (mkExn RequestException msg)) s' [HttpGet pdf_link]
        | None =>
            if has_pdf_header (concat chunks) then
              mkRun (Val pdf_filename) s'
                [HttpGet pdf_link;
                 LogInfo ("PDF downloaded successfully: " +:+ pdf_filename);
                 LogInfo ("PDF validation successful: " +:+ pdf_filename);
                 CsvRow "all" [pdf_link; "Success"; "PDF downloaded and valid"];
                 CsvRow "good" [pdf_link; "Success"; "PDF downloaded and valid"]]
            else
              mkRun (Exc invalid_format) s'
                [HttpGet pdf_link;
                 LogInfo ("PDF downloaded successfully: " +:+ pdf_filename);
                 LogError ("Invalid PDF file format: " +:+ pdf_filename) FILE_IO;
                 CsvRow "all" [pdf_link; "Failed"; "Invalid PDF format"];
                 CsvRow "bad" [pdf_link; "Failed"; "Invalid PDF format"]]
        end
      else
        mkRun (Exc (mkExn GenericException
                      ("Failed to download PDF. Status code: " +:+ pretty status_code)))
              (next_tick s) [HttpGet pdf_link]
  end.
Proof.
  unfold attempt_download. run_head.
  destruct (requests_get env (tick s) pdf_link) as [msg|status_code chunks broken];
    [reflexivity|].
  destruct (Z.eqb status_code 200); [|reflexivity].
  cbn zeta.
  destruct broken as [msg|].
  - erewrite bind_exc by (rewrite save_stream_run; reflexivity).
    rewrite save_stream_run. reflexivity.
  - erewrite bind_val by (rewrite save_stream_run; reflexivity).
    rewrite save_stream_run. cbn [st res out].
    run_head.
    erewrite bind_val by (rewrite _is_pdf_valid_stored; reflexivity).
    rewrite _is_pdf_valid_stored. cbn [st res out]. unfold has_pdf_header.
    destruct (bool_decide (take 4 (concat chunks) = pdf_magic)); run_heads; reflexivity.
Qed.


End PdfDownloaderFacts.

Section PdfDownloaderLoop.
Import PdfDownloader.
Variable config : Config.
Variable env : Env.

Lemma attempt_failed_run pdf_link attempt e s :
  attempt_failed config pdf_link attempt e s =
  mkRun (Val tt) s (failure_events config pdf_link attempt e).
Proof.
  unfold attempt_failed, failure_events. run_heads.
  destruct (Z.ltb attempt (max_retries config)); run_heads; reflexivity.
Qed.

(** One round of the loop: the [return] of the [try], or the handler and
    the rest of the loop. *)
Lemma download_attempts_cons pdf_link pdf_filename attempt rest s :
  download_attempts config env pdf_link pdf_filename (attempt :: rest) s =
  let r := attempt_download env pdf_link pdf_filename s in
  match res r with
  | Val name => mkRun (Val (Some name)) (st r) (out r)
  | Exc e =>
      after (out r ++ failure_events config pdf_link attempt e)
            (download_attempts config env pdf_link pdf_filename rest (st r))
  end.
Proof.
  cbn [download_attempts]. cbn zeta.
  unfold bind, try_except.
  destruct (attempt_download env pdf_link pdf_filename s) as [[name|e] s1 o1].
  - cbn [res st out]. unfold after, ret. cbn [res st out].
    rewrite ?app_nil_r. reflexivity.
  - cbn [res st out any_exception].
    rewrite attempt_failed_run. unfold after, ret. cbn [res st out].
    rewrite ?app_nil_r, ?app_assoc. reflexivity.
Qed.

Lemma download_attempts_nil pdf_link pdf_filename s :
  download_attempts config env pdf_link pdf_filename [] s =
  mkRun (Val None) s
    [LogError "PDF download failed after maximum retries." NETWORK;
     CsvRow "bad" [pdf_link; "Failed"; "Maximum retries exceeded"]].
Proof. cbn [download_attempts]. run_heads. reflexivity. Qed.

Lemma download_pdf_run pdf_link s :
  download_pdf config env pdf_link s =
  let pdf_filename := _create_pdf_filename config pdf_link in
  if bool_decide (is_Some (fs s !! pdf_filename)) then
    mkRun (Val (Some pdf_filename)) s (skipped_events pdf_link pdf_filename)
  else
    after [LogInfo ("Attempting to download PDF from: " +:+ pdf_link);
           CsvRow "all" [pdf_link; "Attempting"; "Download started"]]
          (download_attempts config env pdf_link pdf_filename
             (seqZ 1 (max_retries config)) s).
Proof.
  unfold download_pdf. cbn zeta. unfold path_exists. run_heads.
  destruct (bool_decide (is_Some (fs s !! _create_pdf_filename config pdf_link))).
  - run_heads. reflexivity.
  - run_heads. rewrite !after_after. reflexivity.
Qed.

End PdfDownloaderLoop.

(** * pdf_downloader.py: what [download_pdf] guarantees *)

Section PdfDownloaderGuarantees.
Import PdfDownloader.
Variable config : Config.
Variable env : Env.

Lemma fs_stored_ne path chunks s p :
  p ≠ path -> fs (stored path chunks s) !! p = fs s !! p.
Proof. intros Hne. unfold stored, set_fs. cbn [fs]. now rewrite lookup_insert_ne by congruence. Qed.

Lemma fs_stored_eq path chunks s :
  fs (stored path chunks s) !! path = Some (concat chunks).
Proof. unfold stored, set_fs. cbn [fs]. apply lookup_insert_eq. Qed.

(** The loop never raises, touches no file but the destination, and when it
    returns a name, the name is the destination and the file there is the
    complete body of an answer with status 200, carrying the signature. *)
Lemma download_attempts_spec pdf_link pdf_filename attempts s :
  let r := download_attempts config env pdf_link pdf_filename attempts s in
  (exists v, res r = Val v) /\
  (forall p, p ≠ pdf_filename -> fs (st r) !! p = fs s !! p) /\
  visited_urls (st r) = visited_urls s /\
  (tick s <= tick (st r))%nat /\
  (forall name, res r = Val (Some name) ->
     name = pdf_filename /\
     exists t chunks,
       (tick s <= t < tick (st r))%nat /\
       requests_get env t pdf_link = Response 200 chunks None /\
       fs (st r) !! pdf_filename = Some (concat chunks) /\
       has_pdf_header (concat chunks) = true).
Proof.
  revert s. induction attempts as [|attempt rest IH]; intros s.
  - rewrite download_attempts_nil. cbn [res st out].
    (split; [|split; [|split; [|split]]]); eauto; try lia; intros; discriminate.
  - rewrite download_attempts_cons, attempt_download_run. cbn zeta.
    destruct (requests_get env (tick s) pdf_link) as [msg|status_code chunks broken] eqn:Hget.
    + cbn [res st out after].
      destruct (IH (next_tick s)) as (Hv & Hfs & Hvis & Htick & Hret).
      cbn [tick next_tick fs visited_urls] in *.
      (split; [|split; [|split; [|split]]]); auto; try lia.
      intros name Hname. destruct (Hret name Hname) as (-> & t & chunks & Ht & Hg & Hf & Hh).
      split; [reflexivity|]. exists t, chunks. split; [lia|]. auto.
    + destruct (Z.eqb_spec status_code 200) as [->|Hne].
      * destruct broken as [msg|]; [|destruct (has_pdf_header (concat chunks)) eqn:Hhdr];
          cbn [res st out after].
        -- destruct (IH (stored pdf_filename chunks (next_tick s)))
             as (Hv & Hfs & Hvis & Htick & Hret).
           cbn [tick next_tick stored set_fs fs visited_urls] in *.
           (split; [|split; [|split; [|split]]]); auto; try lia.
           ++ intros p Hp. rewrite (Hfs p Hp). now rewrite lookup_insert_ne by congruence.
           ++ intros name Hname.
              destruct (Hret name Hname) as (-> & t & chunks' & Ht & Hg & Hf & Hh).
              split; [reflexivity|]. exists t, chunks'. split; [lia|]. auto.
        -- (split; [|split; [|split; [|split]]]); eauto.
           ++ intros p Hp. now rewrite fs_stored_ne.
           ++ cbn [stored set_fs tick next_tick]. lia.
           ++ intros name Hname. split; [congruence|].
              exists (tick s), chunks. cbn [stored set_fs tick next_tick fs].
              split; [lia|]. split; [exact Hget|]. split; [apply lookup_insert_eq|].
              first [exact Hhdr | reflexivity].
        -- destruct (IH (stored pdf_filename chunks (next_tick s)))
             as (Hv & Hfs & Hvis & Htick & Hret).
           cbn [tick next_tick stored set_fs fs visited_urls] in *.
           (split; [|split; [|split; [|split]]]); auto; try lia.
           ++ intros p Hp. rewrite (Hfs p Hp). now rewrite lookup_insert_ne by congruence.
           ++ intros name Hname.
              destruct (Hret name Hname) as (-> & t & chunks' & Ht & Hg & Hf & Hh).
              split; [reflexivity|]. exists t, chunks'. split; [lia|]. auto.
      * cbn [res st out after].
        destruct (IH (next_tick s)) as (Hv & Hfs & Hvis & Htick & Hret).
        cbn [tick next_tick fs visited_urls] in *.
        (split; [|split; [|split; [|split]]]); auto; try lia.
        intros name Hname. destruct (Hret name Hname) as (-> & t & chunks' & Ht & Hg & Hf & Hh).
        split; [reflexivity|]. exists t, chunks'. split; [lia|]. auto.
Qed.

Lemma download_pdf_returns_file pdf_link s name :
  res (download_pdf config env pdf_link s) = Val (Some name) ->
  name = _create_pdf_filename config pdf_link /\
  is_Some (fs (st (download_pdf config env pdf_link s)) !! name).
Proof.
  rewrite download_pdf_run. cbn zeta.
  destruct (bool_decide (is_Some (fs s !! _create_pdf_filename config pdf_link))) eqn:Hex.
  - cbn [res st]. intros [= <-]. split; [reflexivity|].
    now apply bool_decide_eq_true in Hex.
  - cbn [after res st]. intros Hname.
    destruct (download_attempts_spec pdf_link (_create_pdf_filename config pdf_link)
                (seqZ 1 (max_retries config)) s) as (_ & _ & _ & _ & Hret).
    destruct (Hret name Hname) as (-> & t & chunks & _ & _ & Hf & _).
    split; [reflexivity|]. rewrite Hf. eauto.
Qed.

(** C4: when the destination computed for the link already exists,
    [download_pdf] returns it at once: the only events are the log line and
    the "Skipped" row, the state (and with it the tick of the outside
    world) is untouched, so no network call is made.  In particular a
    second call that follows a call that returned a file name is such a
    run. *)
Theorem download_pdf_skips_existing pdf_link s :
  let dest := _create_pdf_filename config pdf_link in
  (is_Some (fs s !! dest) ->
   download_pdf config env pdf_link s = mkRun (Val (Some dest)) s (skipped_events pdf_link dest)
   /\ network_calls (out (download_pdf config env pdf_link s)) = 0%nat)
  /\
  (forall name,
     res (download_pdf config env pdf_link s) = Val (Some name) ->
     let s1 := st (download_pdf config env pdf_link s) in
     download_pdf config env pdf_link s1 = mkRun (Val (Some name)) s1 (skipped_events pdf_link name)
     /\ network_calls (out (download_pdf config env pdf_link s1)) = 0%nat).
Proof.
  cbn zeta.
  assert (Hskip : forall s', is_Some (fs s' !! _create_pdf_filename config pdf_link) ->
            download_pdf config env pdf_link s' =
            mkRun (Val (Some (_create_pdf_filename config pdf_link))) s'
                  (skipped_events pdf_link (_create_pdf_filename config pdf_link))).
  { intros s' Hs'. rewrite download_pdf_run. cbn zeta.
    now rewrite bool_decide_eq_true_2 by exact Hs'. }
  split.
  - intros Hex. rewrite (Hskip s Hex). split; reflexivity.
  - intros name Hname.
    destruct (download_pdf_returns_file pdf_link s name Hname) as [-> Hex].
    rewrite (Hskip _ Hex). split; reflexivity.
Qed.

(** C1, as the code has it: [download_pdf] works on the destination path
    itself.  Of the files that the state holds, which are all but the log
    and the CSV files that the logging manager appends to (what is written
    to those is in the trace), no other path is created or changed: there
    is no temporary file and no rename.  And when a call that found
    nothing at the destination and went on to fetch returns a name, the
    name is the destination and the file there is the complete body of an
    answer with status 200 whose first four bytes are the signature. *)
Theorem download_pdf_writes_destination_only pdf_link s :
  let dest := _create_pdf_filename config pdf_link in
  let r := download_pdf config env pdf_link s in
  (forall p, p ≠ dest -> fs (st r) !! p = fs s !! p) /\
  (attempted pdf_link (out r) ->
   forall name, res r = Val (Some name) ->
     name = dest /\
     exists t chunks,
       requests_get env t pdf_link = Response 200 chunks None /\
       fs (st r) !! dest = Some (concat chunks) /\
       take 4 (concat chunks) = pdf_magic).
Proof.
  cbn zeta. rewrite download_pdf_run. cbn zeta.
  destruct (download_attempts_spec pdf_link (_create_pdf_filename config pdf_link)
              (seqZ 1 (max_retries config)) s) as (_ & Hfs & _ & _ & Hret).
  destruct (bool_decide (is_Some (fs s !! _create_pdf_filename config pdf_link))) eqn:Hex.
  - cbn [res st out]. split; [reflexivity|].
    intros Hattempted. unfold attempted, skipped_events in Hattempted.
    cbn [hd_error] in Hattempted. discriminate Hattempted.
  - cbn [after res st]. split; [exact Hfs|].
    intros _ name Hname.
    destruct (Hret name Hname) as (-> & t & chunks & _ & Hg & Hf & Hh).
    split; [reflexivity|]. exists t, chunks.
    split; [exact Hg|]. split; [exact Hf|].
    now apply bool_decide_eq_true in Hh.
Qed.

End PdfDownloaderGuarantees.

Lemma download_pdf_skips_existing_witness :
  let env := serving (Response 200 [pdf_body] None) in
  let s1 := st (PdfDownloader.download_pdf default_config env a_pdf_url empty_state) in
  is_Some (fs s1 !! a_pdf_path) /\
  PdfDownloader.download_pdf default_config env a_pdf_url s1
  = mkRun (Val (Some a_pdf_path)) s1 (skipped_events a_pdf_url a_pdf_path) /\
  network_calls (out (PdfDownloader.download_pdf default_config env a_pdf_url s1)) = 0%nat.
Proof.
  cbn zeta.
  assert (Hex : is_Some (fs (st (PdfDownloader.download_pdf default_config
                                   (serving (Response 200 [pdf_body] None))
                                   a_pdf_url empty_state)) !! a_pdf_path)).
  { vm_compute. eexists. reflexivity. }
  split; [exact Hex|].
  destruct (download_pdf_skips_existing default_config
              (serving (Response 200 [pdf_body] None)) a_pdf_url empty_state) as [_ H2].
  destruct (H2 a_pdf_path) as [Hrun _]; [vm_compute; reflexivity|].
  destruct (download_pdf_skips_existing default_config
              (serving (Response 200 [pdf_body] None)) a_pdf_url
              (st (PdfDownloader.download_pdf default_config
                     (serving (Response 200 [pdf_body] None)) a_pdf_url empty_state)))
    as [H1 _].
  destruct (H1 Hex) as [_ Hcalls].
  split; [exact Hrun | exact Hcalls].
Defined.

Lemma download_pdf_writes_destination_only_witness :
  fs (st (PdfDownloader.download_pdf default_config
            (serving (Response 200 [pdf_body] None)) a_pdf_url empty_state))
    !! a_pdf_path = Some pdf_body.
Proof.
  destruct (download_pdf_writes_destination_only default_config
              (serving (Response 200 [pdf_body] None)) a_pdf_url empty_state) as [_ H].
  destruct (H eq_refl a_pdf_path) as (_ & t & chunks & Hg & Hf & _).
  - vm_compute. reflexivity.
  - cbn [serving requests_get] in Hg. injection Hg as <-.
    exact Hf.
Defined.

(** C1, as the claim states it, fails: a stream that breaks off after its
    first chunk leaves that chunk at the final destination, and it is still
    there when [download_pdf] gives up. *)
Lemma download_pdf_leaves_partial_download :
  let broken_stream :=
    Response 200 [list_byte_of_string "%PDF-1.7 first chunk"] (Some "Connection broken") in
  let r := PdfDownloader.download_pdf default_config (serving broken_stream)
             a_pdf_url empty_state in
  fs empty_state !! a_pdf_path = None /\
  res r = Val None /\
  fs (st r) !! a_pdf_path = Some (list_byte_of_string "%PDF-1.7 first chunk").
Proof. vm_compute. repeat split. Qed.

(** C2, the code at the failing input: the server answers 200 with an HTML
    page.  No outcome of its own is returned and the page stays on disk at
    the destination: [download_pdf] returns [None], as for a network
    failure, and a later call takes the page left behind for a finished
    download. *)
Theorem download_pdf_keeps_invalid_file :
  let env := serving (Response 200 [html_body] None) in
  let r := PdfDownloader.download_pdf default_config env a_pdf_url empty_state in
  has_pdf_header html_body = false /\
  res r = Val None /\
  fs (st r) !! a_pdf_path = Some html_body /\
  PdfDownloader.download_pdf default_config env a_pdf_url (st r)
  = mkRun (Val (Some a_pdf_path)) (st r) (skipped_events a_pdf_url a_pdf_path).
Proof. vm_compute. repeat split. Qed.

(** C3, the code at the failing input: after the signature check failed,
    the exception raised for it is caught by the handler of the loop, which
    waits and fetches again until the attempts are used up: three GETs and
    two waits for [max_retries = 3]. *)
Theorem download_pdf_refetches_after_invalid_format :
  let env := serving (Response 200 [html_body] None) in
  let r := PdfDownloader.download_pdf default_config env a_pdf_url empty_state in
  has_pdf_header html_body = false /\
  network_calls (out r) = 3%nat /\
  sleeps (out r) = [5; 5] /\
  List.filter is_get (out r) = [HttpGet a_pdf_url; HttpGet a_pdf_url; HttpGet a_pdf_url].
Proof. vm_compute. repeat split. Qed.

(** * The waits between attempts *)

Section RetryWaits.
Import SeleniumHandler.
Context {A : Type}.
Variables (max_tries delay backoff : Z).
Variable exceptions : Exn -> bool.
Variable func : M A.
Hypothesis func_does_not_sleep : forall s, sleeps (out (func s)) = [].

Lemma retry_loop_sleeps n tries s :
  n = Z.to_nat (max_tries - tries) ->
  exists k : nat,
    Z.of_nat k < Z.max 1 (max_tries - tries) /\
    sleeps (out (retry_loop max_tries delay backoff exceptions func n tries s))
    = spec_delay delay backoff <$> seqZ (tries + 1) (Z.of_nat k).
Proof.
  revert tries s. induction n as [|n IH]; intros tries s Hn.
  - exists 0%nat. split; [lia|]. reflexivity.
  - cbn [retry_loop]. unfold try_except, bind.
    pose proof (func_does_not_sleep s) as Hf.
    destruct (func s) as [[a|e] s1 o1]; cbn [res st out] in *.
    + exists 0%nat. split; [lia|]. unfold after, ret. cbn [res st out].
      rewrite app_nil_r, Hf. reflexivity.
    + destruct (exceptions e).
      2:{ exists 0%nat. split; [lia|]. cbn [out]. rewrite Hf. reflexivity. }
      cbn zeta. destruct (Z.eqb_spec (tries + 1) max_tries) as [Heq|Hne].
      * exists 0%nat. split; [lia|]. unfold after, raise. cbn [res st out].
        rewrite app_nil_r, Hf. reflexivity.
      * destruct (IH (tries + 1) s1) as (k & Hk & Hs); [lia|].
        exists (S k). split; [lia|].
        unfold after, sleep, emit. cbn [res st out].
        rewrite sleeps_app, Hf. cbn [app sleeps].
        rewrite Hs. rewrite (seqZ_cons (tries + 1)) by lia.
        cbn [fmap list_fmap]. unfold spec_delay at 2.
        repeat f_equal; lia.
Qed.

Lemma fails_first_next n s e :
  res (func s) = Exc e ->
  fails_first exceptions func (S n) s ->
  fails_first exceptions func n (st (func s)).
Proof.
  intros _ Hfails i Hi. destruct (Hfails (S i)) as (e' & He' & Hc); [lia|].
  exists e'. split; [|exact Hc].
  unfold state_after_tries in *. now rewrite Nat.iter_succ_r in He'.
Qed.

(** After each of the first failed tries the wrapper waits what the formula
    gives for that try. *)
Lemma retry_loop_first_waits iterations tries s (n : nat) :
  iterations = Z.to_nat (max_tries - tries) ->
  tries + Z.of_nat n < max_tries ->
  fails_first exceptions func n s ->
  take n (sleeps (out (retry_loop max_tries delay backoff exceptions func iterations tries s)))
  = spec_delay delay backoff <$> seqZ (tries + 1) (Z.of_nat n).
Proof.
  revert iterations tries s. induction n as [|n IH]; intros iterations tries s Hit Hlt Hfails.
  - reflexivity.
  - destruct iterations as [|iterations]; [lia|].
    cbn [retry_loop]. unfold try_except, bind.
    pose proof (func_does_not_sleep s) as Hf.
    destruct (Hfails 0%nat) as (e & He & Hc); [lia|].
    change (state_after_tries func 0 s) with s in He.
    pose proof (fails_first_next n s e He Hfails) as Hnext.
    destruct (func s) as [[a|e'] s1 o1]; cbn [res st out] in *; [discriminate He|].
    injection He as ->. rewrite Hc. cbn zeta.
    destruct (Z.eqb_spec (tries + 1) max_tries) as [Heq|Hne]; [lia|].
    unfold after, sleep, emit. cbn [res st out].
    rewrite sleeps_app, Hf. cbn [app sleeps take].
    rewrite (IH iterations (tries + 1) s1) by (lia || exact Hnext).
    rewrite (seqZ_cons (tries + 1)) by lia.
    cbn [fmap list_fmap]. unfold spec_delay at 2.
    repeat f_equal; lia.
Qed.

End RetryWaits.

Section DownloadWaits.
Import PdfDownloader.
Variable config : Config.
Variable env : Env.

Lemma attempt_download_events pdf_link pdf_filename s :
  sleeps (out (attempt_download env pdf_link pdf_filename s)) = [] /\
  network_calls (out (attempt_download env pdf_link pdf_filename s)) = 1%nat.
Proof.
  rewrite attempt_download_run.
  destruct (requests_get env (tick s) pdf_link) as [msg|status_code chunks broken];
    [split; reflexivity|].
  destruct (Z.eqb status_code 200); [|split; reflexivity].
  cbn zeta. destruct broken; [split; reflexivity|].
  destruct (has_pdf_header (concat chunks)); split; reflexivity.
Qed.

Lemma failure_events_sleeps pdf_link attempt e :
  sleeps (failure_events config pdf_link attempt e)
  = (if Z.ltb attempt (max_retries config) then [retry_delay config] else []) /\
  network_calls (failure_events config pdf_link attempt e) = 0%nat.
Proof.
  unfold failure_events. destruct (Z.ltb attempt (max_retries config)); split; reflexivity.
Qed.

(** The attempts that remain are the last [n] of [1..max_retries]. *)
Lemma download_attempts_waits pdf_link pdf_filename (n : nat) s :
  let r := download_attempts config env pdf_link pdf_filename
             (seqZ (max_retries config - Z.of_nat n + 1) (Z.of_nat n)) s in
  sleeps (out r) = replicate (network_calls (out r) - 1) (retry_delay config) /\
  ((0 < n)%nat -> (0 < network_calls (out r))%nat).
Proof.
  revert s. induction n as [|n IH]; intros s; cbn zeta.
  - rewrite seqZ_nil by lia. rewrite download_attempts_nil. split; [reflexivity|lia].
  - rewrite seqZ_cons by lia.
    replace (Z.succ (max_retries config - Z.of_nat (S n) + 1))
      with (max_retries config - Z.of_nat n + 1) by lia.
    replace (Z.pred (Z.of_nat (S n))) with (Z.of_nat n) by lia.
    rewrite download_attempts_cons. cbn zeta.
    destruct (attempt_download_events pdf_link pdf_filename s) as [Hs1 Hc1].
    destruct (res (attempt_download env pdf_link pdf_filename s)) as [name|e].
    + cbn [out]. rewrite Hs1, Hc1. split; [reflexivity|lia].
    + destruct (IH (st (attempt_download env pdf_link pdf_filename s))) as [Hs Hc].
      cbn zeta in Hs, Hc.
      destruct (failure_events_sleeps pdf_link (max_retries config - Z.of_nat (S n) + 1) e)
        as [Hfs Hfc].
      unfold after. cbn [out].
      rewrite !sleeps_app, !network_calls_app, Hs1, Hc1, Hfs, Hfc, Hs.
      split; [|lia].
      destruct (Z.ltb_spec (max_retries config - Z.of_nat (S n) + 1) (max_retries config))
        as [Hlt|Hge].
      * assert (0 < n)%nat as Hn by lia. specialize (Hc Hn).
        cbn [app].
        replace (1 + 0 + network_calls
                   (out (download_attempts config env pdf_link pdf_filename
                           (seqZ (max_retries config - Z.of_nat n + 1) (Z.of_nat n))
                           (st (attempt_download env pdf_link pdf_filename s)))) - 1)%nat
          with (S (network_calls
                   (out (download_attempts config env pdf_link pdf_filename
                           (seqZ (max_retries config - Z.of_nat n + 1) (Z.of_nat n))
                           (st (attempt_download env pdf_link pdf_filename s)))) - 1))
          by lia.
        reflexivity.
      * assert (n = 0%nat) as -> by lia.
        rewrite seqZ_nil by lia. rewrite download_attempts_nil. reflexivity.
Qed.

End DownloadWaits.

(** C8, as the code has it, for delays that [time.sleep] accepts.  The
    wrapper of the [retry] decorator waits [delay * backoff^(n-1)] after
    the n-th failed try: when the first [n] tries fail, with [n] below
    [max_tries], its first [n] waits are those of the formula for the
    attempts 1 to [n]; and it never waits for anything else, nor
    [max_tries] times or more.  [download_pdf] waits the constant
    [retry_delay] before every attempt after the first, whatever its
    number. *)
Theorem retry_waits_grow_download_waits_do_not
    {A : Type} (max_tries delay backoff : Z) (exceptions : Exn -> bool) (func : M A)
    (config : Config) (env : Env) (pdf_link : string) (s : State) :
  (forall s', sleeps (out (func s')) = []) ->
  (forall n, 1 <= n < max_tries -> accepted_by_sleep (spec_delay delay backoff n)) ->
  accepted_by_sleep (retry_delay config) ->
  let waits :=
    sleeps (out (SeleniumHandler.retry max_tries delay backoff exceptions func s)) in
  (forall n : nat,
     Z.of_nat n < max_tries -> fails_first exceptions func n s ->
     take n waits = spec_delay delay backoff <$> seqZ 1 (Z.of_nat n))
  /\
  (exists k : nat,
     Z.of_nat k < Z.max 1 max_tries /\
     waits = spec_delay delay backoff <$> seqZ 1 (Z.of_nat k))
  /\
  (let r := PdfDownloader.download_pdf config env pdf_link s in
   sleeps (out r) = replicate (network_calls (out r) - 1) (retry_delay config)).
Proof.
  intros Hfunc _ _. cbn zeta. split; [|split].
  - intros n Hn Hfails. unfold SeleniumHandler.retry.
    replace (seqZ 1 (Z.of_nat n)) with (seqZ (0 + 1) (Z.of_nat n)) by reflexivity.
    apply (retry_loop_first_waits max_tries delay backoff exceptions func Hfunc);
      [f_equal; lia|lia|exact Hfails].
  - unfold SeleniumHandler.retry.
    destruct (retry_loop_sleeps max_tries delay backoff exceptions func Hfunc
                (Z.to_nat max_tries) 0 s) as (k & Hk & Hs).
    + f_equal. lia.
    + exists k. split; [lia|]. exact Hs.
  - rewrite download_pdf_run. cbn zeta.
    destruct (bool_decide _); [reflexivity|].
    unfold after. cbn [out app sleeps network_calls List.filter is_get].
    fold (network_calls (out (PdfDownloader.download_attempts config env pdf_link
            (PdfDownloader._create_pdf_filename config pdf_link)
            (seqZ 1 (max_retries config)) s))).
    destruct (Z.le_gt_cases 0 (max_retries config)) as [Hpos|Hneg].
    + pose proof (download_attempts_waits config env pdf_link
                    (PdfDownloader._create_pdf_filename config pdf_link)
                    (Z.to_nat (max_retries config)) s) as [Hw _].
      cbn zeta in Hw.
      replace (max_retries config - Z.of_nat (Z.to_nat (max_retries config)) + 1) with 1 in Hw
        by lia.
      rewrite Z2Nat.id in Hw by lia. exact Hw.
    + rewrite seqZ_nil by lia. rewrite download_attempts_nil. reflexivity.
Qed.

Lemma retry_waits_grow_download_waits_do_not_witness :
  take 2 (sleeps (out (SeleniumHandler.click_element intercepting "submit" empty_state)))
  = [1; 2]
  /\
  (let r := PdfDownloader.download_pdf default_config offline a_pdf_url empty_state in
   sleeps (out r) = replicate (network_calls (out r) - 1) 5).
Proof.
  destruct (retry_waits_grow_download_waits_do_not 3 1 2
              (SeleniumHandler.is_class ElementClickInterceptedException)
              (SeleniumHandler.click_element_once intercepting "submit")
              default_config offline a_pdf_url empty_state)
    as (Hfirst & _ & Hdownload).
  - intros s'. reflexivity.
  - intros n Hn. unfold accepted_by_sleep, spec_delay.
    assert (Hcases : n = 1 \/ n = 2) by lia.
    destruct Hcases as [-> | ->]; cbn; lia.
  - unfold accepted_by_sleep. cbn. lia.
  - split; [|exact Hdownload].
    apply (Hfirst 2%nat); [lia|].
    intros i Hi.
    exists (mkExn ElementClickInterceptedException "element click intercepted").
    destruct i as [|[|i]]; [split; reflexivity|split; reflexivity|lia].
Defined.

(** C8, as the claim states it, fails for the download path: with the
    settings of config.py and a server that never answers, the two waits
    are 5 and 5 seconds, where the formula with the backoff 2 of the
    decorator asks for 5 and 10; the formula fits the waits only for the
    backoff 1. *)
Lemma download_pdf_waits_are_constant :
  let r := PdfDownloader.download_pdf default_config offline a_pdf_url empty_state in
  sleeps (out r) = [5; 5] /\
  spec_delay (retry_delay default_config) 2 <$> seqZ 1 2 = [5; 10] /\
  sleeps (out r) ≠ spec_delay (retry_delay default_config) 2 <$> seqZ 1 2 /\
  (forall backoff,
     sleeps (out r) = spec_delay (retry_delay default_config) backoff <$> seqZ 1 2 ->
     backoff = 1).
Proof.
  cbn zeta.
  assert (Hs : sleeps (out (PdfDownloader.download_pdf default_config offline
                              a_pdf_url empty_state)) = [5; 5])
    by (vm_compute; reflexivity).
  rewrite Hs. split; [reflexivity|]. split; [reflexivity|]. split; [discriminate|].
  intros backoff Hb.
  change (spec_delay (retry_delay default_config) backoff <$> seqZ 1 2)
    with [5 * backoff ^ 0; 5 * backoff ^ 1] in Hb.
  injection Hb as Hb. rewrite Z.pow_1_r in Hb. lia.
Qed.

(** * captcha_handler.py: the recursion of [solve_captcha] *)

Section SolveCaptchaRecursion.
Import CaptchaHandler.
Variable config : Config.
Variable env : Env.

(** With one try or fewer left, no block calls [solve_captcha] again. *)
Lemma solve_captcha_body_last recurse1 recurse2 tries_remaining :
  tries_remaining <= 1 ->
  solve_captcha_body config env recurse1 tries_remaining
  = solve_captcha_body config env recurse2 tries_remaining.
Proof.
  intros Hle. unfold solve_captcha_body, obtain_solution, submit_solution.
  replace (Z.ltb 0 (tries_remaining - 1)) with false by (symmetry; apply Z.ltb_ge; lia).
  replace (Z.ltb 1 tries_remaining) with false by (symmetry; apply Z.ltb_ge; lia).
  reflexivity.
Qed.

(** The equation of the Python definition: [solve_captcha] is its body with
    the recursive call being [solve_captcha] itself. *)
Lemma solve_captcha_unfold tries_remaining :
  solve_captcha config env tries_remaining
  = solve_captcha_body config env (solve_captcha config env (tries_remaining - 1))
      tries_remaining.
Proof.
  unfold solve_captcha at 1.
  destruct (Z.le_gt_cases tries_remaining 1) as [Hle|Hgt].
  - replace (Z.to_nat (tries_remaining - 1)) with 0%nat by lia.
    cbn [solve_captcha_depth]. now apply solve_captcha_body_last.
  - replace (Z.to_nat (tries_remaining - 1))
      with (S (Z.to_nat (tries_remaining - 1 - 1))) by lia.
    cbn [solve_captcha_depth]. reflexivity.
Qed.

End SolveCaptchaRecursion.

(** * Which events a computation can emit *)

Section Emits.
Variable P : Event -> Prop.

Lemma emits_ret {A} (a : A) : emits P (ret a).
Proof. intros s. constructor. Qed.

Lemma emits_raise {A} e : emits P (@raise A e).
Proof. intros s. constructor. Qed.

Lemma emits_get_state : emits P get_state.
Proof. intros s. constructor. Qed.

Lemma emits_modify_fs f : emits P (modify_fs f).
Proof. intros s. constructor. Qed.

Lemma emits_path_exists path : emits P (path_exists path).
Proof. intros s. constructor. Qed.

Lemma emits_emit e : P e -> emits P (emit e).
Proof. intros He s. cbn. now constructor. Qed.

Lemma emits_ask {A} (answer : nat -> A) e : P e -> emits P (ask answer e).
Proof. intros He s. cbn. now constructor. Qed.

Lemma emits_bind {A B} (m : M A) (k : A -> M B) :
  emits P m -> (forall a, emits P (k a)) -> emits P (bind m k).
Proof.
  intros Hm Hk s. unfold bind. specialize (Hm s).
  destruct (m s) as [[a|e] s1 o1]; cbn [res st out after] in *; [|exact Hm].
  apply Forall_app. split; [exact Hm | apply Hk].
Qed.

Lemma emits_try_except {A} (m : M A) catches handler :
  emits P m -> (forall e, emits P (handler e)) -> emits P (try_except m catches handler).
Proof.
  intros Hm Hh s. unfold try_except. specialize (Hm s).
  destruct (m s) as [[a|e] s1 o1]; cbn [res st out after] in *; [exact Hm|].
  destruct (catches e); [|exact Hm].
  cbn [after out]. apply Forall_app. split; [exact Hm | apply Hh].
Qed.

Lemma emits_try_finally {A} (m : M A) cleanup :
  emits P m -> emits P cleanup -> emits P (try_finally m cleanup).
Proof.
  intros Hm Hc s. unfold try_finally. cbn zeta.
  specialize (Hm s). specialize (Hc (st (m s))).
  destruct (res (cleanup (st (m s)))); cbn [out]; apply Forall_app; now split.
Qed.

Lemma emits_retry_loop {A} max_tries delay backoff exceptions (func : M A) n tries :
  (forall d, P (Sleep d)) -> emits P func ->
  emits P (SeleniumHandler.retry_loop max_tries delay backoff exceptions func n tries).
Proof.
  intros Hs Hf. revert tries. induction n as [|n IH]; intros tries.
  - apply emits_ret.
  - cbn [SeleniumHandler.retry_loop]. apply emits_try_except.
    + apply emits_bind; [exact Hf|]. intros a. apply emits_ret.
    + intros e. cbn zeta. destruct (Z.eqb (tries + 1) max_tries).
      * apply emits_raise.
      * apply emits_bind; [apply emits_emit, Hs|]. intros _. apply IH.
Qed.

End Emits.

(** One step of a proof that a computation emits only some events. *)
Ltac emits_step :=
  lazymatch goal with
  | |- emits _ (ret _) => apply emits_ret
  | |- emits _ (raise _) => apply emits_raise
  | |- emits _ get_state => apply emits_get_state
  | |- emits _ (modify_fs _) => apply emits_modify_fs
  | |- emits _ (path_exists _) => apply emits_path_exists
  | |- emits _ (emit _) => apply emits_emit; reflexivity
  | |- emits _ (log_info _) => apply emits_emit; reflexivity
  | |- emits _ (log_warning _) => apply emits_emit; reflexivity
  | |- emits _ (log_error _ _) => apply emits_emit; reflexivity
  | |- emits _ (log_to_csv _ _) => apply emits_emit; reflexivity
  | |- emits _ (sleep _) => apply emits_emit; reflexivity
  | |- emits _ (ask _ _) => apply emits_ask; reflexivity
  | |- emits _ (bind _ _) => apply emits_bind; [|intros ?]
  | |- emits _ (try_except _ _ _) => apply emits_try_except; [|intros ?]
  | |- emits _ (try_finally _ _) => apply emits_try_finally
  | |- emits _ (match ?x with _ => _ end) => destruct x
  end.

Section CaptchaEvents.
Import SeleniumHandler CaptchaHandler.
Variable config : Config.
Variable env : Env.

Lemma wait_for_element_not_ai locator :
  emits not_ai_event (wait_for_element config env locator).
Proof. unfold wait_for_element. repeat emits_step. Qed.

Lemma fetch_captcha_file_not_ai : emits not_ai_event (fetch_captcha_file config env).
Proof.
  unfold fetch_captcha_file.
  repeat first [apply wait_for_element_not_ai | emits_step].
Qed.

Lemma solve_captcha_manually_not_ai : emits not_ai_event (solve_captcha_manually env).
Proof. unfold solve_captcha_manually. repeat emits_step. Qed.

Lemma click_element_not_ai locator : emits not_ai_event (click_element env locator).
Proof.
  unfold click_element, retry. apply emits_retry_loop; [reflexivity|].
  unfold click_element_once. repeat emits_step.
Qed.

Lemma submit_form_not_ai locator : emits not_ai_event (submit_form config env locator).
Proof.
  unfold submit_form, wait_for_page_load.
  repeat first [apply click_element_not_ai | emits_step].
Qed.

Lemma enter_captcha_solution_not_ai solution :
  emits not_ai_event (enter_captcha_solution config env solution).
Proof.
  unfold enter_captcha_solution, fill_input_field, driver_page_source.
  repeat first [apply submit_form_not_ai | emits_step].
Qed.

Lemma clean_up_captcha_file_not_ai : emits not_ai_event (clean_up_captcha_file config).
Proof. unfold clean_up_captcha_file. repeat emits_step. Qed.

End CaptchaEvents.

(** * captcha_handler.py: which strategy [solve_captcha] takes *)

Lemma out_try_finally {A} (m : M A) cleanup s :
  out (try_finally m cleanup s) = (out (m s) ++ out (cleanup (st (m s))))%list.
Proof. unfold try_finally. cbn zeta. now destruct (res (cleanup (st (m s)))). Qed.

Lemma out_bind_val {A B} (m : M A) (k : A -> M B) s a :
  res (m s) = Val a ->
  out (bind m k s) = (out (m s) ++ out (k a (st (m s))))%list.
Proof. intros H. now rewrite (bind_val _ _ _ _ H). Qed.

Section SolveCaptchaStrategy.
Import SeleniumHandler CaptchaHandler.
Variable config : Config.
Variable env : Env.

Lemma solve_captcha_manually_run s :
  solve_captcha_manually env s =
  mkRun (Val (strip (stdin env (tick s)))) (next_tick s)
    [LogInfo "Waiting for manual CAPTCHA solving..."; Input manual_prompt].
Proof. unfold solve_captcha_manually. run_heads. reflexivity. Qed.

Lemma obtain_solution_last_try recurse s :
  obtain_solution config env recurse 1 s =
  mkRun (Val (inr (strip (stdin env (tick s))))) (next_tick s)
    [manual_branch_line; LogInfo "Waiting for manual CAPTCHA solving...";
     Input manual_prompt].
Proof.
  unfold obtain_solution. change (Z.eqb 1 1) with true. cbn iota. run_head.
  erewrite bind_val by (rewrite solve_captcha_manually_run; reflexivity).
  rewrite solve_captcha_manually_run. reflexivity.
Qed.

Lemma solve_captcha_last_try_not_ai : emits not_ai_event (solve_captcha config env 1).
Proof.
  unfold solve_captcha. change (Z.to_nat (1 - 1)) with 0%nat. cbn [solve_captcha_depth].
  unfold solve_captcha_body, obtain_solution, submit_solution.
  change (Z.eqb 1 1) with true. change (Z.ltb 1 1) with false. cbn iota.
  repeat first [apply fetch_captcha_file_not_ai
               | apply solve_captcha_manually_not_ai
               | apply enter_captcha_solution_not_ai
               | apply clean_up_captcha_file_not_ai
               | emits_step].
Qed.

(** C5: with one try left, [solve_captcha] takes the manual strategy and
    never the solving service.  No event of its run belongs to the service
    strategy (neither the log line of that branch, nor those of
    [solve_captcha_with_ai], nor a request to the service); the run is the
    same whatever the settings of the service and whatever the service
    would answer; and once the image is fetched, the run announces the
    manual strategy and asks the operator. *)
Theorem solve_captcha_last_try_is_manual s :
  let r := solve_captcha config env 1 s in
  Forall not_ai_event (out r) /\
  (forall url api_key service,
     solve_captcha (with_ai_settings config url api_key)
                   (with_requests_post env service) 1 s = r) /\
  (res (fetch_captcha_file config env s) = Val tt ->
   exists before rest,
     out r = (before ++ [manual_branch_line;
                         LogInfo "Waiting for manual CAPTCHA solving...";
                         Input manual_prompt] ++ rest)%list).
Proof.
  cbn zeta. split; [apply solve_captcha_last_try_not_ai|]. split.
  - intros url api_key service.
    unfold solve_captcha. change (Z.to_nat (1 - 1)) with 0%nat. cbn [solve_captcha_depth].
    unfold solve_captcha_body, obtain_solution, submit_solution.
    change (Z.eqb 1 1) with true. change (Z.ltb 1 1) with false. cbn iota.
    unfold fetch_captcha_file, enter_captcha_solution, clean_up_captcha_file,
      solve_captcha_manually, captcha_image_path, submit_form, fill_input_field,
      wait_for_element, wait_for_page_load, driver_page_source, click_element,
      click_element_once.
    reflexivity.
  - intros Hfetch. rewrite solve_captcha_unfold. unfold solve_captcha_body.
    rewrite out_try_finally.
    rewrite (out_bind_val _ _ _ tt Hfetch).
    erewrite out_bind_val by (rewrite obtain_solution_last_try; reflexivity).
    rewrite obtain_solution_last_try. cbn [out st res].
    match goal with
    | |- exists _ _, ((?before ++ ?line ++ ?rest1) ++ ?rest2)%list = _ =>
        exists before, (rest1 ++ rest2)%list
    end.
    rewrite <- !app_assoc. reflexivity.
Qed.

End SolveCaptchaStrategy.

Lemma solve_captcha_last_try_is_manual_witness :
  let r := CaptchaHandler.solve_captcha default_config (captcha_world "X7K2 " "Results") 1
             empty_state in
  res r = Val true /\
  exists before rest,
    out r = (before ++ [manual_branch_line;
                        LogInfo "Waiting for manual CAPTCHA solving...";
                        Input CaptchaHandler.manual_prompt] ++ rest)%list.
Proof.
  cbn zeta. split; [vm_compute; reflexivity|].
  destruct (solve_captcha_last_try_is_manual default_config
              (captcha_world "X7K2 " "Results") empty_state) as (_ & _ & H).
  apply H. vm_compute. reflexivity.
Defined.

(** * How a run begins *)

Lemma prefix_bind {A B} (m : M A) (k : A -> M B) s :
  out (m s) `prefix_of` out (bind m k s).
Proof.
  unfold bind. destruct (m s) as [[a|e] s1 o1]; cbn [res st out after].
  - now exists (out (k a s1)).
  - reflexivity.
Qed.

Lemma prefix_try_except {A} (m : M A) catches handler s :
  out (m s) `prefix_of` out (try_except m catches handler s).
Proof.
  unfold try_except. destruct (m s) as [[a|e] s1 o1]; cbn [res st out after].
  - reflexivity.
  - destruct (catches e); cbn [after out]; [|reflexivity].
    now exists (out (handler e s1)).
Qed.

Lemma prefix_try_finally {A} (m : M A) cleanup s :
  out (m s) `prefix_of` out (try_finally m cleanup s).
Proof. rewrite out_try_finally. now exists (out (cleanup (st (m s)))). Qed.

Lemma prefix_bind_val {A B} (m : M A) (k : A -> M B) s a :
  res (m s) = Val a ->
  (out (m s) ++ out (k a (st (m s))))%list `prefix_of` out (bind m k s).
Proof. intros H. now rewrite (out_bind_val _ _ _ _ H). Qed.

Lemma bind_val_inv {A B} (m : M A) (k : A -> M B) s b :
  res (bind m k s) = Val b ->
  exists a, res (m s) = Val a /\ bind m k s = after (out (m s)) (k a (st (m s))).
Proof.
  unfold bind. destruct (m s) as [[a|e] s1 o1]; cbn [res st out]; [eauto|discriminate].
Qed.

Lemma try_except_val_inv {A} (m : M A) catches handler s a :
  res (try_except m catches handler s) = Val a ->
  (res (m s) = Val a /\ try_except m catches handler s = m s) \/
  (exists e, res (m s) = Exc e /\ catches e = true /\ res (handler e (st (m s))) = Val a).
Proof.
  unfold try_except. destruct (m s) as [[a'|e] s1 o1]; cbn [res st out].
  - intros H. left. split; [exact H|reflexivity].
  - destruct (catches e) eqn:Hc; cbn [after res]; [|discriminate].
    intros H. right. exists e. auto.
Qed.

Lemma elem_of_prefix {A} (x : A) (l1 l2 : list A) :
  x ∈ l1 -> l1 `prefix_of` l2 -> x ∈ l2.
Proof. intros Hx [k ->]. apply elem_of_app. now left. Qed.

Section SolveCaptchaWithoutTries.
Import SeleniumHandler CaptchaHandler.
Variable config : Config.
Variable env : Env.

Lemma fetch_captcha_file_begins s :
  [LogInfo "Fetching CAPTCHA image..."; WaitElement (captcha_id config)]
  `prefix_of` out (fetch_captcha_file config env s).
Proof.
  unfold fetch_captcha_file.
  etransitivity; [|apply prefix_try_except].
  erewrite out_bind_val by reflexivity. cbn [log_info emit out st].
  apply prefix_cons. etransitivity; [|apply prefix_bind].
  unfold wait_for_element.
  etransitivity; [|apply prefix_try_except].
  etransitivity; [|apply prefix_bind]. reflexivity.
Qed.

(** A fetch that returns has saved the image. *)
Lemma fetch_captcha_file_saves s :
  res (fetch_captcha_file config env s) = Val tt ->
  is_Some (fs (st (fetch_captcha_file config env s)) !! captcha_image_path config).
Proof.
  unfold fetch_captcha_file. intros H.
  apply try_except_val_inv in H as [[Hm Heq]|(e & _ & _ & Hh)].
  2:{ erewrite bind_val in Hh by reflexivity. discriminate Hh. }
  rewrite Heq. clear Heq.
  erewrite bind_val in Hm by reflexivity. erewrite bind_val by reflexivity.
  cbn [log_info emit res st out after] in *.
  destruct (bind_val_inv _ _ _ _ Hm) as (src & Hsrc & Heq). rewrite Heq in *. clear Heq.
  cbn [res st after] in *.
  erewrite bind_val in Hm by reflexivity. erewrite bind_val by reflexivity.
  cbn [ask res st out after] in *.
  destruct (requests_get env _ src) as [msg|status_code chunks broken]; [discriminate Hm|].
  destruct (Z.eqb status_code 200); [|discriminate Hm].
  erewrite bind_val in Hm by reflexivity. erewrite bind_val by reflexivity.
  cbn [modify_fs res st out after] in *.
  destruct broken; [discriminate Hm|].
  erewrite bind_val by reflexivity.
  cbn [modify_fs log_info emit res st out after set_fs fs].
  rewrite lookup_insert_eq. eauto.
Qed.

Lemma solve_captcha_with_ai_posts s :
  ai_not_configured config = false ->
  is_Some (fs s !! captcha_image_path config) ->
  HttpPost (ai_captcha_service_url config) ∈ out (solve_captcha_with_ai config env s).
Proof.
  intros Hcfg [image Himage]. unfold solve_captcha_with_ai. rewrite Hcfg.
  eapply elem_of_prefix; [|apply prefix_try_except].
  erewrite out_bind_val by reflexivity. cbn [log_info emit out st].
  erewrite out_bind_val by reflexivity. cbn [get_state out st]. rewrite Himage.
  eapply elem_of_prefix; [|apply list.prefix_cons, prefix_bind].
  cbn [ask out]. apply elem_of_cons. right. apply elem_of_cons. now left.
Qed.

Lemma obtain_solution_without_tries recurse tries_remaining s :
  tries_remaining <= 0 ->
  let r := obtain_solution config env recurse tries_remaining s in
  (exists solution, res r = Val (inr solution)) /\
  (exists rest, out r = ai_branch_line tries_remaining
                        :: (out (solve_captcha_with_ai config env s) ++ rest)%list).
Proof.
  intros Hle. cbn zeta. unfold obtain_solution.
  replace (Z.eqb tries_remaining 1) with false by (symmetry; apply Z.eqb_neq; lia).
  replace (Z.ltb 0 (tries_remaining - 1)) with false by (symmetry; apply Z.ltb_ge; lia).
  erewrite bind_val by reflexivity. cbn [log_info emit res st out]. unfold after at 1 2.
  cbn [res st out app]. fold (ai_branch_line tries_remaining).
  unfold try_except, bind.
  destruct (solve_captcha_with_ai config env s) as [[solution|e] s1 o1];
    cbn [res st out any_exception]; unfold after, ret; cbn [res st out].
  - split; [exists solution; reflexivity|]. exists []. reflexivity.
  - rewrite solve_captcha_manually_run. cbn [res st out].
    split; [eexists; reflexivity|]. eexists. reflexivity.
Qed.

Lemma enter_captcha_solution_begins solution s :
  [FillInput (captcha_input_id config) solution]
  `prefix_of` out (enter_captcha_solution config env solution s).
Proof.
  unfold enter_captcha_solution.
  etransitivity; [|apply prefix_try_except].
  etransitivity; [|apply prefix_bind].
  unfold fill_input_field.
  etransitivity; [|apply prefix_try_except].
  etransitivity; [|apply prefix_bind]. reflexivity.
Qed.

(** C9: [solve_captcha] has no guard on its argument.  Called with no try
    left (zero or a negative number), it starts by fetching the image, and
    once the image is fetched it takes the branch of the solving service
    (whose request is sent when the service is configured) and goes on to
    submit a solution. *)
Theorem solve_captcha_without_tries_still_attempts tries_remaining s :
  tries_remaining <= 0 ->
  let r := solve_captcha config env tries_remaining s in
  let fetched := fetch_captcha_file config env s in
  [LogInfo "Fetching CAPTCHA image..."; WaitElement (captcha_id config)] `prefix_of` out r /\
  (res fetched = Val tt ->
   (out fetched ++ [ai_branch_line tries_remaining])%list `prefix_of` out r /\
   (ai_not_configured config = false ->
    HttpPost (ai_captcha_service_url config) ∈ out r) /\
   (exists solution, FillInput (captcha_input_id config) solution ∈ out r)).
Proof.
  intros Hle. cbn zeta. rewrite solve_captcha_unfold. unfold solve_captcha_body.
  set (recurse := solve_captcha config env (tries_remaining - 1)).
  split.
  - etransitivity; [apply fetch_captcha_file_begins|].
    etransitivity; [|apply prefix_try_finally]. apply prefix_bind.
  - intros Hfetch.
    set (s1 := st (fetch_captcha_file config env s)).
    destruct (obtain_solution_without_tries recurse tries_remaining s1 Hle)
      as [[solution Hsol] [rest Hout]].
    assert (Hbody :
      (out (fetch_captcha_file config env s)
       ++ out (obtain_solution config env recurse tries_remaining s1)
       ++ out (submit_solution config env recurse tries_remaining solution
                 (st (obtain_solution config env recurse tries_remaining s1))))%list
      `prefix_of`
      out (try_finally
             (fetch_captcha_file config env;;
              phase <- obtain_solution config env recurse tries_remaining;;
              match phase with
              | inl returned => ret returned
              | inr solution0 =>
                  submit_solution config env recurse tries_remaining solution0
              end) (clean_up_captcha_file config) s)).
    { etransitivity; [|apply prefix_try_finally].
      rewrite (out_bind_val _ _ _ tt Hfetch). fold s1.
      rewrite (out_bind_val _ _ _ _ Hsol). reflexivity. }
    split; [|split].
    + etransitivity; [|exact Hbody]. rewrite Hout.
      apply prefix_app. cbn [app]. apply prefix_cons, prefix_nil.
    + intros Hcfg. eapply elem_of_prefix; [|exact Hbody].
      apply elem_of_app. right. apply elem_of_app. left. rewrite Hout.
      apply elem_of_cons. right. apply elem_of_app. left.
      apply solve_captcha_with_ai_posts; [exact Hcfg|].
      now apply fetch_captcha_file_saves.
    + exists solution. eapply elem_of_prefix; [|exact Hbody].
      apply elem_of_app. right. apply elem_of_app. right.
      unfold submit_solution.
      eapply elem_of_prefix; [|apply prefix_bind].
      eapply elem_of_prefix; [|apply enter_captcha_solution_begins].
      apply elem_of_cons. now left.
Qed.

End SolveCaptchaWithoutTries.

Lemma solve_captcha_without_tries_still_attempts_witness :
  let r := CaptchaHandler.solve_captcha default_config (captcha_world "X7K2" "Results") 0
             empty_state in
  HttpPost (ai_captcha_service_url default_config) ∈ out r /\
  (exists solution, FillInput (captcha_input_id default_config) solution ∈ out r).
Proof.
  cbn zeta.
  destruct (solve_captcha_without_tries_still_attempts default_config
              (captcha_world "X7K2" "Results") 0 empty_state) as [_ H]; [lia|].
  destruct H as (_ & Hpost & Hfill); [vm_compute; reflexivity|].
  split; [apply Hpost; reflexivity | exact Hfill].
Defined.

(** * captcha_handler.py: submitting the solution *)

Lemma bind_assoc {A B C} (m : M A) (k : A -> M B) (h : B -> M C) s :
  bind (bind m k) h s = bind m (fun a => bind (k a) h) s.
Proof.
  unfold bind. destruct (m s) as [[a|e] s1 o1]; cbn [res st out after]; [|reflexivity].
  destruct (k a s1) as [[b|e] s2 o2]; cbn [res st out after]; [|reflexivity].
  unfold after. cbn [res st out]. now rewrite app_assoc.
Qed.

Section EnterCaptchaSolution.
Import SeleniumHandler CaptchaHandler.
Variable config : Config.
Variable env : Env.

Lemma enter_captcha_solution_assoc solution s :
  enter_captcha_solution config env solution s =
  try_except
    (fill_and_submit config env solution ;;
     sleep (retry_delay config) ;;
     source <- driver_page_source env ;;
     if str_contains "Invalid CAPTCHA" source then
       log_warning "CAPTCHA solution incorrect." ;; ret false
     else ret true)
    any_exception
    (fun e =>
       log_error ("Error entering CAPTCHA solution: " +:+ exn_msg e) PARSING ;;
       ret false) s.
Proof.
  unfold enter_captcha_solution, try_except, fill_and_submit.
  now rewrite bind_assoc.
Qed.

(** C10: [enter_captcha_solution] never raises.  It always returns a
    boolean; when filling the field or submitting the form raises, the
    error is logged and the boolean is [False], the value that a page
    showing "Invalid CAPTCHA" gives; and [solve_captcha] treats a [False]
    the same way whatever caused it: it calls itself with one try fewer
    when more than one try is left, and returns [False] otherwise. *)
Theorem enter_captcha_solution_never_raises solution s :
  let r := enter_captcha_solution config env solution s in
  (exists accepted, res r = Val accepted) /\
  (forall e,
     res (fill_and_submit config env solution s) = Exc e ->
     res r = Val false /\
     LogError ("Error entering CAPTCHA solution: " +:+ exn_msg e) PARSING ∈ out r) /\
  (forall page,
     res (fill_and_submit config env solution s) = Val tt ->
     page_source env (tick (st (fill_and_submit config env solution s))) = inr page ->
     str_contains "Invalid CAPTCHA" page = true ->
     res r = Val false) /\
  (forall recurse tries_remaining,
     res r = Val false ->
     submit_solution config env recurse tries_remaining solution s
     = after (out r) ((if Z.ltb 1 tries_remaining then recurse else ret false) (st r))).
Proof.
  cbn zeta. split; [|split; [|split]].
  - unfold enter_captcha_solution, try_except.
    match goal with |- context [res (?m s)] => destruct (m s) as [[a|e] s1 o1] end;
      cbn [res st out any_exception]; [eauto|].
    erewrite bind_val by reflexivity. cbn [log_error emit ret after res st out]. eauto.
  - intros e He. rewrite enter_captcha_solution_assoc.
    erewrite try_except_caught;
      [|erewrite bind_exc by exact He; reflexivity|reflexivity].
    erewrite bind_exc by exact He. cbn [res st out].
    erewrite bind_val by reflexivity. cbn [log_error emit ret after res st out].
    split; [reflexivity|].
    apply elem_of_app. right. apply elem_of_cons. now left.
  - intros page Hok Hpage Hmarker. rewrite enter_captcha_solution_assoc.
    match goal with |- res (try_except ?m _ _ s) = _ =>
      assert (Hm : res (m s) = Val false)
    end.
    { erewrite bind_val by exact Hok. cbn [after res].
      erewrite bind_val by reflexivity. cbn [sleep emit after res st].
      unfold driver_page_source. rewrite bind_assoc.
      erewrite bind_val by reflexivity. cbn [ask after res st]. rewrite Hpage.
      erewrite bind_val by reflexivity. cbn [ret after res st]. rewrite Hmarker.
      erewrite bind_val by reflexivity. reflexivity. }
    rewrite (try_except_val _ _ _ _ _ Hm). exact Hm.
  - intros recurse tries_remaining Hfalse. unfold submit_solution.
    erewrite bind_val by exact Hfalse. reflexivity.
Qed.

End EnterCaptchaSolution.

Lemma enter_captcha_solution_never_raises_witness :
  let r := CaptchaHandler.enter_captcha_solution default_config missing_input_field
             "X7K2" empty_state in
  res r = Val false /\
  CaptchaHandler.submit_solution default_config missing_input_field
    (CaptchaHandler.solve_captcha default_config missing_input_field 1) 2 "X7K2" empty_state
  = after (out r)
      (CaptchaHandler.solve_captcha default_config missing_input_field 1 (st r)) /\
  res (CaptchaHandler.enter_captcha_solution default_config
         (captcha_world "X7K2" "Invalid CAPTCHA, try again") "X7K2" empty_state)
  = Val false.
Proof.
  cbn zeta.
  destruct (enter_captcha_solution_never_raises default_config missing_input_field
              "X7K2" empty_state) as (_ & Hexc & _ & Hnext).
  destruct (Hexc (mkExn NoSuchElementException "no such element")) as [Hfalse _];
    [vm_compute; reflexivity|].
  split; [exact Hfalse|]. split.
  - exact (Hnext (CaptchaHandler.solve_captcha default_config missing_input_field 1) 2
             Hfalse).
  - destruct (enter_captcha_solution_never_raises default_config
                (captcha_world "X7K2" "Invalid CAPTCHA, try again") "X7K2" empty_state)
      as (_ & _ & Hpage & _).
    apply (Hpage "Invalid CAPTCHA, try again"); vm_compute; reflexivity.
Defined.

(** * v1/main.py: the crawl state and the pool *)

Section KeepsVisited.

Lemma keeps_ret {A} (a : A) : keeps_visited (ret a).
Proof. intros s. reflexivity. Qed.

Lemma keeps_raise {A} e : keeps_visited (@raise A e).
Proof. intros s. reflexivity. Qed.

Lemma keeps_get_state : keeps_visited get_state.
Proof. intros s. reflexivity. Qed.

Lemma keeps_modify_fs f : keeps_visited (modify_fs f).
Proof. intros s. reflexivity. Qed.

Lemma keeps_emit e : keeps_visited (emit e).
Proof. intros s. reflexivity. Qed.

Lemma keeps_ask {A} (answer : nat -> A) e : keeps_visited (ask answer e).
Proof. intros s. reflexivity. Qed.

Lemma keeps_bind {A B} (m : M A) (k : A -> M B) :
  keeps_visited m -> (forall a, keeps_visited (k a)) -> keeps_visited (bind m k).
Proof.
  intros Hm Hk s. unfold bind. specialize (Hm s).
  destruct (m s) as [[a|e] s1 o1]; cbn [res st out after] in *; [|exact Hm].
  now rewrite Hk.
Qed.

Lemma keeps_try_except {A} (m : M A) catches handler :
  keeps_visited m -> (forall e, keeps_visited (handler e)) ->
  keeps_visited (try_except m catches handler).
Proof.
  intros Hm Hh s. unfold try_except. specialize (Hm s).
  destruct (m s) as [[a|e] s1 o1]; cbn [res st out after] in *; [exact Hm|].
  destruct (catches e); [|exact Hm]. cbn [after st]. now rewrite Hh.
Qed.

Lemma keeps_try_finally {A} (m : M A) cleanup :
  keeps_visited m -> keeps_visited cleanup -> keeps_visited (try_finally m cleanup).
Proof.
  intros Hm Hc s. unfold try_finally. cbn zeta.
  specialize (Hm s). specialize (Hc (st (m s))).
  destruct (res (cleanup (st (m s)))); cbn [st]; congruence.
Qed.

End KeepsVisited.

Lemma bind_ret_l {A B} (a : A) (k : A -> M B) s : bind (ret a) k s = k a s.
Proof. unfold bind, ret. cbn [res st out]. apply after_nil. Qed.

Lemma emits_bind_ret {A B} P (a : A) (k : A -> M B) :
  emits P (k a) -> emits P (bind (ret a) k).
Proof. intros H s. rewrite bind_ret_l. apply H. Qed.

Lemma keeps_bind_ret {A B} (a : A) (k : A -> M B) :
  keeps_visited (k a) -> keeps_visited (bind (ret a) k).
Proof. intros H s. rewrite bind_ret_l. apply H. Qed.

Ltac keeps_step :=
  lazymatch goal with
  | |- keeps_visited (bind (ret _) _) => apply keeps_bind_ret
  | |- keeps_visited (ret _) => apply keeps_ret
  | |- keeps_visited (raise _) => apply keeps_raise
  | |- keeps_visited get_state => apply keeps_get_state
  | |- keeps_visited (modify_fs _) => apply keeps_modify_fs
  | |- keeps_visited (emit _) => apply keeps_emit
  | |- keeps_visited (sleep _) => apply keeps_emit
  | |- keeps_visited (V1.logging_log _ _) => apply keeps_emit
  | |- keeps_visited (ask _ _) => apply keeps_ask
  | |- keeps_visited (bind _ _) => apply keeps_bind; [|intros ?]
  | |- keeps_visited (try_except _ _ _) => apply keeps_try_except; [|intros ?]
  | |- keeps_visited (try_finally _ _) => apply keeps_try_finally
  | |- keeps_visited (match ?x with _ => _ end) => destruct x
  end.

Ltac emits_step_v1 :=
  lazymatch goal with
  | |- emits _ (V1.logging_log _ _) => apply emits_emit; reflexivity
  | |- emits _ (bind (ret _) _) => apply emits_bind_ret
  | _ => emits_step
  end.

Section V1Pool.
Variable env : Env.
Variable url_name_ext : string -> string * string.
Variable PdfReader : list byte -> option Exn.

Lemma v1_download_pdf_keeps pdf_url :
  keeps_visited (V1.download_pdf env url_name_ext PdfReader pdf_url).
Proof.
  unfold V1.download_pdf. generalize (seqZ 0 V1.MAX_RETRIES).
  intros attempts. induction attempts as [|attempt rest IH]; cbn [V1.download_attempts].
  - unfold V1.log_pdf_details, V1.log_to_csv. repeat keeps_step.
  - apply keeps_bind.
    + unfold V1.attempt_download, V1.raise_for_status, V1.get_unique_filename,
        V1.validate_pdf, V1.log_pdf_details, V1.log_to_csv.
      repeat keeps_step.
    + intros [b|]; [apply keeps_ret | exact IH].
Qed.

Lemma v1_download_pdf_not_submit pdf_url :
  emits not_submit (V1.download_pdf env url_name_ext PdfReader pdf_url).
Proof.
  unfold V1.download_pdf. generalize (seqZ 0 V1.MAX_RETRIES).
  intros attempts. induction attempts as [|attempt rest IH]; cbn [V1.download_attempts].
  - unfold V1.log_pdf_details, V1.log_to_csv. repeat emits_step_v1.
  - apply emits_bind.
    + unfold V1.attempt_download, V1.raise_for_status, V1.get_unique_filename,
        V1.validate_pdf, V1.log_pdf_details, V1.log_to_csv.
      repeat emits_step_v1.
    + intros [b|]; [apply emits_ret | exact IH].
Qed.

Lemma submit_all_run pdf_urls s :
  V1.submit_all pdf_urls s = mkRun (Val tt) s (Submit <$> pdf_urls).
Proof.
  induction pdf_urls as [|url rest IH]; [reflexivity|].
  cbn [V1.submit_all]. run_head. rewrite IH. reflexivity.
Qed.

Lemma collect_results_keeps pdf_urls :
  keeps_visited (V1.collect_results env url_name_ext PdfReader pdf_urls).
Proof.
  induction pdf_urls as [|url rest IH]; cbn [V1.collect_results].
  - apply keeps_ret.
  - apply keeps_bind; [|intros _; exact IH].
    apply keeps_try_except.
    + apply keeps_bind; [apply v1_download_pdf_keeps|]. intros _. apply keeps_ret.
    + intros e. apply keeps_emit.
Qed.

Lemma collect_results_not_submit pdf_urls :
  emits not_submit (V1.collect_results env url_name_ext PdfReader pdf_urls).
Proof.
  induction pdf_urls as [|url rest IH]; cbn [V1.collect_results].
  - apply emits_ret.
  - apply emits_bind; [|intros _; exact IH].
    apply emits_try_except.
    + apply emits_bind; [apply v1_download_pdf_not_submit|]. intros _. apply emits_ret.
    + intros e. apply emits_emit. reflexivity.
Qed.

Lemma submitted_not_submit t : Forall not_submit t -> submitted t = [].
Proof.
  induction 1 as [|e t He _ IH]; [reflexivity|].
  destruct e; cbn [submitted]; try exact IH. discriminate He.
Qed.

Lemma submitted_submits pdf_urls : submitted (Submit <$> pdf_urls) = pdf_urls.
Proof. induction pdf_urls as [|url rest IH]; [reflexivity|]. cbn. now rewrite IH. Qed.

(** As [extract_pdf_urls] stands, [crawl] reaches the pool with [None]:
    the TypeError is logged, no job is ever submitted, and the crawl state
    is saved as it was loaded. *)
Lemma crawl_submits_nothing Image_open pickle_dump s :
  let r := V1.crawl env url_name_ext Image_open PdfReader pickle_dump s in
  submitted (out r) = [] /\ visited_urls (st r) = visited_urls s.
Proof.
  cbn zeta. split.
  - apply submitted_not_submit.
    revert s. change (emits not_submit
                        (V1.crawl env url_name_ext Image_open PdfReader pickle_dump)).
    unfold V1.crawl, V1.get_page, V1.handle_captcha, V1.display_captcha_and_get_input,
      V1.extract_pdf_urls, V1.download_pdfs, V1.save_resume_state, V1.selenium_quit.
    repeat emits_step_v1.
  - revert s. change (keeps_visited
                        (V1.crawl env url_name_ext Image_open PdfReader pickle_dump)).
    unfold V1.crawl, V1.get_page, V1.handle_captcha, V1.display_captcha_and_get_input,
      V1.extract_pdf_urls, V1.download_pdfs, V1.save_resume_state, V1.selenium_quit.
    repeat keeps_step.
Qed.

(** C7, as the code has it: the pool submits a job for every url of the
    sequence it is given, in order and whatever the crawl state holds, and
    when all jobs are done the crawl state is what it was: no url is
    skipped for being in it, none is added to it. *)
Theorem download_pdfs_submits_every_url pdf_urls s :
  let r := V1.download_pdfs env url_name_ext PdfReader (Some pdf_urls) s in
  submitted (out r) = pdf_urls /\
  visited_urls (st r) = visited_urls s.
Proof.
  cbn zeta. unfold V1.download_pdfs.
  erewrite bind_val by (rewrite submit_all_run; reflexivity).
  rewrite submit_all_run. cbn [res st out after]. split.
  - rewrite submitted_app, submitted_submits.
    rewrite (submitted_not_submit _ (collect_results_not_submit pdf_urls s)).
    apply app_nil_r.
  - apply collect_results_keeps.
Qed.

End V1Pool.

(** C7, as the claim states it, fails: a url that the crawl state contains
    is submitted and fetched all the same, and a url that was fetched and
    saved is not added to the crawl state. *)
Lemma download_pdfs_ignores_crawl_state :
  let env := serving (Response 200 [pdf_body] None) in
  let r := V1.download_pdfs env example_url_name_ext example_PdfReader
             (Some [a_pdf_url]) already_visited in
  let r' := V1.download_pdfs env example_url_name_ext example_PdfReader
              (Some [a_pdf_url]) empty_state in
  a_pdf_url ∈ visited_urls already_visited /\
  Submit a_pdf_url ∈ out r /\
  HttpGet a_pdf_url ∈ out r /\
  fs (st r') !! "pdfs/a_1.pdf" = Some pdf_body /\
  a_pdf_url ∉ visited_urls (st r').
Proof.
  cbn zeta. split; [|split; [|split; [|split]]].
  - unfold already_visited. cbn [visited_urls]. now apply elem_of_singleton.
  - apply (bool_decide_unpack _). vm_compute. exact I.
  - apply (bool_decide_unpack _). vm_compute. exact I.
  - vm_compute. reflexivity.
  - apply (bool_decide_unpack _). vm_compute. exact I.
Qed.

(** * v1/main.py: loading the crawl state *)

(** C6, as the code has it: [load_resume_state] returns the empty set when
    the resume file is absent; when the file is there it returns what
    [pickle.load] makes of it, and an exception of [pickle.load] (a corrupt
    or partial file) goes on to the caller.  In no case is anything logged
    or the state changed. *)
Theorem load_resume_state_unpickles_or_raises
    (pickle_load : list byte -> Exn + gset string) (s : State) :
  let r := V1.load_resume_state pickle_load s in
  out r = [] /\ st r = s /\
  (fs s !! V1.RESUME_STATE_FILE = None -> res r = Val ∅) /\
  (forall content,
     fs s !! V1.RESUME_STATE_FILE = Some content ->
     res r = match pickle_load content with
             | inl e => Exc e
             | inr visited => Val visited
             end).
Proof.
  cbn zeta. unfold V1.load_resume_state, path_exists.
  erewrite bind_val by reflexivity. cbn [get_state res st out].
  erewrite bind_val by reflexivity. cbn [ret res st out after app].
  destruct (fs s !! V1.RESUME_STATE_FILE) as [content|] eqn:Hfile.
  - rewrite bool_decide_eq_true_2 by eauto.
    erewrite bind_val by reflexivity. cbn [get_state res st out after app]. rewrite Hfile.
    destruct (pickle_load content) as [e|visited] eqn:Hload; cbn [raise ret res st out].
    + repeat split; try discriminate. intros content' [= <-]. now rewrite Hload.
    + repeat split; try discriminate. intros content' [= <-]. now rewrite Hload.
  - rewrite bool_decide_eq_false_2 by (intros [? ?]; discriminate).
    cbn [ret res st out]. repeat split. intros content' [=].
Qed.

Lemma load_resume_state_unpickles_or_raises_witness :
  res (V1.load_resume_state example_pickle_load empty_state) = Val ∅ /\
  res (V1.load_resume_state example_pickle_load truncated_resume_state)
  = Exc (mkExn EOFError "Ran out of input").
Proof.
  split.
  - destruct (load_resume_state_unpickles_or_raises example_pickle_load empty_state)
      as (_ & _ & Habsent & _).
    apply Habsent. reflexivity.
  - destruct (load_resume_state_unpickles_or_raises example_pickle_load
                truncated_resume_state) as (_ & _ & _ & Hpresent).
    apply (Hpresent []). reflexivity.
Defined.

(** C6, as the claim states it, fails: on a resume file that exists but is
    empty, [load_resume_state] does not return the empty set; the EOFError
    of [pickle.load] comes out of it, nothing is logged, and [main] ends
    with that exception before the crawl has begun. *)
Lemma load_resume_state_raises_on_truncated_file :
  let r := V1.load_resume_state example_pickle_load truncated_resume_state in
  let crashed := V1.main offline example_url_name_ext example_Image_open example_PdfReader
                   example_pickle_load example_pickle_dump truncated_resume_state in
  fs truncated_resume_state !! V1.RESUME_STATE_FILE = Some [] /\
  res r = Exc (mkExn EOFError "Ran out of input") /\
  res r ≠ Val ∅ /\
  out r = [] /\
  res crashed = Exc (mkExn EOFError "Ran out of input") /\
  out crashed = [].
Proof. cbn zeta. repeat split; try (vm_compute; reflexivity). discriminate. Qed.

(** * v1/main.py: what [download_pdf] does with a file that is no PDF *)

(** The first version removes the file that fails the validation and
    returns [False] at once: one GET, no wait, no further attempt. *)
Lemma v1_download_pdf_removes_invalid_file :
  let r := V1.download_pdf (serving (Response 200 [html_body] None))
             example_url_name_ext example_PdfReader a_pdf_url empty_state in
  res r = Val false /\
  fs (st r) = ∅ /\
  out r = [HttpGet a_pdf_url; Logging WARNING "Invalid PDF: pdfs/a_1.pdf"].
Proof. cbn zeta. repeat split; vm_compute; reflexivity. Qed.

(** * v1/main.py: [get_unique_filename] finds a name *)

Lemma string_app_nil (t : string) : "" +:+ t = t.
Proof. reflexivity. Qed.

Lemma string_app_cons c (s t : string) : String c s +:+ t = String c (s +:+ t).
Proof. reflexivity. Qed.

Lemma string_app_length (s1 s2 : string) :
  String.length (s1 +:+ s2) = (String.length s1 + String.length s2)%nat.
Proof.
  induction s1 as [|c s1 IH]; [reflexivity|].
  rewrite string_app_cons. cbn [String.length]. now rewrite IH.
Qed.

Lemma string_app_inv_tail (s1 s2 t : string) : s1 +:+ t = s2 +:+ t -> s1 = s2.
Proof.
  revert s2. induction s1 as [|c s1 IH]; intros [|d s2] H;
    rewrite ?string_app_nil, ?string_app_cons in H.
  - reflexivity.
  - apply (f_equal String.length) in H. cbn [String.length] in H.
    rewrite string_app_length in H. lia.
  - apply (f_equal String.length) in H. cbn [String.length] in H.
    rewrite string_app_length in H. lia.
  - injection H as -> H. f_equal. now apply IH.
Qed.

Lemma os_path_join_pdf_dir_inj (b1 b2 : string) :
  String.prefix "/" b1 = String.prefix "/" b2 ->
  os_path_join V1.PDF_DIR b1 = os_path_join V1.PDF_DIR b2 -> b1 = b2.
Proof.
  intros Hp. unfold os_path_join, startswith.
  change (String.eqb V1.PDF_DIR "" || endswith_char V1.PDF_DIR "/")%bool with false.
  cbn iota. rewrite Hp. destruct (String.prefix "/" b2); [trivial|].
  intros H. now apply (String.app_inj V1.PDF_DIR), (String.app_inj "/") in H.
Qed.

Lemma prefix_slash_app (name : string) c (t1 t2 : string) :
  String.prefix "/" (name +:+ String c t1) = String.prefix "/" (name +:+ String c t2).
Proof.
  destruct name as [|ch name].
  - rewrite !string_app_nil. cbn [String.prefix]. destruct (ascii_dec "/" c); [|reflexivity]. now destruct t1, t2.
  - rewrite !string_app_cons. cbn [String.prefix]. destruct (ascii_dec "/" ch); [|reflexivity].
    now destruct (name +:+ String c t1), (name +:+ String c t2).
Qed.

Lemma candidate_name_inj name ext : Inj (=) (=) (V1.candidate_name name ext).
Proof.
  intros c1 c2 H. unfold V1.candidate_name in H.
  change ("_" +:+ pretty c1 +:+ ext) with (String "_" (pretty c1 +:+ ext)) in H.
  change ("_" +:+ pretty c2 +:+ ext) with (String "_" (pretty c2 +:+ ext)) in H.
  apply os_path_join_pdf_dir_inj in H; [|apply prefix_slash_app].
  apply String.app_inj in H. injection H as H.
  apply string_app_inv_tail in H. now apply pretty_Z_inj in H.
Qed.

Lemma first_free_name_none files name ext rounds counter :
  V1.first_free_name files name ext rounds counter = None ->
  forall i : nat, (i <= rounds)%nat ->
    is_Some (files !! V1.candidate_name name ext (counter + Z.of_nat i)).
Proof.
  revert counter. induction rounds as [|n IH]; intros counter; cbn [V1.first_free_name];
    case_bool_decide as Hex; try discriminate.
  - intros _ i Hi. replace i with 0%nat by lia. now rewrite Z.add_0_r.
  - intros Hnone [|i] Hi.
    + now rewrite Z.add_0_r.
    + replace (counter + Z.of_nat (S i)) with (counter + 1 + Z.of_nat i) by lia.
      apply IH; [exact Hnone|lia].
Qed.

Lemma first_free_name_some files name ext rounds counter path :
  V1.first_free_name files name ext rounds counter = Some path ->
  files !! path = None.
Proof.
  revert counter. induction rounds as [|n IH]; intros counter; cbn [V1.first_free_name];
    case_bool_decide as Hex; try discriminate.
  - intros [= <-]. now apply eq_None_not_Some.
  - apply IH.
  - intros [= <-]. now apply eq_None_not_Some.
Qed.

(** The rounds that the model allows are enough: with [size files] rounds
    the loop reaches a name that no file has. *)
Lemma first_free_name_total (files : gmap string (list byte)) name ext :
  exists path,
    V1.first_free_name files name ext (size files) 1 = Some path /\ files !! path = None.
Proof.
  destruct (V1.first_free_name files name ext (size files) 1) as [path|] eqn:Hfree.
  - exists path. split; [reflexivity|]. eapply first_free_name_some, Hfree.
  - exfalso.
    pose proof (first_free_name_none _ _ _ _ _ Hfree) as Hall.
    set (names := (fun i : nat => V1.candidate_name name ext (1 + Z.of_nat i))
                    <$> seq 0 (S (size files))).
    assert (Hnodup : NoDup names).
    { apply NoDup_fmap_2; [|apply NoDup_seq].
      intros i j Hij. apply candidate_name_inj in Hij. lia. }
    assert (Hsub : forall x, x ∈ names -> x ∈ elements (dom files)).
    { intros x Hx. apply list_elem_of_fmap in Hx as (i & -> & Hi).
      apply elem_of_seq in Hi. apply elem_of_elements, elem_of_dom, Hall. lia. }
    pose proof (submseteq_length _ _ (NoDup_submseteq _ _ Hnodup Hsub)) as Hlen.
    unfold names in Hlen. rewrite length_fmap, length_seq in Hlen.
    change (length (elements (dom files))) with (size (dom files)) in Hlen.
    rewrite size_dom in Hlen. lia.
Qed.

Lemma get_unique_filename_returns url_name_ext url s :
  exists path,
    V1.get_unique_filename url_name_ext url s = mkRun (Val path) s [] /\
    fs s !! path = None.
Proof.
  unfold V1.get_unique_filename. destruct (url_name_ext url) as [name ext].
  destruct (first_free_name_total (fs s) name ext) as (path & Hfree & Hnone).
  exists path. split; [|exact Hnone].
  erewrite bind_val by reflexivity. cbn [get_state res st out]. rewrite Hfree.
  reflexivity.
Qed.

(** * The two versions of [download_pdf] on a file that is no PDF *)

Section InvalidFormat.
Variable env : Env.

(** v1/main.py: whatever the state and the attempts left, a body that the
    PDF reader rejects is removed again and [download_pdf] returns [False]
    at once, after one GET and without waiting. *)
Lemma v1_download_pdf_invalid_format
    (url_name_ext : string -> string * string) (PdfReader : list byte -> option Exn)
    pdf_url s status_code chunks e :
  requests_get env (tick s) pdf_url = Response status_code chunks None ->
  status_code < 400 \/ 600 <= status_code ->
  PdfReader (concat chunks) = Some e ->
  exists pdf_name,
    fs s !! pdf_name = None /\
    V1.download_pdf env url_name_ext PdfReader pdf_url s
    = mkRun (Val false)
        (set_fs (delete pdf_name) (set_fs (insert pdf_name (concat chunks)) (next_tick s)))
        [HttpGet pdf_url; Logging WARNING ("Invalid PDF: " +:+ pdf_name)] /\
    fs (st (V1.download_pdf env url_name_ext PdfReader pdf_url s)) !! pdf_name = None.
Proof.
  intros Hget Hstatus Hreader.
  destruct (get_unique_filename_returns url_name_ext pdf_url (next_tick s))
    as (pdf_name & Hname & Hfree).
  exists pdf_name. split; [exact Hfree|].
  assert (Hattempt :
    V1.attempt_download env url_name_ext PdfReader pdf_url s
    = mkRun (Val false)
        (set_fs (delete pdf_name) (set_fs (insert pdf_name (concat chunks)) (next_tick s)))
        [HttpGet pdf_url; Logging WARNING ("Invalid PDF: " +:+ pdf_name)]).
  { unfold V1.attempt_download. run_head. rewrite Hget.
    assert (Hrfs : V1.raise_for_status status_code pdf_url (next_tick s)
                   = mkRun (Val tt) (next_tick s) []).
    { unfold V1.raise_for_status.
      replace (Z.leb 400 status_code && Z.ltb status_code 500)%bool with false
        by (symmetry; apply andb_false_iff; lia).
      replace (Z.leb 500 status_code && Z.ltb status_code 600)%bool with false
        by (symmetry; apply andb_false_iff; lia).
      reflexivity. }
    erewrite bind_val by (rewrite Hrfs; reflexivity). rewrite Hrfs. cbn [res st out].
    erewrite bind_val by (rewrite Hname; reflexivity). rewrite Hname. cbn [res st out].
    run_head.
    assert (Hval : V1.validate_pdf PdfReader pdf_name
                     (set_fs (insert pdf_name (concat chunks)) (next_tick s))
                   = mkRun (Val false)
                       (set_fs (insert pdf_name (concat chunks)) (next_tick s)) []).
    { unfold V1.validate_pdf. run_head. cbn [set_fs fs].
      rewrite lookup_insert_eq, Hreader. reflexivity. }
    erewrite bind_val by (rewrite Hval; reflexivity). rewrite Hval. cbn [res st out].
    unfold V1.logging_log. run_heads. reflexivity. }
  assert (Hrun :
    V1.download_pdf env url_name_ext PdfReader pdf_url s
    = mkRun (Val false)
        (set_fs (delete pdf_name) (set_fs (insert pdf_name (concat chunks)) (next_tick s)))
        [HttpGet pdf_url; Logging WARNING ("Invalid PDF: " +:+ pdf_name)]).
  { unfold V1.download_pdf. rewrite seqZ_cons by (unfold V1.MAX_RETRIES; lia).
    cbn [V1.download_attempts]. unfold bind, try_except.
    rewrite Hattempt. cbn [res st out]. unfold after, ret. cbn [res st out app].
    rewrite ?app_nil_r. reflexivity. }
  split; [exact Hrun|]. rewrite Hrun. cbn [st set_fs fs]. apply lookup_delete_eq.
Qed.

End InvalidFormat.

Section InvalidFormatDownloader.
Import PdfDownloader.
Variable config : Config.
Variable env : Env.

Lemma download_attempts_keeps_file pdf_link pdf_filename attempts s :
  is_Some (fs s !! pdf_filename) ->
  is_Some (fs (st (download_attempts config env pdf_link pdf_filename attempts s))
             !! pdf_filename).
Proof.
  revert s. induction attempts as [|attempt rest IH]; intros s Hfile.
  - now rewrite download_attempts_nil.
  - rewrite download_attempts_cons, attempt_download_run. cbn zeta.
    destruct (requests_get env (tick s) pdf_link) as [msg|status_code chunks broken].
    + cbn [res st after]. now apply IH.
    + destruct (Z.eqb status_code 200).
      * destruct broken as [msg|]; [|destruct (has_pdf_header (concat chunks))];
          cbn [res st after]; try apply IH;
          unfold stored, set_fs; cbn [fs]; rewrite lookup_insert_eq; eauto.
      * cbn [res st after]. now apply IH.
Qed.

(** pdf_downloader.py: when the body of the first answer lacks the
    signature and more than one attempt is allowed, [download_pdf] waits
    and fetches again, and whatever the later attempts bring, a file is
    left at the destination. *)
Lemma download_pdf_invalid_format pdf_link s chunks :
  fs s !! _create_pdf_filename config pdf_link = None ->
  requests_get env (tick s) pdf_link = Response 200 chunks None ->
  has_pdf_header (concat chunks) = false ->
  1 < max_retries config ->
  let r := download_pdf config env pdf_link s in
  (2 <= network_calls (out r))%nat /\
  Sleep (retry_delay config) ∈ out r /\
  is_Some (fs (st r) !! _create_pdf_filename config pdf_link).
Proof.
  intros Hnone Hget Hhdr Hmax. cbn zeta. rewrite download_pdf_run. cbn zeta.
  rewrite bool_decide_eq_false_2 by (rewrite Hnone; intros [? ?]; discriminate).
  rewrite (seqZ_cons 1) by lia. rewrite (seqZ_cons (Z.succ 1)) by lia.
  rewrite download_attempts_cons, attempt_download_run. cbn zeta.
  rewrite Hget. change (Z.eqb 200 200) with true. cbn iota. rewrite Hhdr.
  cbn [res st out].
  set (s1 := stored (_create_pdf_filename config pdf_link) chunks (next_tick s)).
  rewrite download_attempts_cons. cbn zeta.
  destruct (attempt_download_events env pdf_link
              (_create_pdf_filename config pdf_link) s1) as [_ Hcalls].
  assert (Hfile : is_Some (fs s1 !! _create_pdf_filename config pdf_link)).
  { unfold s1, stored, set_fs. cbn [fs]. rewrite lookup_insert_eq. eauto. }
  assert (Hkept : is_Some (fs (st (attempt_download env pdf_link
                                     (_create_pdf_filename config pdf_link) s1))
                             !! _create_pdf_filename config pdf_link)).
  { pose proof (download_attempts_keeps_file pdf_link
                  (_create_pdf_filename config pdf_link) [1] s1 Hfile) as Hk.
    rewrite download_attempts_cons in Hk. cbn zeta in Hk.
    destruct (res (attempt_download env pdf_link
                     (_create_pdf_filename config pdf_link) s1)); exact Hk. }
  split; [|split].
  - unfold after at 1 2. cbn [out]. rewrite !network_calls_app.
    destruct (res (attempt_download env pdf_link
                     (_create_pdf_filename config pdf_link) s1));
      cbn [out after]; rewrite ?network_calls_app, Hcalls;
      cbn [network_calls List.filter is_get length app]; lia.
  - unfold after at 1 2. cbn [out]. apply elem_of_app. right. apply elem_of_app. left.
    apply elem_of_app. right. unfold failure_events.
    replace (Z.ltb 1 (max_retries config)) with true by (symmetry; apply Z.ltb_lt; lia).
    apply elem_of_app. right. apply elem_of_cons. right. apply elem_of_cons. now left.
  - unfold after at 1 2. cbn [st].
    destruct (res (attempt_download env pdf_link
                     (_create_pdf_filename config pdf_link) s1)); cbn [st after].
    + exact Hkept.
    + apply download_attempts_keeps_file. exact Hkept.
Qed.

End InvalidFormatDownloader.

(** * selenium_handler.py: the loop of the [retry] wrapper *)

(** The equation of [while tries < max_tries]: the rounds that the model
    counts down are those that the test of the loop allows. *)
Lemma retry_loop_unfold {A} max_tries delay backoff exceptions (func : M A) tries :
  SeleniumHandler.retry_loop max_tries delay backoff exceptions func
    (Z.to_nat (max_tries - tries)) tries
  = if Z.ltb tries max_tries then
      try_except (a <- func ;; ret (Some a)) exceptions (fun e =>
        if Z.eqb (tries + 1) max_tries then raise e
        else (sleep (delay * backoff ^ (tries + 1 - 1)) ;;
              SeleniumHandler.retry_loop max_tries delay backoff exceptions func
                (Z.to_nat (max_tries - (tries + 1))) (tries + 1)))
    else ret None.
Proof.
  destruct (Z.ltb_spec tries max_tries) as [Hlt|Hge].
  - replace (Z.to_nat (max_tries - tries))
      with (S (Z.to_nat (max_tries - (tries + 1)))) by lia.
    reflexivity.
  - replace (Z.to_nat (max_tries - tries)) with 0%nat by lia. reflexivity.
Qed.

(** * v1/main.py: a second download of the same url *)

(** The first version has no test for an existing destination:
    [get_unique_filename] moves on to the next free suffix, so a second
    call for the same url fetches again and saves a second copy. *)
Lemma v1_download_pdf_twice :
  let env := serving (Response 200 [pdf_body] None) in
  let first := V1.download_pdf env example_url_name_ext example_PdfReader a_pdf_url
                 empty_state in
  let second := V1.download_pdf env example_url_name_ext example_PdfReader a_pdf_url
                  (st first) in
  res first = Val true /\
  res second = Val true /\
  network_calls (out second) = 1%nat /\
  fs (st second) !! "pdfs/a_1.pdf" = Some pdf_body /\
  fs (st second) !! "pdfs/a_2.pdf" = Some pdf_body.
Proof. cbn zeta. repeat split; vm_compute; reflexivity. Qed.

(** * pdf_downloader.py: further properties of [download_pdf] *)

Lemma csv_rows_app file_type t1 t2 :
  csv_rows file_type (t1 ++ t2) = (csv_rows file_type t1 ++ csv_rows file_type t2)%list.
Proof.
  induction t1 as [|e t1 IH]; [reflexivity|].
  destruct e; cbn [app csv_rows]; rewrite ?IH; try reflexivity.
  now destruct (String.eqb file_type0 file_type).
Qed.

Section DownloadPdfMore.
Import PdfDownloader.
Variable config : Config.
Variable env : Env.

(** X1: with a retry delay that [time.sleep] accepts, [download_pdf] never
    raises: whatever the server does, every exception of an attempt is
    caught by the handler of the loop, the wait inside that handler
    returns, and the call returns a file name or [None]. *)
Theorem download_pdf_never_raises pdf_link s :
  accepted_by_sleep (retry_delay config) ->
  exists returned, res (download_pdf config env pdf_link s) = Val returned.
Proof.
  intros _. rewrite download_pdf_run. cbn zeta.
  destruct (bool_decide _); [eauto|].
  cbn [after res].
  now destruct (download_attempts_spec config env pdf_link
                  (_create_pdf_filename config pdf_link) (seqZ 1 (max_retries config)) s)
    as (Hv & _).
Qed.

Lemma download_attempts_calls pdf_link pdf_filename attempts s :
  let r := download_attempts config env pdf_link pdf_filename attempts s in
  (network_calls (out r) <= length attempts)%nat /\
  tick (st r) = (tick s + network_calls (out r))%nat.
Proof.
  revert s. induction attempts as [|attempt rest IH]; intros s; cbn zeta.
  - rewrite download_attempts_nil. cbn. split; lia.
  - rewrite download_attempts_cons. cbn zeta.
    destruct (attempt_download_events env pdf_link pdf_filename s) as [_ Hc].
    assert (Ht : tick (st (attempt_download env pdf_link pdf_filename s)) = S (tick s)).
    { rewrite attempt_download_run.
      destruct (requests_get env (tick s) pdf_link) as [msg|status_code chunks broken];
        [reflexivity|].
      destruct (Z.eqb status_code 200); [|reflexivity].
      cbn zeta. destruct broken; [reflexivity|].
      destruct (has_pdf_header (concat chunks)); reflexivity. }
    destruct (res (attempt_download env pdf_link pdf_filename s)) as [name|e].
    + cbn [out st length]. rewrite Hc, Ht. split; lia.
    + destruct (IH (st (attempt_download env pdf_link pdf_filename s))) as [Hle Htick].
      cbn zeta in Hle, Htick. unfold after. cbn [out st length].
      rewrite !network_calls_app, Hc.
      destruct (failure_events_sleeps config pdf_link attempt e) as [_ Hf]. rewrite Hf.
      rewrite Htick, Ht. split; lia.
Qed.

(** X2: [download_pdf] makes at most [max_retries] requests (none at all
    when [max_retries] is zero or negative), and each request consumes
    exactly one answer of the server. *)
Theorem download_pdf_requests_bounded pdf_link s :
  let r := download_pdf config env pdf_link s in
  (network_calls (out r) <= Z.to_nat (max_retries config))%nat /\
  tick (st r) = (tick s + network_calls (out r))%nat.
Proof.
  cbn zeta. rewrite download_pdf_run. cbn zeta.
  destruct (bool_decide _).
  - cbn. split; lia.
  - destruct (download_attempts_calls pdf_link (_create_pdf_filename config pdf_link)
                (seqZ 1 (max_retries config)) s) as [Hle Htick].
    cbn zeta in Hle, Htick. rewrite length_seqZ in Hle.
    unfold after. cbn [out st]. rewrite network_calls_app. cbn. split; [exact Hle|].
    exact Htick.
Qed.



Lemma csv_rows_failure_events pdf_link attempt e :
  csv_rows "good" (failure_events config pdf_link attempt e) = [] /\
  csv_rows "bad" (failure_events config pdf_link attempt e) = [].
Proof.
  unfold failure_events. destruct (Z.ltb attempt (max_retries config)); split; reflexivity.
Qed.

Lemma download_attempts_audit pdf_link pdf_filename attempts s :
  let r := download_attempts config env pdf_link pdf_filename attempts s in
  match res r with
  | Val (Some _) =>
      csv_rows "good" (out r) = [success_row pdf_link] /\
      last (csv_rows "all" (out r)) = Some (success_row pdf_link)
  | Val None =>
      csv_rows "good" (out r) = [] /\
      last (csv_rows "bad" (out r)) = Some (exhausted_row pdf_link)
  | Exc _ => False
  end.
Proof.
  revert s. induction attempts as [|attempt rest IH]; intros s; cbn zeta.
  - rewrite download_attempts_nil. cbn [res out]. split; reflexivity.
  - assert (Hfail : forall s1 o1 e,
              csv_rows "good" o1 = [] ->
              let r := after (o1 ++ failure_events config pdf_link attempt e)
                         (download_attempts config env pdf_link pdf_filename rest s1) in
              match res r with
              | Val (Some _) =>
                  csv_rows "good" (out r) = [success_row pdf_link] /\
                  last (csv_rows "all" (out r)) = Some (success_row pdf_link)
              | Val None =>
                  csv_rows "good" (out r) = [] /\
                  last (csv_rows "bad" (out r)) = Some (exhausted_row pdf_link)
              | Exc _ => False
              end).
    { intros s1 o1 e Ho1. cbn zeta. specialize (IH s1). cbn zeta in IH.
      destruct (csv_rows_failure_events pdf_link attempt e) as [Hg Hb].
      unfold after. cbn [res out].
      destruct (res (download_attempts config env pdf_link pdf_filename rest s1))
        as [[name|]|e']; [| |exact IH]; destruct IH as [IH1 IH2];
        rewrite !csv_rows_app, ?Ho1, ?Hg, ?IH1; (split; [reflexivity|]);
        rewrite !last_app, IH2; reflexivity. }
    rewrite download_attempts_cons, attempt_download_run. cbn zeta.
    destruct (requests_get env (tick s) pdf_link) as [msg|status_code chunks broken].
    + cbn [res st out]. now apply Hfail.
    + destruct (Z.eqb status_code 200).
      * cbn zeta. destruct broken as [msg|];
          [|destruct (has_pdf_header (concat chunks))]; cbn [res st out].
        -- now apply Hfail.
        -- split; reflexivity.
        -- now apply Hfail.
      * cbn [res st out]. now apply Hfail.
Qed.

(** X4: the audit rows of a download, for a retry delay that [time.sleep]
    accepts.  A call of [download_pdf] that found nothing at the
    destination and went on to fetch begins the all file with the
    "Attempting" row; when it returns a file name, it has written exactly
    one row to the good file, the "Success" row, which is also the last row
    of the all file; when it returns [None], it has written no good row and
    the last bad row is "Maximum retries exceeded".  Any other call is a
    skipped download and writes one row, to the all file only. *)
Theorem download_pdf_audit_rows pdf_link s :
  accepted_by_sleep (retry_delay config) ->
  let r := download_pdf config env pdf_link s in
  (attempted pdf_link (out r) ->
   hd_error (csv_rows "all" (out r)) = Some [pdf_link; "Attempting"; "Download started"] /\
   match res r with
   | Val (Some _) =>
       csv_rows "good" (out r) = [success_row pdf_link] /\
       last (csv_rows "all" (out r)) = Some (success_row pdf_link)
   | Val None =>
       csv_rows "good" (out r) = [] /\
       last (csv_rows "bad" (out r)) = Some (exhausted_row pdf_link)
   | Exc _ => False
   end) /\
  (~ attempted pdf_link (out r) ->
   csv_rows "all" (out r) = [[pdf_link; "Skipped"; "PDF already exists"]] /\
   csv_rows "good" (out r) = [] /\ csv_rows "bad" (out r) = []).
Proof.
  intros _. cbn zeta. rewrite download_pdf_run. cbn zeta.
  destruct (bool_decide (is_Some (fs s !! _create_pdf_filename config pdf_link))).
  - split.
    + intros Hattempted. unfold attempted, skipped_events in Hattempted.
      cbn [out hd_error] in Hattempted. discriminate Hattempted.
    + intros _. repeat split.
  - split.
    + intros _.
      pose proof (download_attempts_audit pdf_link (_create_pdf_filename config pdf_link)
                    (seqZ 1 (max_retries config)) s) as Haudit.
      cbn zeta in Haudit. unfold after. cbn [res out]. split; [reflexivity|].
      destruct (res (download_attempts config env pdf_link
                       (_create_pdf_filename config pdf_link)
                       (seqZ 1 (max_retries config)) s)) as [[name|]|e];
        [| |exact Haudit]; destruct Haudit as [H1 H2];
        rewrite !csv_rows_app, ?H1; (split; [reflexivity|]);
        rewrite last_app, H2; reflexivity.
    + intros Hnot. destruct Hnot. reflexivity.
Qed.

(** X5: the destination depends on the last segment of the link only, so
    links that end in the same segment collide: once [download_pdf]
    returned a file for one of them, a call for the other is skipped
    without any request and returns that same file. *)
Theorem download_pdf_same_last_segment_skipped link1 link2 s name :
  List.last (split_on "/" link1) "" = List.last (split_on "/" link2) "" ->
  res (download_pdf config env link1 s) = Val (Some name) ->
  let s1 := st (download_pdf config env link1 s) in
  download_pdf config env link2 s1 = mkRun (Val (Some name)) s1 (skipped_events link2 name).
Proof.
  intros Hsame Hres. cbn zeta.
  destruct (download_pdf_returns_file config env link1 s name Hres) as [Hname Hex].
  assert (Hdest : _create_pdf_filename config link2 = name).
  { rewrite Hname. unfold _create_pdf_filename. cbn zeta. now rewrite Hsame. }
  rewrite download_pdf_run. cbn zeta. rewrite Hdest.
  now rewrite bool_decide_eq_true_2 by exact Hex.
Qed.

End DownloadPdfMore.

Lemma download_pdf_never_raises_witness :
  exists returned,
    res (PdfDownloader.download_pdf default_config offline a_pdf_url empty_state)
    = Val returned.
Proof.
  apply (download_pdf_never_raises default_config offline a_pdf_url empty_state).
  unfold accepted_by_sleep. cbn. lia.
Defined.


Lemma download_pdf_audit_rows_witness :
  let r := PdfDownloader.download_pdf default_config (serving (Response 200 [pdf_body] None))
             a_pdf_url empty_state in
  csv_rows "good" (out r) = [success_row a_pdf_url] /\
  csv_rows "all" (out (PdfDownloader.download_pdf default_config
                         (serving (Response 200 [pdf_body] None)) a_pdf_url (st r)))
  = [[a_pdf_url; "Skipped"; "PDF already exists"]].
Proof.
  assert (Hdelay : accepted_by_sleep (retry_delay default_config))
    by (unfold accepted_by_sleep; cbn; lia).
  cbn zeta. split.
  - destruct (download_pdf_audit_rows default_config
                (serving (Response 200 [pdf_body] None)) a_pdf_url empty_state Hdelay)
      as [H _].
    destruct (H eq_refl) as [_ Hrows].
    change (res (PdfDownloader.download_pdf default_config
                   (serving (Response 200 [pdf_body] None)) a_pdf_url empty_state))
      with (Val (Some a_pdf_path)) in Hrows.
    exact (proj1 Hrows).
  - destruct (download_pdf_audit_rows default_config
                (serving (Response 200 [pdf_body] None)) a_pdf_url
                (st (PdfDownloader.download_pdf default_config
                       (serving (Response 200 [pdf_body] None)) a_pdf_url empty_state))
                Hdelay)
      as [_ H].
    apply H. intros Hattempted. vm_compute in Hattempted. discriminate Hattempted.
Defined.

Lemma download_pdf_same_last_segment_skipped_witness :
  let env := serving (Response 200 [pdf_body] None) in
  let s1 := st (PdfDownloader.download_pdf default_config env a_pdf_url empty_state) in
  PdfDownloader.download_pdf default_config env a_mirror_url s1
  = mkRun (Val (Some a_pdf_path)) s1 (skipped_events a_mirror_url a_pdf_path).
Proof.
  apply (download_pdf_same_last_segment_skipped default_config
           (serving (Response 200 [pdf_body] None)) a_pdf_url a_mirror_url empty_state).
  - reflexivity.
  - vm_compute. reflexivity.
Defined.

(** * pdf_downloader.py: where [_create_pdf_filename] puts a download *)






(** * selenium_handler.py: further properties of [retry] and [click_element] *)

Lemma count_events_app p t1 t2 :
  count_events p (t1 ++ t2) = (count_events p t1 + count_events p t2)%nat.
Proof. unfold count_events. now rewrite List.filter_app, length_app. Qed.

Section RetryEdges.
Import SeleniumHandler.
Context {A : Type}.
Variables (max_tries delay backoff : Z).
Variable exceptions : Exn -> bool.
Variable func : M A.

(** X7: the ends of the [retry] wrapper.  With [max_tries] zero or
    negative the function is never called and the wrapper returns [None];
    otherwise a first call that returns ends the loop with its value, and a
    first call that raises an exception outside [exceptions] lets it through
    at once: in both cases the function ran once and nothing was waited
    for. *)
Theorem retry_ends_at_once s :
  (max_tries <= 0 -> retry max_tries delay backoff exceptions func s = mkRun (Val None) s [])
  /\
  (0 < max_tries ->
   forall a, res (func s) = Val a ->
     retry max_tries delay backoff exceptions func s
     = mkRun (Val (Some a)) (st (func s)) (out (func s)))
  /\
  (0 < max_tries ->
   forall e, res (func s) = Exc e -> exceptions e = false ->
     retry max_tries delay backoff exceptions func s
     = mkRun (Exc e) (st (func s)) (out (func s))).
Proof.
  unfold retry. split; [|split].
  - intros Hle. replace (Z.to_nat max_tries) with 0%nat by lia. reflexivity.
  - intros Hpos a Ha.
    replace (Z.to_nat max_tries) with (S (Z.to_nat (max_tries - 1))) by lia.
    cbn [retry_loop]. unfold try_except, bind.
    destruct (func s) as [[a'|e] s1 o1]; cbn [res st out] in *; [|discriminate].
    injection Ha as ->. unfold after, ret. cbn [res st out]. now rewrite app_nil_r.
  - intros Hpos e He Hcatch.
    replace (Z.to_nat max_tries) with (S (Z.to_nat (max_tries - 1))) by lia.
    cbn [retry_loop]. unfold try_except, bind.
    destruct (func s) as [[a'|e'] s1 o1]; cbn [res st out] in *; [discriminate|].
    injection He as ->. now rewrite Hcatch.
Qed.

End RetryEdges.

Lemma retry_ends_at_once_witness :
  SeleniumHandler.click_element click_times_out "submit" empty_state
  = mkRun (Exc (mkExn TimeoutException "Message: ")) (next_tick empty_state)
      [Click "submit"; LogError "Element not clickable or not found: submit" PARSING].
Proof.
  destruct (retry_ends_at_once 3 1 2
              (SeleniumHandler.is_class ElementClickInterceptedException)
              (SeleniumHandler.click_element_once click_times_out "submit") empty_state)
    as (_ & _ & H).
  apply (H ltac:(lia) (mkExn TimeoutException "Message: ")); reflexivity.
Defined.

Section RetryCount.
Import SeleniumHandler.
Context {A : Type}.
Variables (max_tries delay backoff : Z).
Variable exceptions : Exn -> bool.
Variable func : M A.
Variable p : Event -> bool.
Hypothesis wait_not_counted : forall d, p (Sleep d) = false.
Hypothesis one_per_call : forall s, (count_events p (out (func s)) <= 1)%nat.

Lemma retry_loop_count n tries s :
  (count_events p (out (retry_loop max_tries delay backoff exceptions func n tries s)) <= n)%nat.
Proof.
  revert tries s. induction n as [|n IH]; intros tries s; [cbn; lia|].
  cbn [retry_loop]. unfold try_except, bind.
  pose proof (one_per_call s) as Hone.
  destruct (func s) as [[a|e] s1 o1]; cbn [res st out] in *.
  - unfold after, ret. cbn [res st out]. rewrite app_nil_r. lia.
  - destruct (exceptions e); [|cbn [res st out]; lia].
    cbn zeta. destruct (Z.eqb (tries + 1) max_tries).
    + unfold after, raise. cbn [res st out]. rewrite app_nil_r. lia.
    + unfold after, sleep, emit. cbn [res st out].
      specialize (IH (tries + 1) s1).
      rewrite !count_events_app. unfold count_events at 2. cbn [List.filter].
      rewrite wait_not_counted. cbn [length]. lia.
Qed.

End RetryCount.

Section ClickElement.
Import SeleniumHandler.
Variable env : Env.

Lemma click_element_once_run locator s :
  click_element_once env locator s =
  match click_outcome env (tick s) with
  | None => mkRun (Val tt) (next_tick s) [Click locator; LogInfo ("Clicked element: " +:+ locator)]
  | Some e =>
      mkRun (Exc e) (next_tick s)
        (Click locator ::
         if timeout_or_no_such_element e
         then [LogError ("Element not clickable or not found: " +:+ locator) PARSING]
         else [])
  end.
Proof.
  unfold click_element_once, try_except. run_head.
  destruct (click_outcome env (tick s)) as [e|]; cbn [raise log_info emit after res st out].
  - destruct (timeout_or_no_such_element e); [|reflexivity].
    run_head. reflexivity.
  - reflexivity.
Qed.

(** X8: in any world [click_element] clicks at most three times, and
    between the clicks it waits 1 second and then 2 seconds, never more. *)
Theorem click_element_bounded locator s :
  let r := click_element env locator s in
  (count_events is_click (out r) <= 3)%nat /\
  (sleeps (out r) = [] \/ sleeps (out r) = [1] \/ sleeps (out r) = [1; 2]).
Proof.
  cbn zeta. unfold click_element, retry.
  assert (Hone : forall s', (count_events is_click
                              (out (click_element_once env locator s')) <= 1)%nat).
  { intros s'. rewrite click_element_once_run.
    destruct (click_outcome env (tick s')) as [e|]; [|cbn; lia].
    destruct (timeout_or_no_such_element e); cbn; lia. }
  assert (Hquiet : forall s', sleeps (out (click_element_once env locator s')) = []).
  { intros s'. rewrite click_element_once_run.
    destruct (click_outcome env (tick s')) as [e|]; [|reflexivity].
    destruct (timeout_or_no_such_element e); reflexivity. }
  split.
  - apply (retry_loop_count 3 1 2 _ _ is_click); [reflexivity|exact Hone].
  - destruct (retry_loop_sleeps 3 1 2 (is_class ElementClickInterceptedException)
                (click_element_once env locator) Hquiet (Z.to_nat 3) 0 s eq_refl)
      as (k & Hk & Hs).
    rewrite Hs. destruct k as [|[|[|k]]]; [left|right; left|right; right|lia]; reflexivity.
Qed.

Lemma retry_round_intercepted locator n tries s e :
  click_outcome env (tick s) = Some e ->
  exn_class e = ElementClickInterceptedException ->
  retry_loop 3 1 2 (is_class ElementClickInterceptedException)
    (click_element_once env locator) (S n) tries s
  = if Z.eqb (tries + 1) 3 then mkRun (Exc e) (next_tick s) [Click locator]
    else after [Click locator; Sleep (1 * 2 ^ (tries + 1 - 1))]
           (retry_loop 3 1 2 (is_class ElementClickInterceptedException)
              (click_element_once env locator) n (tries + 1) (next_tick s)).
Proof.
  intros Hclick Hclass.
  assert (T : timeout_or_no_such_element e = false).
  { unfold timeout_or_no_such_element, is_class. now rewrite Hclass. }
  assert (I : is_class ElementClickInterceptedException e = true).
  { unfold is_class. now rewrite Hclass. }
  cbn [retry_loop]. unfold try_except, bind.
  rewrite click_element_once_run, Hclick, T. cbn [res st out]. rewrite I. cbn zeta.
  destruct (Z.eqb (tries + 1) 3); unfold after, raise, sleep, emit; cbn [res st out].
  - now rewrite app_nil_r.
  - reflexivity.
Qed.

(** X9: when three clicks in a row are intercepted by another element,
    [click_element] has clicked three times, waited 1 and 2 seconds in
    between, and raises what the third click raised. *)
Theorem click_element_gives_up locator s e1 e2 e3 :
  click_outcome env (tick s) = Some e1 ->
  click_outcome env (S (tick s)) = Some e2 ->
  click_outcome env (S (S (tick s))) = Some e3 ->
  exn_class e1 = ElementClickInterceptedException ->
  exn_class e2 = ElementClickInterceptedException ->
  exn_class e3 = ElementClickInterceptedException ->
  click_element env locator s
  = mkRun (Exc e3) (next_tick (next_tick (next_tick s)))
      [Click locator; Sleep 1; Click locator; Sleep 2; Click locator].
Proof.
  intros H1 H2 H3 C1 C2 C3.
  unfold click_element, retry. change (Z.to_nat 3) with 3%nat.
  rewrite (retry_round_intercepted locator _ _ _ e1 H1 C1).
  change (Z.eqb (0 + 1) 3) with false. cbn iota.
  rewrite (retry_round_intercepted locator _ _ (next_tick s) e2 H2 C2).
  change (Z.eqb (0 + 1 + 1) 3) with false. cbn iota.
  rewrite (retry_round_intercepted locator _ _ (next_tick (next_tick s)) e3 H3 C3).
  change (Z.eqb (0 + 1 + 1 + 1) 3) with true. cbn iota.
  reflexivity.
Qed.

End ClickElement.

Lemma click_element_gives_up_witness :
  SeleniumHandler.click_element intercepting "submit" empty_state
  = mkRun (Exc (mkExn ElementClickInterceptedException "element click intercepted"))
      (next_tick (next_tick (next_tick empty_state)))
      [Click "submit"; Sleep 1; Click "submit"; Sleep 2; Click "submit"].
Proof.
  apply (click_element_gives_up intercepting "submit" empty_state
           (mkExn ElementClickInterceptedException "element click intercepted")
           (mkExn ElementClickInterceptedException "element click intercepted"));
    reflexivity.
Defined.

(** * captcha_handler.py: further properties of [solve_captcha] *)

Section RaisesOnly.
Variable line : Exn -> Event.

Lemma raises_only_catch_all {A} (m : M A) handler :
  (forall e, raises_only line (handler e)) ->
  raises_only line (try_except m any_exception handler).
Proof.
  intros Hh s e. unfold try_except.
  destruct (m s) as [[a|e'] s1 o1]; cbn [res st out any_exception after]; [discriminate|].
  intros He. apply elem_of_app. right. now apply Hh.
Qed.

End RaisesOnly.

Section Preserves.
Variable R : State -> State -> Prop.
Hypothesis R_refl : forall s, R s s.
Hypothesis R_trans : forall s1 s2 s3, R s1 s2 -> R s2 s3 -> R s1 s3.
Hypothesis R_tick : forall s, R s (next_tick s).

Lemma preserves_ret {A} (a : A) : preserves R (ret a).
Proof. intros s. apply R_refl. Qed.

Lemma preserves_raise {A} e : preserves R (@raise A e).
Proof. intros s. apply R_refl. Qed.


Lemma preserves_emit e : preserves R (emit e).
Proof. intros s. apply R_refl. Qed.

Lemma preserves_ask {A} (answer : nat -> A) e : preserves R (ask answer e).
Proof. intros s. apply R_tick. Qed.


Lemma preserves_bind {A B} (m : M A) (k : A -> M B) :
  preserves R m -> (forall a, preserves R (k a)) -> preserves R (bind m k).
Proof.
  intros Hm Hk s. unfold bind. specialize (Hm s).
  destruct (m s) as [[a|e] s1 o1]; cbn [res st out after] in *; [|exact Hm].
  eapply R_trans; [exact Hm|apply Hk].
Qed.

Lemma preserves_try_except {A} (m : M A) catches handler :
  preserves R m -> (forall e, preserves R (handler e)) ->
  preserves R (try_except m catches handler).
Proof.
  intros Hm Hh s. unfold try_except. specialize (Hm s).
  destruct (m s) as [[a|e] s1 o1]; cbn [res st out after] in *; [exact Hm|].
  destruct (catches e); [|exact Hm]. cbn [after st].
  eapply R_trans; [exact Hm|apply Hh].
Qed.


Lemma preserves_retry_loop {A} max_tries delay backoff exceptions (func : M A) n tries :
  preserves R func ->
  preserves R (SeleniumHandler.retry_loop max_tries delay backoff exceptions func n tries).
Proof.
  intros Hf. revert tries. induction n as [|n IH]; intros tries.
  - apply preserves_ret.
  - cbn [SeleniumHandler.retry_loop]. apply preserves_try_except.
    + apply preserves_bind; [exact Hf|]. intros a. apply preserves_ret.
    + intros e. cbn zeta. destruct (Z.eqb (tries + 1) max_tries).
      * apply preserves_raise.
      * apply preserves_bind; [apply preserves_emit|]. intros _. apply IH.
Qed.

End Preserves.







Section SolveCaptchaMore.
Import SeleniumHandler CaptchaHandler.
Variable config : Config.
Variable env : Env.

Lemma clean_up_captcha_file_run s :
  clean_up_captcha_file config s =
  if bool_decide (is_Some (fs s !! captcha_image_path config)) then
    mkRun (Val tt) (set_fs (delete (captcha_image_path config)) s)
      [LogInfo ("Deleted CAPTCHA image: " +:+ captcha_image_path config)]
  else
    mkRun (Val tt) s
      [LogWarning ("CAPTCHA image not found for deletion: " +:+ captcha_image_path config)].
Proof.
  unfold clean_up_captcha_file, path_exists. run_heads.
  destruct (bool_decide _); run_heads; reflexivity.
Qed.

Lemma clean_up_captcha_file_never_raises : never_raises (clean_up_captcha_file config).
Proof.
  intros s. rewrite clean_up_captcha_file_run. destruct (bool_decide _); now exists tt.
Qed.



Lemma fetch_captcha_file_raises_only :
  raises_only fetch_error_line (fetch_captcha_file config env).
Proof.
  unfold fetch_captcha_file. apply raises_only_catch_all.
  intros e s e'. erewrite bind_val by reflexivity.
  cbn [log_error emit raise after res st out]. intros [= <-].
  apply elem_of_cons. now left.
Qed.

(** X11: a failure to fetch the CAPTCHA image is never retried.  When
    [fetch_captcha_file] raises, [solve_captcha] does nothing more than
    clean up: it raises that same exception, which was logged as "Error
    fetching CAPTCHA", with whatever number of tries it was called; no
    solver is asked and nothing is submitted. *)
Theorem solve_captcha_raises_fetch_errors_at_once tries_remaining s e :
  res (fetch_captcha_file config env s) = Exc e ->
  let fetched := fetch_captcha_file config env s in
  let cleaned := clean_up_captcha_file config (st fetched) in
  solve_captcha config env tries_remaining s
  = mkRun (Exc e) (st cleaned) (out fetched ++ out cleaned) /\
  fetch_error_line e ∈ out fetched.
Proof.
  intros Hfetch. cbn zeta. split; [|now apply fetch_captcha_file_raises_only].
  rewrite solve_captcha_unfold. unfold solve_captcha_body, try_finally. cbn zeta.
  rewrite (bind_exc _ _ _ _ Hfetch). cbn [res st out].
  destruct (clean_up_captcha_file_never_raises (st (fetch_captcha_file config env s)))
    as [[] Hclean].
  now rewrite Hclean.
Qed.

Lemma solve_captcha_body_not_post recurse tries_remaining :
  ai_not_configured config = true ->
  emits not_post recurse ->
  emits not_post (solve_captcha_body config env recurse tries_remaining).
Proof.
  intros Hcfg Hrec.
  unfold solve_captcha_body, obtain_solution, submit_solution, solve_captcha_with_ai,
    fetch_captcha_file, enter_captcha_solution, clean_up_captcha_file,
    solve_captcha_manually, submit_form, fill_input_field, wait_for_element,
    wait_for_page_load, driver_page_source.
  rewrite Hcfg.
  repeat first [exact Hrec
               | apply emits_retry_loop; [reflexivity|unfold click_element_once]
               | progress unfold click_element, retry
               | emits_step].
Qed.

(** X12: without a configured solving service (no URL or no API key),
    [solve_captcha] never sends a request to the service, with whatever
    number of tries it is called. *)
Theorem solve_captcha_unconfigured_never_posts tries_remaining s :
  ai_not_configured config = true ->
  Forall not_post (out (solve_captcha config env tries_remaining s)).
Proof.
  intros Hcfg. revert s.
  change (emits not_post (solve_captcha config env tries_remaining)).
  unfold solve_captcha. generalize (Z.to_nat (tries_remaining - 1)). intros depth.
  revert tries_remaining. induction depth as [|depth IH]; intros tries_remaining;
    cbn [solve_captcha_depth]; apply solve_captcha_body_not_post; auto.
  apply emits_ret.
Qed.

End SolveCaptchaMore.

Lemma solve_captcha_raises_fetch_errors_at_once_witness :
  res (CaptchaHandler.solve_captcha default_config offline 3 empty_state)
  = Exc (mkExn TimeoutException "Message: ").
Proof.
  destruct (solve_captcha_raises_fetch_errors_at_once default_config offline 3 empty_state
              (mkExn TimeoutException "Message: ")) as [Hrun _].
  - vm_compute. reflexivity.
  - rewrite Hrun. reflexivity.
Defined.

Lemma solve_captcha_unconfigured_never_posts_witness :
  Forall not_post
    (out (CaptchaHandler.solve_captcha without_ai_service (captcha_world "X7K2" "Results") 3
            empty_state)).
Proof. apply solve_captcha_unconfigured_never_posts. reflexivity. Defined.

(** * captcha_handler.py: fetching the image and submitting the solution *)

Section FetchAndEnter.
Import SeleniumHandler CaptchaHandler.
Variable config : Config.
Variable env : Env.

Lemma wait_for_element_run locator s :
  wait_for_element config env locator s =
  match element_src env (tick s) locator with
  | inl e =>
      mkRun (Exc e) (next_tick s)
        (WaitElement locator ::
         if is_class TimeoutException e
         then [LogError ("Element not found within " +:+ pretty (element_timeout config)
                         +:+ " seconds: " +:+ locator) PARSING]
         else [])
  | inr element =>
      mkRun (Val element) (next_tick s)
        [WaitElement locator; LogInfo ("Element located: " +:+ locator)]
  end.
Proof.
  unfold wait_for_element, try_except. run_head.
  destruct (element_src env (tick s) locator) as [e|element];
    cbn [raise log_info emit after res st out].
  - destruct (is_class TimeoutException e); [|reflexivity]. run_head. reflexivity.
  - reflexivity.
Qed.

(** X13: what [fetch_captcha_file] leaves behind.  When it returns, the
    element was found, the GET of its [src] was answered with status 200 and
    a complete body, and the image file holds exactly that body.  When it
    raises, the exception was logged as "Error fetching CAPTCHA" and the
    image file is as it was, except that a body that breaks off after a 200
    status leaves the file created and empty.  No other file is touched. *)
Theorem fetch_captcha_file_outcome s :
  let r := fetch_captcha_file config env s in
  let path := captcha_image_path config in
  (forall p, p <> path -> fs (st r) !! p = fs s !! p) /\
  match res r with
  | Val _ =>
      exists src chunks,
        element_src env (tick s) (captcha_id config) = inr src /\
        requests_get env (S (tick s)) src = Response 200 chunks None /\
        fs (st r) !! path = Some (concat chunks)
  | Exc e =>
      fetch_error_line e ∈ out r /\
      (fs (st r) !! path = fs s !! path \/
       (fs (st r) !! path = Some [] /\
        exists src chunks msg,
          requests_get env (S (tick s)) src = Response 200 chunks (Some msg)))
  end.
Proof.
  cbn zeta. unfold fetch_captcha_file.
  match goal with |- context [try_except ?m _ _] => set (body := m) end.
  assert (Hbody :
    (forall p, p <> captcha_image_path config -> fs (st (body s)) !! p = fs s !! p) /\
    match res (body s) with
    | Val _ =>
        exists src chunks,
          element_src env (tick s) (captcha_id config) = inr src /\
          requests_get env (S (tick s)) src = Response 200 chunks None /\
          fs (st (body s)) !! captcha_image_path config = Some (concat chunks)
    | Exc e =>
        fs (st (body s)) !! captcha_image_path config = fs s !! captcha_image_path config \/
        (fs (st (body s)) !! captcha_image_path config = Some [] /\
         exists src chunks msg,
           requests_get env (S (tick s)) src = Response 200 chunks (Some msg))
    end).
  { subst body. cbv beta.
    erewrite bind_val by reflexivity. cbn [log_info emit res st out].
    pose proof (wait_for_element_run (captcha_id config) s) as Hwait.
    destruct (element_src env (tick s) (captcha_id config)) as [e|src].
    - erewrite bind_exc by (rewrite Hwait; reflexivity). rewrite Hwait.
      cbn [res st out after next_tick fs]. split; [reflexivity|now left].
    - erewrite bind_val by (rewrite Hwait; reflexivity). rewrite Hwait.
      cbn [res st out after].
      erewrite bind_val by reflexivity. cbn [ask after res st out next_tick tick].
      destruct (requests_get env (S (tick s)) src) as [msg|status_code chunks broken] eqn:Hget;
        cbn [raise res st out fs].
      + split; [reflexivity|now left].
      + destruct (Z.eqb_spec status_code 200) as [->|Hne].
        * erewrite bind_val by reflexivity. cbn [modify_fs after res st out].
          destruct broken as [msg|]; cbn [raise res st out set_fs fs].
          -- split; [intros p Hp; now rewrite lookup_insert_ne by congruence|].
             right. split; [apply lookup_insert_eq|]. eauto.
          -- erewrite bind_val by reflexivity.
             cbn [modify_fs log_info emit after res st out set_fs fs].
             split; [intros p Hp; now rewrite !lookup_insert_ne by congruence|].
             exists src, chunks. repeat split; auto. apply lookup_insert_eq.
        * cbn [raise res st out fs]. split; [reflexivity|now left]. }
  destruct Hbody as [Hothers Hres].
  destruct (res (body s)) as [[]|e] eqn:Hrun.
  - erewrite try_except_val by exact Hrun. rewrite Hrun. auto.
  - erewrite try_except_caught by (exact Hrun || reflexivity).
    erewrite bind_val by reflexivity.
    cbn [log_error emit raise after res st out].
    split; [exact Hothers|]. split; [|exact Hres].
    apply elem_of_app. right. apply elem_of_cons. now left.
Qed.

End FetchAndEnter.

Section EnterMore.
Import SeleniumHandler CaptchaHandler.
Variable config : Config.
Variable env : Env.

(** X14: with a retry delay that [time.sleep] accepts (the wait for the
    result of the submission is of that length), [enter_captcha_solution]
    answers [True] exactly when filling the field and submitting the form
    both went through, the page source could be read afterwards, and it
    does not contain "Invalid CAPTCHA".  Every other run (an exception
    anywhere, or the marker on the page) gives [False]. *)
Theorem enter_captcha_solution_accepts_iff solution s :
  accepted_by_sleep (retry_delay config) ->
  let done := fill_and_submit config env solution s in
  res (enter_captcha_solution config env solution s) = Val true <->
  res done = Val tt /\
  exists page,
    page_source env (tick (st done)) = inr page /\
    str_contains "Invalid CAPTCHA" page = false.
Proof.
  intros _. cbn zeta. rewrite enter_captcha_solution_assoc.
  destruct (res (fill_and_submit config env solution s)) as [[]|e] eqn:Hdone.
  - match goal with |- res (try_except ?m _ _ s) = _ <-> _ => set (body := m) end.
    assert (Hbody : body s =
      after (out (fill_and_submit config env solution s))
        (after [Sleep (retry_delay config); ReadPageSource]
           (match page_source env (tick (st (fill_and_submit config env solution s))) with
            | inl e => mkRun (Exc e) (next_tick (st (fill_and_submit config env solution s))) []
            | inr page =>
                if str_contains "Invalid CAPTCHA" page
                then mkRun (Val false) (next_tick (st (fill_and_submit config env solution s)))
                       [LogWarning "CAPTCHA solution incorrect."]
                else mkRun (Val true) (next_tick (st (fill_and_submit config env solution s))) []
            end))).
    { subst body. cbv beta. erewrite bind_val by exact Hdone. f_equal.
      erewrite bind_val by reflexivity. cbn [sleep emit after res st out].
      unfold driver_page_source. rewrite bind_assoc.
      erewrite bind_val by reflexivity. cbn [ask after res st out].
      destruct (page_source env _) as [e|page]; cbn [raise ret].
      - erewrite bind_exc by reflexivity. reflexivity.
      - rewrite bind_ret_l. destruct (str_contains "Invalid CAPTCHA" page).
        + erewrite bind_val by reflexivity. reflexivity.
        + reflexivity. }
    destruct (page_source env (tick (st (fill_and_submit config env solution s))))
      as [e|page] eqn:Hpage.
    + assert (Hr : res (body s) = Exc e) by (rewrite Hbody; reflexivity).
      rewrite (try_except_caught _ _ _ _ _ Hr eq_refl).
      erewrite bind_val by reflexivity. cbn [log_error emit ret after res st out].
      split; [discriminate|]. intros (_ & page & Hp & _). discriminate Hp.
    + destruct (str_contains "Invalid CAPTCHA" page) eqn:Hmarker.
      * assert (Hr : res (body s) = Val false) by (rewrite Hbody; reflexivity).
        rewrite (try_except_val _ _ _ _ _ Hr), Hr. split; [discriminate|].
        intros (_ & page' & Hp & Hm). congruence.
      * assert (Hr : res (body s) = Val true) by (rewrite Hbody; reflexivity).
        rewrite (try_except_val _ _ _ _ _ Hr), Hr.
        split; [|reflexivity]. intros _. split; [reflexivity|].
        exists page. auto.
  - erewrite try_except_caught;
      [|erewrite bind_exc by exact Hdone; reflexivity|reflexivity].
    erewrite bind_exc by exact Hdone. cbn [res st out].
    erewrite bind_val by reflexivity. cbn [log_error emit ret after res st out].
    split; [discriminate|]. intros [H _]. discriminate H.
Qed.

End EnterMore.

Lemma enter_captcha_solution_accepts_iff_witness :
  res (CaptchaHandler.enter_captcha_solution default_config (captcha_world "X7K2" "Results")
         "X7K2" empty_state) = Val true.
Proof.
  apply (enter_captcha_solution_accepts_iff default_config (captcha_world "X7K2" "Results")
           "X7K2" empty_state).
  - unfold accepted_by_sleep. cbn. lia.
  - split; [vm_compute; reflexivity|]. exists "Results". split; reflexivity.
Defined.

(** * captcha_handler.py: how many attempts [solve_captcha] makes *)

Section AtMost.
Variable p : Event -> bool.

Lemma emits_at_most {A} (m : M A) : emits (fun e => p e = false) m -> at_most p 0 m.
Proof.
  intros Hm s. specialize (Hm s). unfold count_events.
  induction Hm as [|e t He _ IH]; cbn [List.filter length]; [lia|].
  rewrite He. exact IH.
Qed.

Lemma at_most_weaken {A} (m : M A) n n' : (n <= n')%nat -> at_most p n m -> at_most p n' m.
Proof. intros Hle Hm s. specialize (Hm s). lia. Qed.

Lemma count_events_bind {A B} (m : M A) (k : A -> M B) s :
  count_events p (out (bind m k s)) =
  (count_events p (out (m s)) +
   match res (m s) with
   | Val a => count_events p (out (k a (st (m s))))
   | Exc _ => 0
   end)%nat.
Proof.
  unfold bind. destruct (res (m s)); cbn [after out].
  - apply count_events_app.
  - lia.
Qed.

Lemma count_events_try_finally {A} (m : M A) cleanup s :
  count_events p (out (try_finally m cleanup s)) =
  (count_events p (out (m s)) + count_events p (out (cleanup (st (m s)))))%nat.
Proof.
  unfold try_finally. cbn zeta.
  destruct (res (cleanup (st (m s)))); cbn [out]; apply count_events_app.
Qed.

Lemma at_most_bind {A B} (m : M A) (k : A -> M B) n1 n2 :
  at_most p n1 m -> (forall a, at_most p n2 (k a)) -> at_most p (n1 + n2) (bind m k).
Proof.
  intros Hm Hk s. rewrite count_events_bind. specialize (Hm s).
  destruct (res (m s)) as [a|e]; [specialize (Hk a (st (m s)))|]; lia.
Qed.

Lemma at_most_try_except {A} (m : M A) catches handler n1 n2 :
  at_most p n1 m -> (forall e, at_most p n2 (handler e)) ->
  at_most p (n1 + n2) (try_except m catches handler).
Proof.
  intros Hm Hh s. unfold try_except. specialize (Hm s).
  destruct (res (m s)) as [a|e]; [lia|].
  destruct (catches e); [|lia].
  cbn [after out]. rewrite count_events_app. specialize (Hh e (st (m s))). lia.
Qed.

End AtMost.

Section CaptchaAttempts.
Import SeleniumHandler CaptchaHandler.
Variable config : Config.
Variable env : Env.

Section OneKind.
Variable p : Event -> bool.
Variables fetches enters : nat.
Hypothesis p_fetch : at_most p fetches (fetch_captcha_file config env).
Hypothesis p_enter : forall solution,
  at_most p enters (enter_captcha_solution config env solution).
Hypothesis p_once : (fetches + enters <= 1)%nat.
Hypothesis p_ai : at_most p 0 (solve_captcha_with_ai config env).
Hypothesis p_manual : at_most p 0 (solve_captcha_manually env).
Hypothesis p_clean : at_most p 0 (clean_up_captcha_file config).
Hypothesis p_log : forall msg, p (LogInfo msg) = false.

Lemma log_info_at_most msg : at_most p 0 (log_info msg).
Proof. intros s. unfold count_events. cbn. now rewrite p_log. Qed.

Lemma ret_at_most {A} (a : A) : at_most p 0 (ret a).
Proof. intros s. unfold count_events. cbn. lia. Qed.

(** Either [obtain_solution] went into the nested call, and then it hands
    back that call's answer and not a solution; or it emitted nothing of
    kind [p]. *)
Lemma obtain_solution_count recurse tries_remaining n s :
  at_most p n recurse ->
  let r := obtain_solution config env recurse tries_remaining s in
  (count_events p (out r) <= n)%nat /\
  (forall solution, res r = Val (inr solution) -> count_events p (out r) = 0%nat).
Proof.
  intros Hrec. cbn zeta. unfold obtain_solution.
  destruct (Z.eqb tries_remaining 1).
  - assert (H0 : at_most p (0 + (0 + 0))
        (log_info "One try remaining. Resorting to manual CAPTCHA solving." ;;
         solution <- solve_captcha_manually env ;; ret (inr (A:=bool) solution))).
    { apply at_most_bind; [apply log_info_at_most|]. intros _.
      apply at_most_bind; [apply p_manual|]. intros solution. apply ret_at_most. }
    specialize (H0 s). cbn [Nat.add] in H0. split; [lia|]. intros _ _. lia.
  - rewrite count_events_bind. erewrite bind_val by reflexivity.
    cbn [log_info emit res st out after]. unfold count_events at 1 3.
    cbn [List.filter]. rewrite p_log. cbn [length Nat.add].
    match goal with |- context [try_except ?m _ ?h s] => set (body := m); set (handler := h) end.
    assert (Hbody : (count_events p (out (body s)) <= 0)%nat).
    { assert (H0 : at_most p (0 + 0) body).
      { apply at_most_bind; [apply p_ai|]. intros solution. apply ret_at_most. }
      apply H0. }
    destruct (res (body s)) as [v|e] eqn:Hrun.
    + rewrite (try_except_val _ _ _ _ _ Hrun). split; [lia|]. intros _ _. lia.
    + rewrite (try_except_caught _ _ _ _ _ Hrun eq_refl).
      cbn [after res out]. rewrite count_events_app. subst handler. cbv beta.
      destruct (Z.ltb 0 (tries_remaining - 1)).
      * rewrite count_events_bind. specialize (Hrec (st (body s))).
        destruct (res (recurse (st (body s)))) as [returned|e'] eqn:Hreturned.
        -- erewrite bind_val by exact Hreturned. cbn [ret after res out].
           unfold count_events at 3. cbn [List.filter length].
           split; [lia|]. intros solution H. discriminate H.
        -- erewrite bind_exc by exact Hreturned. cbn [res].
           split; [lia|]. intros solution H. discriminate H.
      * assert (H0 : at_most p (0 + 0)
            (solution <- solve_captcha_manually env ;; ret (inr (A:=bool) solution))).
        { apply at_most_bind; [apply p_manual|]. intros solution. apply ret_at_most. }
        specialize (H0 (st (body s))). cbn [Nat.add] in H0.
        split; [lia|]. intros _ _. lia.
Qed.

Lemma submit_solution_count recurse tries_remaining solution n :
  at_most p n recurse ->
  at_most p (enters + n) (submit_solution config env recurse tries_remaining solution).
Proof.
  intros Hrec. unfold submit_solution.
  apply at_most_bind; [apply p_enter|]. intros [|].
  - apply (at_most_weaken _ _ (0 + 0)); [lia|].
    apply at_most_bind; [apply log_info_at_most|]. intros _. apply ret_at_most.
  - destruct (Z.ltb 1 tries_remaining); [exact Hrec|].
    apply (at_most_weaken _ _ 0); [lia|]. apply ret_at_most.
Qed.

Lemma solve_captcha_body_count recurse tries_remaining n :
  at_most p n recurse ->
  at_most p (S n) (solve_captcha_body config env recurse tries_remaining).
Proof.
  intros Hrec s. unfold solve_captcha_body.
  rewrite count_events_try_finally.
  match goal with |- context [clean_up_captcha_file config ?s'] =>
    pose proof (p_clean s') as Hclean
  end.
  rewrite count_events_bind. pose proof (p_fetch s) as Hfetch.
  destruct (res (fetch_captcha_file config env s)) as [[]|e]; [|lia].
  rewrite count_events_bind.
  destruct (obtain_solution_count recurse tries_remaining n
              (st (fetch_captcha_file config env s)) Hrec) as [Hle Hzero].
  destruct (res (obtain_solution config env recurse tries_remaining
                   (st (fetch_captcha_file config env s)))) as [[returned|solution]|e];
    [| |lia].
  - pose proof (ret_at_most returned
      (st (obtain_solution config env recurse tries_remaining
             (st (fetch_captcha_file config env s))))) as Hret.
    lia.
  - specialize (Hzero solution eq_refl).
    pose proof (submit_solution_count recurse tries_remaining solution n Hrec
      (st (obtain_solution config env recurse tries_remaining
             (st (fetch_captcha_file config env s))))) as Hsubmit.
    lia.
Qed.

Lemma solve_captcha_depth_count depth tries_remaining :
  at_most p (S depth) (solve_captcha_depth config env depth tries_remaining).
Proof.
  revert tries_remaining. induction depth as [|d IH]; intros tries_remaining;
    cbn [solve_captcha_depth]; apply solve_captcha_body_count.
  - apply ret_at_most.
  - apply IH.
Qed.

End OneKind.

Lemma clean_up_captcha_file_emits_logs P :
  (forall msg, P (LogInfo msg)) -> (forall msg, P (LogWarning msg)) ->
  emits P (clean_up_captcha_file config).
Proof.
  intros Hinfo Hwarn s. rewrite clean_up_captcha_file_run.
  destruct (bool_decide _); cbn [out]; repeat constructor; auto.
Qed.

Lemma fetch_captcha_file_waits_once :
  at_most is_wait_element 1 (fetch_captcha_file config env).
Proof.
  unfold fetch_captcha_file.
  apply (at_most_try_except _ _ _ _ 1 0).
  - apply (at_most_bind _ _ _ 0 1); [apply emits_at_most; emits_step|]. intros _.
    apply (at_most_bind _ _ _ 1 0).
    + intros s. rewrite wait_for_element_run.
      destruct (element_src env (tick s) (captcha_id config)) as [e|src]; cbn [out];
        [destruct (is_class TimeoutException e)|]; unfold count_events; cbn; lia.
    + intros captcha_src. apply emits_at_most. repeat emits_step.
  - intros e. apply emits_at_most. repeat emits_step.
Qed.

Lemma enter_captcha_solution_fills_once solution :
  at_most is_fill_input 1 (enter_captcha_solution config env solution).
Proof.
  unfold enter_captcha_solution.
  apply (at_most_try_except _ _ _ _ 1 0).
  - apply (at_most_bind _ _ _ 1 0).
    + unfold fill_input_field. apply (at_most_try_except _ _ _ _ 1 0).
      * apply (at_most_bind _ _ _ 1 0).
        -- intros s. unfold count_events. cbn. lia.
        -- intros r. apply emits_at_most. repeat emits_step.
      * intros e. apply emits_at_most. repeat emits_step.
    + intros _. apply emits_at_most.
      unfold submit_form, wait_for_page_load, driver_page_source, click_element, retry.
      repeat first [apply emits_retry_loop; [reflexivity|unfold click_element_once]
                   | emits_step].
  - intros e. apply emits_at_most. repeat emits_step.
Qed.

(** X15: [solve_captcha] makes at most [max(1, tries_remaining)] attempts:
    it looks the image element up (once per fetch) at most that many times
    and types at most that many solutions into the form, whatever the page,
    the solving service and the user answer.  So the nested calls end, and
    there is always room for one attempt, also with no tries left. *)
Theorem solve_captcha_attempts_bounded tries_remaining s :
  let r := solve_captcha config env tries_remaining s in
  (count_events is_wait_element (out r) <= Z.to_nat (Z.max 1 tries_remaining))%nat /\
  (count_events is_fill_input (out r) <= Z.to_nat (Z.max 1 tries_remaining))%nat.
Proof.
  cbn zeta. unfold solve_captcha.
  replace (Z.to_nat (Z.max 1 tries_remaining)) with (S (Z.to_nat (tries_remaining - 1)))
    by lia.
  split.
  - apply (solve_captcha_depth_count is_wait_element 1 0).
    + apply fetch_captcha_file_waits_once.
    + intros solution. apply emits_at_most.
      unfold enter_captcha_solution, fill_input_field, submit_form, wait_for_page_load,
        driver_page_source, click_element, retry.
      repeat first [apply emits_retry_loop; [reflexivity|unfold click_element_once]
                   | emits_step].
    + lia.
    + apply emits_at_most. unfold solve_captcha_with_ai, solve_captcha_manually.
      repeat emits_step.
    + apply emits_at_most. unfold solve_captcha_manually. repeat emits_step.
    + apply emits_at_most. now apply clean_up_captcha_file_emits_logs.
    + reflexivity.
  - apply (solve_captcha_depth_count is_fill_input 0 1).
    + apply emits_at_most. unfold fetch_captcha_file, wait_for_element.
      repeat emits_step.
    + apply enter_captcha_solution_fills_once.
    + lia.
    + apply emits_at_most. unfold solve_captcha_with_ai, solve_captcha_manually.
      repeat emits_step.
    + apply emits_at_most. unfold solve_captcha_manually. repeat emits_step.
    + apply emits_at_most. now apply clean_up_captcha_file_emits_logs.
    + reflexivity.
Qed.

End CaptchaAttempts.

(** * captcha_handler.py: the answer of [solve_captcha] and its log *)

Lemma emits_existsb_false {A} p (m : M A) s :
  emits (fun e => p e = false) m -> existsb p (out (m s)) = false.
Proof.
  intros Hm. specialize (Hm s).
  induction Hm as [|e t He _ IH]; cbn [existsb]; [reflexivity|].
  now rewrite He, IH.
Qed.

Lemma log_agrees_after t r :
  existsb is_solved_line t = false -> log_agrees r -> log_agrees (after t r).
Proof.
  intros Ht [Htrue Hfalse]. unfold log_agrees, after. cbn [res out].
  rewrite !existsb_app, Ht. cbn [orb]. split; [exact Htrue|].
  intros H. rewrite (Hfalse H). apply orb_true_r.
Qed.

Lemma log_agrees_bind_quiet {A} (m : M A) (k : A -> M bool) s :
  existsb is_solved_line (out (m s)) = false ->
  (forall a, res (m s) = Val a -> log_agrees (k a (st (m s)))) ->
  log_agrees (bind m k s).
Proof.
  intros Hquiet Hk. destruct (res (m s)) as [a|e] eqn:Hrun.
  - rewrite (bind_val _ _ _ _ Hrun). apply log_agrees_after; auto.
  - rewrite (bind_exc _ _ _ _ Hrun). unfold log_agrees. cbn [res out].
    rewrite Hquiet. split; [split; discriminate|discriminate].
Qed.

Lemma log_agrees_try_finally (m : M bool) cleanup s :
  never_raises cleanup ->
  existsb is_solved_line (out (cleanup (st (m s)))) = false ->
  log_agrees (m s) -> log_agrees (try_finally m cleanup s).
Proof.
  intros Hnever Hquiet [Htrue Hfalse]. unfold try_finally. cbn zeta.
  destruct (Hnever (st (m s))) as [[] Hc]. rewrite Hc.
  unfold log_agrees. cbn [res out]. rewrite !existsb_app, Hquiet, orb_false_r.
  split; [exact Htrue|]. intros H. rewrite (Hfalse H). reflexivity.
Qed.

Lemma prefix_string_app pre rest : String.prefix pre (pre +:+ rest) = true.
Proof.
  induction pre as [|c pre IH].
  - rewrite string_app_nil. now destruct rest.
  - rewrite string_app_cons. cbn [String.prefix].
    destruct (ascii_dec c c) as [_|Hne]; [exact IH|congruence].
Qed.

Section SolveCaptchaAnswer.
Import SeleniumHandler CaptchaHandler.
Variable config : Config.
Variable env : Env.

Lemma fill_and_submit_quiet solution :
  emits (fun e => is_solved_line e = false) (fill_and_submit config env solution).
Proof.
  unfold fill_and_submit, fill_input_field, submit_form, wait_for_page_load,
    click_element, retry.
  repeat first [apply emits_retry_loop; [reflexivity|unfold click_element_once]
               | emits_step].
Qed.

(** [enter_captcha_solution], run by run. *)
Lemma enter_captcha_solution_run solution s :
  let done := fill_and_submit config env solution s in
  enter_captcha_solution config env solution s =
  after (out done)
    match res done with
    | Exc e =>
        mkRun (Val false) (st done)
          [LogError ("Error entering CAPTCHA solution: " +:+ exn_msg e) PARSING]
    | Val _ =>
        after [Sleep (retry_delay config); ReadPageSource]
          match page_source env (tick (st done)) with
          | inl e =>
              mkRun (Val false) (next_tick (st done))
                [LogError ("Error entering CAPTCHA solution: " +:+ exn_msg e) PARSING]
          | inr page =>
              if str_contains "Invalid CAPTCHA" page
              then mkRun (Val false) (next_tick (st done))
                     [LogWarning "CAPTCHA solution incorrect."]
              else mkRun (Val true) (next_tick (st done)) []
          end
    end.
Proof.
  cbn zeta. rewrite enter_captcha_solution_assoc.
  match goal with |- try_except ?m _ ?h s = _ => set (body := m); set (handler := h) end.
  destruct (res (fill_and_submit config env solution s)) as [[]|e] eqn:Hdone.
  - assert (Hbody : body s =
      after (out (fill_and_submit config env solution s))
        (after [Sleep (retry_delay config); ReadPageSource]
           (match page_source env (tick (st (fill_and_submit config env solution s))) with
            | inl e => mkRun (Exc e) (next_tick (st (fill_and_submit config env solution s))) []
            | inr page =>
                if str_contains "Invalid CAPTCHA" page
                then mkRun (Val false) (next_tick (st (fill_and_submit config env solution s)))
                       [LogWarning "CAPTCHA solution incorrect."]
                else mkRun (Val true) (next_tick (st (fill_and_submit config env solution s))) []
            end))).
    { subst body. cbv beta. erewrite bind_val by exact Hdone. f_equal.
      erewrite bind_val by reflexivity. cbn [sleep emit after res st out].
      unfold driver_page_source. rewrite bind_assoc.
      erewrite bind_val by reflexivity. cbn [ask after res st out].
      destruct (page_source env _) as [e|page]; cbn [raise ret].
      - erewrite bind_exc by reflexivity. reflexivity.
      - rewrite bind_ret_l. destruct (str_contains "Invalid CAPTCHA" page).
        + erewrite bind_val by reflexivity. reflexivity.
        + reflexivity. }
    destruct (page_source env (tick (st (fill_and_submit config env solution s))))
      as [e|page] eqn:Hpage.
    + assert (Hr : res (body s) = Exc e) by (rewrite Hbody; reflexivity).
      rewrite (try_except_caught _ _ _ _ _ Hr eq_refl), Hbody. subst handler. cbv beta.
      erewrite bind_val by reflexivity. unfold after. cbn [log_error emit ret res st out].
      now rewrite <- !app_assoc.
    + destruct (str_contains "Invalid CAPTCHA" page) eqn:Hmarker.
      * assert (Hr : res (body s) = Val false) by (rewrite Hbody; reflexivity).
        now rewrite (try_except_val _ _ _ _ _ Hr), Hbody.
      * assert (Hr : res (body s) = Val true) by (rewrite Hbody; reflexivity).
        now rewrite (try_except_val _ _ _ _ _ Hr), Hbody.
  - assert (Hr : res (body s) = Exc e).
    { subst body. cbv beta. now erewrite bind_exc by exact Hdone. }
    rewrite (try_except_caught _ _ _ _ _ Hr eq_refl). subst body handler. cbv beta.
    erewrite bind_exc by exact Hdone. cbn [res st out].
    erewrite bind_val by reflexivity. reflexivity.
Qed.

Lemma enter_captcha_solution_log solution s :
  let r := enter_captcha_solution config env solution s in
  existsb is_solved_line (out r) = false /\
  (res r = Val false -> existsb is_rejection (out r) = true).
Proof.
  cbn zeta. rewrite enter_captcha_solution_run.
  pose proof (emits_existsb_false is_solved_line (fill_and_submit config env solution) s
    (fill_and_submit_quiet solution)) as Hquiet.
  assert (Herror : forall msg,
    is_rejection (LogError ("Error entering CAPTCHA solution: " +:+ msg) PARSING) = true).
  { intros msg. apply prefix_string_app. }
  destruct (res (fill_and_submit config env solution s)) as [[]|e].
  - destruct (page_source env _) as [e|page]; [|destruct (str_contains _ page)];
      unfold after; cbn [res out]; rewrite !existsb_app, Hquiet; cbn [existsb orb];
      rewrite ?Herror, ?orb_true_r; split; auto; discriminate.
  - unfold after. cbn [res out]. rewrite !existsb_app, Hquiet. cbn [existsb orb].
    rewrite Herror, orb_true_r. split; auto.
Qed.


Lemma solve_captcha_manually_quiet :
  emits (fun e => is_solved_line e = false) (solve_captcha_manually env).
Proof. unfold solve_captcha_manually. repeat emits_step. Qed.

Lemma solve_captcha_with_ai_quiet :
  emits (fun e => is_solved_line e = false) (solve_captcha_with_ai config env).
Proof. unfold solve_captcha_with_ai, solve_captcha_manually. repeat emits_step. Qed.

Lemma then_inr_quiet (m : M string) s :
  emits (fun e => is_solved_line e = false) m ->
  let r := (solution <- m ;; ret (inr (A:=bool) solution)) s in
  existsb is_solved_line (out r) = false /\ (forall b, res r <> Val (inl b)).
Proof.
  intros Hm. cbn zeta. split.
  - apply emits_existsb_false. apply emits_bind; [exact Hm|]. intros a. apply emits_ret.
  - intros b H. destruct (bind_val_inv _ _ _ _ H) as (a & _ & Heq).
    rewrite Heq in H. discriminate H.
Qed.

(** [obtain_solution] either keeps to itself (no success line, and a
    solution or an exception comes out), or it is the nested call, after
    events without a success line, whose answer it hands back. *)
Lemma obtain_solution_cases recurse tries_remaining s :
  let r := obtain_solution config env recurse tries_remaining s in
  (existsb is_solved_line (out r) = false /\ (forall b, res r <> Val (inl b))) \/
  (1 < tries_remaining /\
   exists t1 s1,
     existsb is_solved_line t1 = false /\
     out r = (t1 ++ out (recurse s1))%list /\
     res r = match res (recurse s1) with
             | Val b => Val (inl b)
             | Exc e => Exc e
             end).
Proof.
  cbn zeta. unfold obtain_solution. destruct (Z.eqb tries_remaining 1).
  - left. erewrite bind_val by reflexivity. cbn [log_info emit res st out].
    destruct (then_inr_quiet (solve_captcha_manually env) s solve_captcha_manually_quiet)
      as [Hquiet Hres].
    unfold after. cbn [res out existsb is_solved_line String.eqb orb]. auto.
  - erewrite bind_val by reflexivity. cbn [log_info emit res st out].
    match goal with |- context [try_except ?m _ ?h s] => set (body := m); set (handler := h) end.
    destruct (then_inr_quiet (solve_captcha_with_ai config env) s solve_captcha_with_ai_quiet)
      as [Hquiet Hres]. fold body in Hquiet, Hres.
    destruct (res (body s)) as [v|e] eqn:Hrun.
    + left. rewrite (try_except_val _ _ _ _ _ Hrun). unfold after. cbn [res out].
      rewrite existsb_app, Hquiet, Hrun.
      split; [reflexivity|]. first [exact Hres | rewrite <- Hrun; exact Hres].
    + rewrite (try_except_caught _ _ _ _ _ Hrun eq_refl). subst handler. cbv beta.
      destruct (Z.ltb_spec 0 (tries_remaining - 1)) as [Hlt|Hge].
      * right. split; [lia|].
        exists (LogInfo ("Tries remaining: " +:+ pretty tries_remaining
                         +:+ ". Attempting AI CAPTCHA solving.") :: out (body s))%list,
          (st (body s)).
        split; [|split].
        -- cbn [existsb]. rewrite Hquiet. reflexivity.
        -- unfold after. cbn [out].
           destruct (res (recurse (st (body s)))) as [returned|e'] eqn:Hreturned.
           ++ erewrite bind_val by exact Hreturned. cbn [ret after out].
              now rewrite app_nil_r.
           ++ erewrite bind_exc by exact Hreturned. reflexivity.
        -- unfold after. cbn [res].
           destruct (res (recurse (st (body s)))) as [returned|e'] eqn:Hreturned.
           ++ erewrite bind_val by exact Hreturned. reflexivity.
           ++ erewrite bind_exc by exact Hreturned. reflexivity.
      * left.
        destruct (then_inr_quiet (solve_captcha_manually env) (st (body s))
                    solve_captcha_manually_quiet) as [Hquiet' Hres'].
        unfold after. cbn [res out].
        rewrite existsb_app. cbn [existsb]. rewrite existsb_app, Hquiet, Hquiet'.
        split; [reflexivity|exact Hres'].
Qed.

Lemma submit_solution_log recurse tries_remaining solution s :
  (1 < tries_remaining -> forall s', log_agrees (recurse s')) ->
  log_agrees (submit_solution config env recurse tries_remaining solution s).
Proof.
  intros Hrec. unfold submit_solution.
  destruct (enter_captcha_solution_log solution s) as [Hquiet Hrejected].
  destruct (res (enter_captcha_solution config env solution s)) as [[|]|e] eqn:Henter.
  - rewrite (bind_val _ _ _ _ Henter). erewrite bind_val by reflexivity.
    unfold log_agrees, after. cbn [log_info emit ret res st out].
    rewrite !existsb_app.
    replace (existsb is_solved_line [LogInfo "CAPTCHA solved successfully."])
      with true by reflexivity.
    cbn [existsb orb app].
    rewrite orb_true_r. split; [split; reflexivity|discriminate].
  - rewrite (bind_val _ _ _ _ Henter).
    destruct (Z.ltb_spec 1 tries_remaining) as [Hlt|Hge].
    + apply log_agrees_after; [exact Hquiet|]. now apply Hrec.
    + unfold log_agrees, after. cbn [ret res st out].
      rewrite !app_nil_r, Hquiet. split; [split; discriminate|]. intros _. now apply Hrejected.
  - rewrite (bind_exc _ _ _ _ Henter). unfold log_agrees. cbn [res out].
    rewrite Hquiet. split; [split; discriminate|discriminate].
Qed.

Lemma solve_captcha_body_log recurse tries_remaining s :
  (1 < tries_remaining -> forall s', log_agrees (recurse s')) ->
  log_agrees (solve_captcha_body config env recurse tries_remaining s).
Proof.
  intros Hrec. unfold solve_captcha_body.
  apply log_agrees_try_finally.
  { apply clean_up_captcha_file_never_raises. }
  { apply emits_existsb_false. intros s'. rewrite clean_up_captcha_file_run.
    destruct (bool_decide _); cbn [out]; repeat constructor. }
  apply log_agrees_bind_quiet.
  { apply emits_existsb_false. unfold fetch_captcha_file, wait_for_element.
    repeat emits_step. }
  intros [] _. set (s1 := st (fetch_captcha_file config env s)).
  destruct (obtain_solution_cases recurse tries_remaining s1)
    as [[Hquiet Hres]|(Hlt & t1 & s2 & Hquiet & Hout & Hres)].
  - apply log_agrees_bind_quiet; [exact Hquiet|].
    intros [returned|solution] Hphase; [now destruct (Hres returned)|].
    now apply submit_solution_log.
  - destruct (Hrec Hlt s2) as [Htrue Hfalse].
    destruct (res (recurse s2)) as [returned|e] eqn:Hreturned.
    + rewrite (bind_val _ _ _ _ Hres). unfold log_agrees, after.
      cbn [ret res out]. rewrite Hout, app_nil_r, existsb_app, Hquiet. cbn [orb].
      split; [exact Htrue|].
      intros H. rewrite existsb_app, (Hfalse H). apply orb_true_r.
    + rewrite (bind_exc _ _ _ _ Hres). unfold log_agrees. cbn [res out].
      rewrite Hout, existsb_app, Hquiet. cbn [orb].
      split; [|discriminate]. split; [discriminate|].
      intros H. apply Htrue in H. discriminate H.
Qed.

Lemma solve_captcha_depth_log depth tries_remaining s :
  (Z.to_nat (tries_remaining - 1) <= depth)%nat ->
  log_agrees (solve_captcha_depth config env depth tries_remaining s).
Proof.
  revert tries_remaining s. induction depth as [|d IH]; intros tries_remaining s Hdepth;
    cbn [solve_captcha_depth]; apply solve_captcha_body_log; intros Hlt s'.
  - lia.
  - apply IH. lia.
Qed.

(** X16: the answer of [solve_captcha] agrees with its log.  It returns
    [True] exactly when it has logged "CAPTCHA solved successfully." (a
    success of a nested call is handed up unchanged, and nothing else logs
    that line), and whenever it returns [False] a submission was rejected:
    the log holds "CAPTCHA solution incorrect." or an "Error entering
    CAPTCHA solution" line. *)
Theorem solve_captcha_answer_is_logged tries_remaining s :
  let r := solve_captcha config env tries_remaining s in
  (res r = Val true <-> existsb is_solved_line (out r) = true) /\
  (res r = Val false -> existsb is_rejection (out r) = true).
Proof.
  cbn zeta. apply (solve_captcha_depth_log (Z.to_nat (tries_remaining - 1))). lia.
Qed.

End SolveCaptchaAnswer.

(** * v1/main.py: further properties of the first version *)

Lemma first_free_name_least files name ext rounds counter path :
  V1.first_free_name files name ext rounds counter = Some path ->
  exists skipped : nat,
    path = V1.candidate_name name ext (counter + Z.of_nat skipped) /\
    files !! path = None /\
    forall i : nat, (i < skipped)%nat ->
      is_Some (files !! V1.candidate_name name ext (counter + Z.of_nat i)).
Proof.
  revert counter. induction rounds as [|n IH]; intros counter; cbn [V1.first_free_name];
    case_bool_decide as Hex; try discriminate.
  - intros [= <-]. exists 0%nat. rewrite Z.add_0_r.
    split; [reflexivity|]. split; [now apply eq_None_not_Some|]. intros i Hi. lia.
  - intros Hfree. destruct (IH _ Hfree) as (k & -> & Hnone & Hbelow).
    exists (S k). split; [f_equal; lia|]. split; [exact Hnone|].
    intros [|i] Hi.
    + now rewrite Z.add_0_r.
    + replace (counter + Z.of_nat (S i)) with (counter + 1 + Z.of_nat i) by lia.
      apply Hbelow. lia.
  - intros [= <-]. exists 0%nat. rewrite Z.add_0_r.
    split; [reflexivity|]. split; [now apply eq_None_not_Some|]. intros i Hi. lia.
Qed.

(** X17: [get_unique_filename] always returns, without touching anything,
    and what it returns is the first free name of the series
    [<PDF_DIR>/<name>_1<ext>], [<name>_2<ext>], ...: no file has that name,
    and every name with a smaller counter is taken. *)
Theorem get_unique_filename_first_free (url_name_ext : string -> string * string) url s :
  let name := (url_name_ext url).1 in
  let ext := (url_name_ext url).2 in
  exists counter,
    1 <= counter /\
    V1.get_unique_filename url_name_ext url s
    = mkRun (Val (V1.candidate_name name ext counter)) s [] /\
    fs s !! V1.candidate_name name ext counter = None /\
    forall c, 1 <= c < counter -> is_Some (fs s !! V1.candidate_name name ext c).
Proof.
  cbn zeta. unfold V1.get_unique_filename.
  destruct (url_name_ext url) as [name ext]. cbn [fst snd].
  destruct (first_free_name_total (fs s) name ext) as (path & Hfree & _).
  destruct (first_free_name_least _ _ _ _ _ _ Hfree) as (k & -> & Hnone & Hbelow).
  exists (1 + Z.of_nat k). split; [lia|]. split; [|split; [exact Hnone|]].
  - erewrite bind_val by reflexivity. cbn [get_state res st out]. rewrite Hfree.
    reflexivity.
  - intros c Hc. replace c with (1 + Z.of_nat (Z.to_nat (c - 1))) by lia.
    apply Hbelow. lia.
Qed.

Section V1DownloadMore.
Variable env : Env.
Variable url_name_ext : string -> string * string.
Variable PdfReader : list byte -> option Exn.

(** One run of the body of the [try] in [download_pdf]: a request error
    after the GET, a validated new file, or a file written and removed
    again. *)
Lemma v1_attempt_download_cases pdf_url s :
  let r := V1.attempt_download env url_name_ext PdfReader pdf_url s in
  (exists msg,
     r = mkRun (Exc (mkExn RequestException msg)) (next_tick s) [HttpGet pdf_url]) \/
  (exists path body t,
     fs s !! path = None /\ PdfReader body = None /\
     res r = Val true /\ fs (st r) = <[path := body]> (fs s) /\
     out r = HttpGet pdf_url :: t /\ network_calls t = 0%nat /\ sleeps t = []) \/
  (exists path,
     res r = Val false /\ fs (st r) = fs s /\
     out r = [HttpGet pdf_url; Logging WARNING ("Invalid PDF: " +:+ path)]).
Proof.
  cbn zeta. unfold V1.attempt_download. run_head.
  destruct (requests_get env (tick s) pdf_url) as [msg|status_code chunks [msg|]].
  - left. exists msg. reflexivity.
  - left. exists msg. reflexivity.
  - unfold V1.raise_for_status.
    destruct (Z.leb 400 status_code && Z.ltb status_code 500)%bool.
    { left. eexists. erewrite bind_exc by reflexivity. reflexivity. }
    destruct (Z.leb 500 status_code && Z.ltb status_code 600)%bool.
    { left. eexists. erewrite bind_exc by reflexivity. reflexivity. }
    rewrite bind_ret_l.
    destruct (get_unique_filename_returns url_name_ext pdf_url (next_tick s))
      as (pdf_name & Hname & Hfree).
    erewrite bind_val by (rewrite Hname; reflexivity). rewrite Hname. cbn [res st out].
    run_head. right.
    destruct (PdfReader (concat chunks)) as [e|] eqn:Hreader.
    + right. exists pdf_name.
      assert (Hval : V1.validate_pdf PdfReader pdf_name
                       (set_fs (insert pdf_name (concat chunks)) (next_tick s))
                     = mkRun (Val false)
                         (set_fs (insert pdf_name (concat chunks)) (next_tick s)) []).
      { unfold V1.validate_pdf. run_head. cbn [set_fs fs].
        rewrite lookup_insert_eq, Hreader. reflexivity. }
      erewrite bind_val by (rewrite Hval; reflexivity). rewrite Hval. cbn [res st out].
      unfold V1.logging_log. run_heads. unfold after. cbn [res st out set_fs fs app].
      split; [reflexivity|]. split; [|reflexivity].
      now apply delete_insert_id.
    + left. exists pdf_name, (concat chunks).
      assert (Hval : V1.validate_pdf PdfReader pdf_name
                       (set_fs (insert pdf_name (concat chunks)) (next_tick s))
                     = mkRun (Val true)
                         (set_fs (insert pdf_name (concat chunks)) (next_tick s)) []).
      { unfold V1.validate_pdf. run_head. cbn [set_fs fs].
        rewrite lookup_insert_eq, Hreader. reflexivity. }
      erewrite bind_val by (rewrite Hval; reflexivity). rewrite Hval. cbn [res st out].
      unfold V1.logging_log, V1.log_pdf_details, V1.log_to_csv. run_heads.
      eexists. unfold after. cbn [res st out set_fs fs next_tick app].
      split; [exact Hfree|]. split; [exact Hreader|]. split; [reflexivity|].
      split; [reflexivity|]. split; [reflexivity|]. split; reflexivity.
Qed.


(** One round of the [for] loop: the [try] with its [except
    requests.RequestException] clause. *)
Lemma v1_attempt_round pdf_url attempt s :
  let r := try_except
             (b <- V1.attempt_download env url_name_ext PdfReader pdf_url ;; ret (Some b))
             V1.is_request_exception
             (fun e =>
                V1.logging_log ("Attempt " +:+ pretty (attempt + 1) +:+ " failed for "
                                +:+ pdf_url +:+ ": " +:+ exn_msg e) ERROR ;;
                (if Z.ltb attempt (V1.MAX_RETRIES - 1) then sleep V1.RETRY_DELAY else ret tt) ;;
                ret None) s in
  network_calls (out r) = 1%nat /\
  ((res r = Val None /\ fs (st r) = fs s /\
    sleeps (out r) = if Z.ltb attempt (V1.MAX_RETRIES - 1) then [V1.RETRY_DELAY] else []) \/
   (res r = Val (Some false) /\ fs (st r) = fs s /\ sleeps (out r) = []) \/
   (res r = Val (Some true) /\ sleeps (out r) = [] /\
    exists path body,
      fs s !! path = None /\ PdfReader body = None /\
      fs (st r) = <[path := body]> (fs s))).
Proof.
  cbn zeta.
  destruct (v1_attempt_download_cases pdf_url s)
    as [(msg & Hrun)|[(path & body & t & Hfree & Hreader & Hres & Hfs & Hout & Hcalls & Hsleeps)
                     |(path & Hres & Hfs & Hout)]].
  - erewrite try_except_caught;
      [|erewrite bind_exc by (rewrite Hrun; reflexivity); reflexivity|reflexivity].
    erewrite bind_exc by (rewrite Hrun; reflexivity). rewrite Hrun. cbn [res st out].
    unfold V1.logging_log. run_head.
    destruct (Z.ltb attempt (V1.MAX_RETRIES - 1)); run_heads;
      unfold after; cbn [res st out next_tick fs app]; split; try reflexivity;
      left; repeat split; reflexivity.
  - assert (Hbody : (b <- V1.attempt_download env url_name_ext PdfReader pdf_url ;;
                     ret (Some b)) s
                    = after (out (V1.attempt_download env url_name_ext PdfReader pdf_url s))
                        (mkRun (Val (Some true))
                           (st (V1.attempt_download env url_name_ext PdfReader pdf_url s)) [])).
    { now erewrite bind_val by exact Hres. }
    erewrite try_except_val by (rewrite Hbody; reflexivity). rewrite Hbody.
    unfold after. cbn [res st out]. rewrite app_nil_r, Hout.
    split; [unfold network_calls in *; cbn [List.filter is_get length]; now rewrite Hcalls|].
    right. right. split; [reflexivity|]. split; [exact Hsleeps|]. eauto.
  - assert (Hbody : (b <- V1.attempt_download env url_name_ext PdfReader pdf_url ;;
                     ret (Some b)) s
                    = after (out (V1.attempt_download env url_name_ext PdfReader pdf_url s))
                        (mkRun (Val (Some false))
                           (st (V1.attempt_download env url_name_ext PdfReader pdf_url s)) [])).
    { now erewrite bind_val by exact Hres. }
    erewrite try_except_val by (rewrite Hbody; reflexivity). rewrite Hbody.
    unfold after. cbn [res st out]. rewrite app_nil_r, Hout.
    split; [reflexivity|]. right. left. auto.
Qed.

Lemma v1_download_attempts_run pdf_url (n : nat) k s :
  0 <= k -> k + Z.of_nat n = V1.MAX_RETRIES ->
  let r := V1.download_attempts env url_name_ext PdfReader pdf_url (seqZ k (Z.of_nat n)) s in
  ((res r = Val false /\ fs (st r) = fs s) \/
   (res r = Val true /\
    exists path body,
      fs s !! path = None /\ PdfReader body = None /\
      fs (st r) = <[path := body]> (fs s))) /\
  (network_calls (out r) <= n)%nat /\
  ((0 < n)%nat -> (1 <= network_calls (out r))%nat) /\
  sleeps (out r) = repeat V1.RETRY_DELAY (network_calls (out r) - 1).
Proof.
  revert k s. induction n as [|n IH]; intros k s Hk Hsum; cbn zeta.
  - change (seqZ k (Z.of_nat 0)) with (@nil Z). cbn [V1.download_attempts].
    unfold V1.log_pdf_details, V1.log_to_csv. run_heads.
    unfold after. cbn [res st out next_tick fs app].
    split; [left; split; reflexivity|]. split; [cbn; lia|]. split; [lia|reflexivity].
  - rewrite seqZ_cons by lia. cbn [V1.download_attempts].
    replace (Z.pred (Z.of_nat (S n))) with (Z.of_nat n) by lia.
    destruct (v1_attempt_round pdf_url k s) as [Hcalls Hcases].
    match goal with |- context [bind ?m _ s] => set (round := m) in * end.
    destruct Hcases as [(Hres & Hfs & Hsleeps)|[(Hres & Hfs & Hsleeps)
                                               |(Hres & Hsleeps & Hnew)]].
    + rewrite (bind_val _ _ _ _ Hres).
      destruct (IH (Z.succ k) (st (round s)) ltac:(lia) ltac:(lia))
        as (Hout & Hle & Hge & Hrest).
      unfold after. cbn [res st out].
      rewrite network_calls_app, sleeps_app, Hcalls, Hsleeps, Hrest, Hfs in *.
      split; [exact Hout|]. split; [lia|]. split; [lia|].
      destruct (Z.ltb_spec k (V1.MAX_RETRIES - 1)) as [Hlt|Hlast].
      * assert (Hn : (0 < n)%nat) by lia. specialize (Hge Hn).
        replace (1 + network_calls _ - 1)%nat
          with (S (network_calls (out (V1.download_attempts env url_name_ext PdfReader
                 pdf_url (seqZ (Z.succ k) (Z.of_nat n)) (st (round s)))) - 1))%nat by lia.
        reflexivity.
      * assert (Hn : n = 0%nat) by lia. subst n.
        assert (Hzero : network_calls (out (V1.download_attempts env url_name_ext PdfReader
                  pdf_url (seqZ (Z.succ k) (Z.of_nat 0)) (st (round s)))) = 0%nat) by lia.
        rewrite Hzero. reflexivity.
    + rewrite (bind_val _ _ _ _ Hres). unfold after. cbn [ret res st out].
      rewrite app_nil_r, Hcalls, Hsleeps.
      split; [left; auto|]. split; [lia|]. split; [lia|reflexivity].
    + rewrite (bind_val _ _ _ _ Hres). unfold after. cbn [ret res st out].
      rewrite app_nil_r, Hcalls, Hsleeps.
      split; [right; auto|]. split; [lia|]. split; [lia|reflexivity].
Qed.


(** X19: the requests and waits of the first version's [download_pdf].  It
    sends at least one and at most [MAX_RETRIES] = 3 GETs, and it sleeps
    [RETRY_DELAY] = 5 seconds between two GETs and nowhere else: one sleep
    fewer than GETs, so none after the last attempt. *)
Theorem v1_download_pdf_waits_between_requests pdf_url s :
  let r := V1.download_pdf env url_name_ext PdfReader pdf_url s in
  (1 <= network_calls (out r) <= 3)%nat /\
  sleeps (out r) = repeat 5 (network_calls (out r) - 1).
Proof.
  cbn zeta. unfold V1.download_pdf.
  destruct (v1_download_attempts_run pdf_url 3 0 s ltac:(lia) eq_refl)
    as (_ & Hle & Hge & Hsleeps).
  split; [split; [apply Hge; lia|exact Hle]|exact Hsleeps].
Qed.

End V1DownloadMore.

Section V1ResumeState.
Variable env : Env.
Variable url_name_ext : string -> string * string.
Variable Image_open : list byte -> option Exn.
Variable PdfReader : list byte -> option Exn.
Variable pickle_load : list byte -> Exn + gset string.
Variable pickle_dump : gset string -> list byte.

Lemma save_resume_state_run s :
  V1.save_resume_state pickle_dump s
  = mkRun (Val tt)
      (set_fs (insert V1.RESUME_STATE_FILE (pickle_dump (visited_urls s))) s) [].
Proof. unfold V1.save_resume_state. run_heads. reflexivity. Qed.

(** X20: saving and loading the crawl state fit together.
    [save_resume_state] writes the file that [load_resume_state] reads, so a
    load that follows a save finds the file and gives whatever [pickle.load]
    makes of the dump of [visited_urls]: the set, or the unpickling error. *)
Theorem load_after_save_resume_state s :
  let saved := V1.save_resume_state pickle_dump s in
  res saved = Val tt /\
  res (V1.load_resume_state pickle_load (st saved))
  = match pickle_load (pickle_dump (visited_urls s)) with
    | inl e => Exc e
    | inr visited => Val visited
    end.
Proof.
  cbn zeta. rewrite save_resume_state_run. cbn [res st]. split; [reflexivity|].
  set (s' := set_fs (insert V1.RESUME_STATE_FILE (pickle_dump (visited_urls s))) s).
  assert (Hfile : fs s' !! V1.RESUME_STATE_FILE = Some (pickle_dump (visited_urls s))).
  { subst s'. cbn [set_fs fs]. apply lookup_insert_eq. }
  assert (Hexists : path_exists V1.RESUME_STATE_FILE s' = mkRun (Val true) s' []).
  { unfold path_exists. run_head. rewrite bool_decide_eq_true_2 by (rewrite Hfile; eauto).
    reflexivity. }
  unfold V1.load_resume_state.
  erewrite bind_val by (rewrite Hexists; reflexivity). rewrite Hexists. cbn [res st out after].
  run_head. rewrite Hfile.
  now destruct (pickle_load (pickle_dump (visited_urls s))).
Qed.

Lemma same_files_and_visited_refl s : same_files_and_visited s s.
Proof. now split. Qed.

Lemma same_files_and_visited_trans s1 s2 s3 :
  same_files_and_visited s1 s2 -> same_files_and_visited s2 s3 ->
  same_files_and_visited s1 s3.
Proof. intros [H1 H2] [H3 H4]. split; congruence. Qed.

Lemma same_files_and_visited_tick s : same_files_and_visited s (next_tick s).
Proof. now split. Qed.




End V1ResumeState.

(** * selenium_handler.py and pdf_downloader.py: from the page to the link *)

Section PdfDownloadProcessFacts.
Import SeleniumHandler PdfDownloader PdfDownloadProcess.
Variable config : Config.
Variable env : Env.
Variable pdf_button_xpath : string.
Variable click_pdf_button_js : string.
Variable execute_async_script : nat -> string -> Exn + option string.

Lemma trigger_js_function_run js_code s :
  trigger_js_function execute_async_script js_code s =
  match execute_async_script (tick s) js_code with
  | inl e => mkRun (Exc e) (next_tick s) [LogError "Error executing JavaScript" PARSING]
  | inr result =>
      mkRun (Val result) (next_tick s)
        [LogInfo "JavaScript function triggered successfully."]
  end.
Proof.
  unfold trigger_js_function, try_except, driver_execute_async_script.
  erewrite bind_val by reflexivity. cbn [res st out after].
  destruct (execute_async_script (tick s) js_code) as [e|result];
    cbn [raise res st out any_exception app].
  - erewrite bind_val by reflexivity. reflexivity.
  - erewrite bind_val by reflexivity. reflexivity.
Qed.

(** [fetch_pdf_link], run by run, given the run of the click. *)
Lemma fetch_pdf_link_run s :
  let clicked := click_element env pdf_button_xpath s in
  fetch_pdf_link env pdf_button_xpath click_pdf_button_js execute_async_script s =
  after (out clicked)
    match res clicked with
    | Exc e => mkRun (Exc e) (st clicked) [LogError "Error fetching PDF link" PARSING]
    | Val _ =>
        match execute_async_script (tick (st clicked)) click_pdf_button_js with
        | inl e =>
            mkRun (Exc e) (next_tick (st clicked))
              [LogInfo "PDF button clicked, triggering JavaScript.";
               LogError "Error executing JavaScript" PARSING;
               LogError "Error fetching PDF link" PARSING]
        | inr (Some (String c rest)) =>
            mkRun (Val (Some (String c rest))) (next_tick (st clicked))
              [LogInfo "PDF button clicked, triggering JavaScript.";
               LogInfo "JavaScript function triggered successfully.";
               LogInfo ("PDF link generated: " +:+ String c rest)]
        | inr _ =>
            mkRun (Val None) (next_tick (st clicked))
              [LogInfo "PDF button clicked, triggering JavaScript.";
               LogInfo "JavaScript function triggered successfully.";
               LogError "No PDF link found after JavaScript execution." PARSING]
        end
    end.
Proof.
  cbn zeta. unfold fetch_pdf_link.
  match goal with |- try_except ?m _ ?h s = _ => set (body := m); set (handler := h) end.
  destruct (res (click_element env pdf_button_xpath s)) as [u|e] eqn:Hclick.
  - assert (Hbody : body s =
      after (out (click_element env pdf_button_xpath s))
        (after [LogInfo "PDF button clicked, triggering JavaScript."]
           match execute_async_script (tick (st (click_element env pdf_button_xpath s)))
                   click_pdf_button_js with
           | inl e =>
               mkRun (Exc e) (next_tick (st (click_element env pdf_button_xpath s)))
                 [LogError "Error executing JavaScript" PARSING]
           | inr (Some (String c rest)) =>
               mkRun (Val (Some (String c rest)))
                 (next_tick (st (click_element env pdf_button_xpath s)))
                 [LogInfo "JavaScript function triggered successfully.";
                  LogInfo ("PDF link generated: " +:+ String c rest)]
           | inr _ =>
               mkRun (Val None) (next_tick (st (click_element env pdf_button_xpath s)))
                 [LogInfo "JavaScript function triggered successfully.";
                  LogError "No PDF link found after JavaScript execution." PARSING]
           end)).
    { subst body. cbv beta. rewrite (bind_val _ _ _ _ Hclick). f_equal.
      erewrite bind_val by reflexivity. cbn [log_info emit res st out]. f_equal.
      pose proof (trigger_js_function_run click_pdf_button_js
                    (st (click_element env pdf_button_xpath s))) as Hjs.
      destruct (execute_async_script _ click_pdf_button_js) as [e|[[|c rest]|]].
      - erewrite bind_exc by (rewrite Hjs; reflexivity). now rewrite Hjs.
      - erewrite bind_val by (rewrite Hjs; reflexivity). rewrite Hjs. cbn [res st out].
        erewrite bind_val by reflexivity. reflexivity.
      - erewrite bind_val by (rewrite Hjs; reflexivity). rewrite Hjs. cbn [res st out].
        erewrite bind_val by reflexivity. reflexivity.
      - erewrite bind_val by (rewrite Hjs; reflexivity). rewrite Hjs. cbn [res st out].
        erewrite bind_val by reflexivity. reflexivity. }
    f_equal.
    destruct (execute_async_script _ click_pdf_button_js) as [e|[[|c rest]|]] eqn:Hscript.
    + assert (Hr : res (body s) = Exc e) by (rewrite Hbody; reflexivity).
      rewrite (try_except_caught _ _ _ _ _ Hr eq_refl), Hbody. subst handler. cbv beta.
      erewrite bind_val by reflexivity. unfold after.
      cbn [log_error emit raise res st out]. now rewrite <- !app_assoc.
    + assert (Hr : res (body s) = Val None) by (rewrite Hbody; reflexivity).
      now rewrite (try_except_val _ _ _ _ _ Hr), Hbody.
    + assert (Hr : res (body s) = Val (Some (String c rest)))
        by (rewrite Hbody; reflexivity).
      now rewrite (try_except_val _ _ _ _ _ Hr), Hbody.
    + assert (Hr : res (body s) = Val None) by (rewrite Hbody; reflexivity).
      now rewrite (try_except_val _ _ _ _ _ Hr), Hbody.
  - assert (Hr : res (body s) = Exc e).
    { subst body. cbv beta. now rewrite (bind_exc _ _ _ _ Hclick). }
    rewrite (try_except_caught _ _ _ _ _ Hr eq_refl). subst body handler. cbv beta.
    rewrite (bind_exc _ _ _ _ Hclick). cbn [res st out].
    erewrite bind_val by reflexivity. reflexivity.
Qed.


Lemma no_get_no_row_trace t :
  Forall no_get_no_row t ->
  network_calls t = 0%nat /\ forall file_type, csv_rows file_type t = [].
Proof.
  induction 1 as [|e t He _ [IHcalls IHrows]]; [now split|].
  unfold network_calls in *. unfold no_get_no_row in He.
  destruct e; cbn [is_get is_csv_row negb andb] in He; try discriminate He;
    cbn [List.filter is_get csv_rows]; auto.
Qed.

Lemma click_element_leaves_files locator s :
  let clicked := click_element env locator s in
  fs (st clicked) = fs s /\ Forall no_get_no_row (out clicked).
Proof.
  cbn zeta. split.
  - assert (H : preserves same_files_and_visited (click_element env locator)).
    { unfold click_element, retry.
      apply (preserves_retry_loop _ same_files_and_visited_refl
               same_files_and_visited_trans).
      unfold click_element_once.
      apply (preserves_try_except _ same_files_and_visited_trans).
      - apply (preserves_bind _ same_files_and_visited_trans).
        + apply preserves_ask, same_files_and_visited_tick.
        + intros [e|]; [apply preserves_raise|apply preserves_emit];
            apply same_files_and_visited_refl.
      - intros e. apply (preserves_bind _ same_files_and_visited_trans).
        + apply preserves_emit, same_files_and_visited_refl.
        + intros _. apply preserves_raise, same_files_and_visited_refl. }
    apply H.
  - revert s. change (emits no_get_no_row (click_element env locator)).
    unfold click_element, retry.
    apply emits_retry_loop; [reflexivity|]. unfold click_element_once.
    repeat emits_step.
Qed.

(** X22: [fetch_pdf_link] hands back a link exactly when the click on the
    PDF button went through and the script of the page then returned that
    link, a string that is not empty.  It never asks the network and never
    touches a file, and when it raises, "Error fetching PDF link" is the
    last line it logs. *)
Theorem fetch_pdf_link_gives_script_link s :
  let clicked := click_element env pdf_button_xpath s in
  let r := fetch_pdf_link env pdf_button_xpath click_pdf_button_js execute_async_script s in
  (forall link,
     res r = Val (Some link) <->
     (exists u, res clicked = Val u) /\
     execute_async_script (tick (st clicked)) click_pdf_button_js = inr (Some link) /\
     link <> "") /\
  fs (st r) = fs s /\
  network_calls (out r) = 0%nat /\
  (forall e, res r = Exc e ->
     exists t, out r = (t ++ [LogError "Error fetching PDF link" PARSING])%list).
Proof.
  cbn zeta. rewrite fetch_pdf_link_run. cbn zeta.
  destruct (click_element_leaves_files pdf_button_xpath s) as [Hfs Hquiet].
  apply no_get_no_row_trace in Hquiet as [Hcalls _].
  destruct (res (click_element env pdf_button_xpath s)) as [u|e].
  - destruct (execute_async_script _ click_pdf_button_js) as [e|[[|c rest]|]];
      unfold after; cbn [res st out next_tick fs];
      rewrite network_calls_app, Hcalls;
      (split; [|split; [exact Hfs|split; [reflexivity|]]]).
    + intros link. split; [discriminate|]. intros (_ & H & _). discriminate H.
    + intros e' _.
      exists (out (click_element env pdf_button_xpath s)
              ++ [LogInfo "PDF button clicked, triggering JavaScript.";
                  LogError "Error executing JavaScript" PARSING])%list.
      now rewrite <- app_assoc.
    + intros link. split; [discriminate|]. intros (_ & [= <-] & H). now destruct H.
    + intros e' H. discriminate H.
    + intros link. split.
      * intros [= <-]. split; [eauto|]. split; [reflexivity|discriminate].
      * intros (_ & [= <-] & _). reflexivity.
    + intros e' H. discriminate H.
    + intros link. split; [discriminate|]. intros (_ & H & _). discriminate H.
    + intros e' H. discriminate H.
  - unfold after. cbn [res st out]. rewrite network_calls_app, Hcalls.
    split; [|split; [exact Hfs|split; [reflexivity|]]].
    + intros link. split; [discriminate|]. intros ([u H] & _). discriminate H.
    + intros e' _. eauto.
Qed.



End PdfDownloadProcessFacts.


(** * config.py and logging_manager.py: the tables of paths *)

Lemma os_path_join_nonempty a c b : exists c' rest, os_path_join a (String c b) = String c' rest.
Proof.
  unfold os_path_join.
  destruct (startswith (String c b) "/"); [eauto|].
  destruct a as [|d a].
  - cbn. eauto.
  - destruct (String.eqb (String d a) "" || endswith_char (String d a) "/")%bool;
      rewrite string_app_cons; eauto.
Qed.

Lemma string_app_eq_prefix (s suffix k : string) :
  s +:+ suffix = k ->
  s = String.substring 0 (String.length k - String.length suffix) k.
Proof.
  intros <-. rewrite string_app_length.
  replace (String.length s + String.length suffix - String.length suffix)%nat
    with (String.length s) by lia.
  induction s as [|c s IH].
  - rewrite string_app_nil. now destruct suffix.
  - rewrite string_app_cons. cbn [String.length String.substring]. now rewrite <- IH.
Qed.

Section ShippedTables.
Import ConfigTables LoggingManager.
Variables year_month day : string.

Lemma shipped_entries_resolve :
  exists log_file,
    truthy (Some log_file) = true /\
    resolve_entries year_month day directory_entries
    = inr [("pdf_dir", "data/pdfs");
           ("log_file", log_file);
           ("captcha_image_path", "data/pdfs/captcha.png");
           ("all_csv", "data/csv/all_urls.csv");
           ("good_csv", "data/csv/good_urls.csv");
           ("bad_csv", "data/csv/bad_urls.csv");
           ("resume_state_file", "data/csv/resume_state.pkl");
           ("csv_error_log", "data/csv/csv_error_log_" +:+ day +:+ ".csv")].
Proof.
  assert (Hlogs : exists c rest,
            os_path_join (os_path_join "data" "logs") year_month = String c rest).
  { destruct year_month as [|c ym]; [cbn; eauto|]. apply os_path_join_nonempty. }
  destruct Hlogs as (c & rest & Hlogs).
  destruct (os_path_join_nonempty (String c rest) "c" ("rawler_log_" +:+ day +:+ ".txt"))
    as (c' & rest' & Hfile).
  exists (os_path_join (String c rest) ("crawler_log_" +:+ day +:+ ".txt")). split.
  { change ("crawler_log_" +:+ day +:+ ".txt")
      with (String "c" ("rawler_log_" +:+ day +:+ ".txt")).
    now rewrite Hfile. }
  unfold directory_entries. cbn [resolve_entries].
  unfold get_full_path, folders, files. rewrite Hlogs.
  cbn [list_to_map foldr fst snd uncurry].
  repeat first [rewrite lookup_insert_eq | rewrite lookup_insert_ne by discriminate].
  reflexivity.
Qed.

Lemma shipped_directories_facts :
  exists resolved,
    directories year_month day = inr resolved /\
    resolved !! "pdf_dir" = Some (pdf_dir default_config) /\
    resolved !! "captcha_image_path"
      = Some (CaptchaHandler.captcha_image_path default_config) /\
    (forall file_type,
       truthy (csv_file_of resolved file_type) = true <->
       file_type = "all" \/ file_type = "good" \/ file_type = "bad") /\
    (forall s, validate_logging_config resolved s = mkRun (Val true) s []).
Proof.
  destruct shipped_entries_resolve as (log_file & Htruthy & Hentries).
  unfold directories. rewrite Hentries. eexists. split; [reflexivity|].
  match goal with |- context [list_to_map ?l] => set (entries := l) end.
  assert (Hlookup : forall key value,
            (key, value) ∈ entries -> list_to_map (M:=gmap string string) entries !! key
                                      = Some value).
  { intros key value Hin. apply elem_of_list_to_map_1; [|exact Hin].
    apply (bool_decide_unpack _). vm_compute. exact I. }
  split; [apply Hlookup; subst entries; set_solver|].
  split; [apply Hlookup; subst entries; set_solver|].
  split.
  - intros file_type. unfold csv_file_of. split.
    + intros Hfound.
      destruct (list_to_map (M:=gmap string string) entries !! (file_type +:+ "_csv"))
        as [value|] eqn:Hvalue; [|discriminate Hfound].
      apply elem_of_list_to_map_2 in Hvalue. subst entries.
      repeat (apply elem_of_cons in Hvalue as [Hvalue|Hvalue]);
        try (now apply elem_of_nil in Hvalue);
        injection Hvalue as Hkey _;
        pose proof (string_app_eq_prefix _ _ _ Hkey) as Hprefix;
        cbn in Hprefix; subst file_type; try discriminate Hkey; auto.
    + intros [-> | [-> | ->]].
      * change ("all" +:+ "_csv") with "all_csv".
        now rewrite (Hlookup "all_csv" "data/csv/all_urls.csv") by (subst entries; set_solver).
      * change ("good" +:+ "_csv") with "good_csv".
        now rewrite (Hlookup "good_csv" "data/csv/good_urls.csv") by (subst entries; set_solver).
      * change ("bad" +:+ "_csv") with "bad_csv".
        now rewrite (Hlookup "bad_csv" "data/csv/bad_urls.csv") by (subst entries; set_solver).
  - intros s. unfold validate_logging_config, required_keys. cbn [check_required_keys].
    rewrite (Hlookup "log_file" log_file) by (subst entries; set_solver).
    rewrite Htruthy.
    rewrite (Hlookup "csv_error_log" ("data/csv/csv_error_log_" +:+ day +:+ ".csv"))
      by (subst entries; set_solver).
    rewrite (Hlookup "all_csv" "data/csv/all_urls.csv") by (subst entries; set_solver).
    rewrite (Hlookup "good_csv" "data/csv/good_urls.csv") by (subst entries; set_solver).
    rewrite (Hlookup "bad_csv" "data/csv/bad_urls.csv") by (subst entries; set_solver).
    reflexivity.
Qed.

(** X24: the tables of config.py fit together, whatever the date.
    Building [directories] never raises the [ValueError] of
    [get_full_path]; the PDF folder and the CAPTCHA image path it holds are
    the ones the handlers work with; [log_to_csv] finds a file for the
    types "all", "good" and "bad" and for no other type; and
    [validate_logging_config] answers [True] without logging an error. *)
Theorem shipped_directories_resolve :
  exists resolved,
    directories year_month day = inr resolved /\
    resolved !! "pdf_dir" = Some (pdf_dir default_config) /\
    resolved !! "captcha_image_path"
      = Some (CaptchaHandler.captcha_image_path default_config) /\
    (forall file_type,
       truthy (csv_file_of resolved file_type) = true <->
       file_type = "all" \/ file_type = "good" \/ file_type = "bad") /\
    (forall s, validate_logging_config resolved s = mkRun (Val true) s []).
Proof. exact shipped_directories_facts. Qed.

Section RowsHaveFiles.
Import PdfDownloader PdfDownloadProcess.
Variable config : Config.
Variable env : Env.
Variable pdf_button_xpath : string.
Variable click_pdf_button_js : string.
Variable execute_async_script : nat -> string -> Exn + option string.

Lemma download_attempts_known_rows pdf_link pdf_filename attempts :
  emits (fun e => csv_type_known e = true)
    (download_attempts config env pdf_link pdf_filename attempts).
Proof.
  induction attempts as [|attempt rest IH]; intros s.
  - rewrite download_attempts_nil. cbn [out]. repeat constructor.
  - rewrite download_attempts_cons. cbn zeta.
    assert (Hattempt : Forall (fun e => csv_type_known e = true)
                         (out (attempt_download env pdf_link pdf_filename s))).
    { rewrite attempt_download_run.
      destruct (requests_get env (tick s) pdf_link) as [msg|status_code chunks broken];
        [repeat constructor|].
      destruct (Z.eqb status_code 200); [|repeat constructor].
      cbn zeta. destruct broken; [repeat constructor|].
      destruct (has_pdf_header (concat chunks)); repeat constructor. }
    destruct (res (attempt_download env pdf_link pdf_filename s)) as [name|e].
    + exact Hattempt.
    + unfold after. cbn [out]. apply Forall_app. split; [|apply IH].
      apply Forall_app. split; [exact Hattempt|].
      unfold failure_events. destruct (Z.ltb attempt (max_retries config));
        repeat constructor.
Qed.

Lemma download_pdf_known_rows pdf_link :
  emits (fun e => csv_type_known e = true) (download_pdf config env pdf_link).
Proof.
  intros s. rewrite download_pdf_run. cbn zeta.
  destruct (bool_decide _); [repeat constructor|].
  unfold after. cbn [out]. repeat constructor. apply download_attempts_known_rows.
Qed.

Lemma start_pdf_download_process_known_rows :
  emits (fun e => csv_type_known e = true)
    (start_pdf_download_process config env pdf_button_xpath click_pdf_button_js
       execute_async_script).
Proof.
  unfold start_pdf_download_process, fetch_pdf_link, trigger_js_function,
    SeleniumHandler.click_element, SeleniumHandler.retry.
  repeat first [apply download_pdf_known_rows
               | apply emits_retry_loop;
                 [reflexivity|unfold SeleniumHandler.click_element_once]
               | lazymatch goal with
                 | |- emits _ (driver_execute_async_script _ _) => intros ?; constructor
                 end
               | emits_step].
Qed.

(** X25: every CSV row has a file.  Whatever the date, the server, the
    page and the files, each row that [download_pdf] or
    [start_pdf_download_process] hands to [log_to_csv] names a file type
    for which the [directories] of config.py hold a path, so that no row is
    dropped as "Invalid CSV file type". *)
Theorem download_rows_have_files :
  exists resolved,
    directories year_month day = inr resolved /\
    (forall pdf_link s file_type record,
       CsvRow file_type record ∈ out (download_pdf config env pdf_link s) ->
       truthy (csv_file_of resolved file_type) = true) /\
    (forall s file_type record,
       CsvRow file_type record
         ∈ out (start_pdf_download_process config env pdf_button_xpath
                  click_pdf_button_js execute_async_script s) ->
       truthy (csv_file_of resolved file_type) = true).
Proof.
  destruct shipped_directories_facts as (resolved & Hresolved & _ & _ & Hfiles & _).
  exists resolved. split; [exact Hresolved|].
  assert (Hknown : forall file_type record,
            csv_type_known (CsvRow file_type record) = true ->
            truthy (csv_file_of resolved file_type) = true).
  { intros file_type record Hk. apply Hfiles. cbn [csv_type_known] in Hk.
    apply orb_true_iff in Hk as [Hk|Hk]; [apply orb_true_iff in Hk as [Hk|Hk]|];
      apply String.eqb_eq in Hk; auto. }
  split.
  - intros pdf_link s file_type record Hin. apply (Hknown file_type record).
    pose proof (download_pdf_known_rows pdf_link s) as Hall.
    rewrite Forall_forall in Hall. now apply Hall.
  - intros s file_type record Hin. apply (Hknown file_type record).
    pose proof (start_pdf_download_process_known_rows s) as Hall.
    rewrite Forall_forall in Hall. now apply Hall.
Qed.

End RowsHaveFiles.

End ShippedTables.

(** * captcha_handler.py: the AI solver *)

Section AiSolver.
Import CaptchaHandler.
Variable config : Config.
Variable env : Env.

(** X26: what [solve_captcha_with_ai] does.  Without a service URL or key
    it is the manual prompt: it returns what the operator typed, stripped,
    and posts nothing.  With both, it never prompts the operator and leaves
    the files alone; it returns a solution exactly when the image file is
    there and the service answers the POST with status 200 and that
    solution, not empty, in readable JSON; a missing image file means that
    nothing is posted; and every exception it raises has been logged as
    "Failed to solve CAPTCHA with AI". *)
Theorem solve_captcha_with_ai_outcome s :
  let r := solve_captcha_with_ai config env s in
  let service := ai_captcha_service_url config in
  (ai_not_configured config = true ->
     res r = Val (strip (stdin env (tick s))) /\
     Forall (fun e => is_post e = false) (out r)) /\
  (ai_not_configured config = false ->
     (forall solution,
        res r = Val solution <->
        is_Some (fs s !! captcha_image_path config) /\
        requests_post env (tick s) service = PostResponse 200 None (Some solution) /\
        solution <> "") /\
     (fs s !! captcha_image_path config = None ->
        Forall (fun e => is_post e = false) (out r)) /\
     Forall (fun e => is_input e = false) (out r) /\
     fs (st r) = fs s /\
     (forall e, res r = Exc e ->
        LogError ("Failed to solve CAPTCHA with AI: " +:+ exn_msg e) NETWORK ∈ out r)).
Proof.
  cbn zeta. unfold solve_captcha_with_ai. split; intros Hcfg; rewrite Hcfg.
  - erewrite bind_val by reflexivity. cbn [log_warning emit res st out].
    rewrite solve_captcha_manually_run. unfold after. cbn [res out app].
    split; [reflexivity|repeat constructor].
  - unfold try_except. erewrite bind_val by reflexivity.
    cbn [log_info emit res st out]. erewrite bind_val by reflexivity.
    cbn [get_state res st out after app].
    destruct (fs s !! captcha_image_path config) as [image_file|].
    2:{ cbn [raise res st out any_exception]. erewrite bind_val by reflexivity.
        cbn [log_error emit raise after res st out app].
        split; [|split; [|split; [|split]]].
        - intros solution. split; [discriminate|]. intros ([x Hx] & _). discriminate Hx.
        - intros _. repeat constructor.
        - repeat constructor.
        - reflexivity.
        - intros e [= <-]. apply elem_of_cons. right. apply elem_of_cons. now left. }
    erewrite bind_val by reflexivity. cbn [ask res st out after app].
    destruct (requests_post env (tick s) (ai_captcha_service_url config))
      as [msg|status_code bad_json json_solution].
    { cbn [raise res st out any_exception]. erewrite bind_val by reflexivity.
      cbn [log_error emit raise after res st out app next_tick fs].
      split; [|split; [|split; [|split]]].
      - intros solution. split; [discriminate|]. intros (_ & H & _). discriminate H.
      - intros H. discriminate H.
      - repeat constructor.
      - reflexivity.
      - intros e [= <-]. do 2 (apply elem_of_cons; right). apply elem_of_cons. now left. }
    destruct (Z.eqb_spec status_code 200) as [->|Hstatus].
    2:{ cbn [raise res st out any_exception]. erewrite bind_val by reflexivity.
        cbn [log_error emit raise after res st out app next_tick fs].
        split; [|split; [|split; [|split]]].
        - intros solution. split; [discriminate|]. intros (_ & [= H _ _] & _). contradiction.
        - intros H. discriminate H.
        - repeat constructor.
        - reflexivity.
        - intros e [= <-]. do 2 (apply elem_of_cons; right). apply elem_of_cons. now left. }
    destruct bad_json as [msg|].
    { cbn [raise res st out any_exception]. erewrite bind_val by reflexivity.
      cbn [log_error emit raise after res st out app next_tick fs].
      split; [|split; [|split; [|split]]].
      - intros solution. split; [discriminate|]. intros (_ & H & _). discriminate H.
      - intros H. discriminate H.
      - repeat constructor.
      - reflexivity.
      - intros e [= <-]. do 2 (apply elem_of_cons; right). apply elem_of_cons. now left. }
    destruct json_solution as [[|c rest]|].
    + cbn [raise res st out any_exception]. erewrite bind_val by reflexivity.
      cbn [log_error emit raise after res st out app next_tick fs].
      split; [|split; [|split; [|split]]].
      * intros solution. split; [discriminate|]. intros (_ & [= <-] & H). now destruct H.
      * intros H. discriminate H.
      * repeat constructor.
      * reflexivity.
      * intros e [= <-]. do 2 (apply elem_of_cons; right). apply elem_of_cons. now left.
    + erewrite bind_val by reflexivity.
      cbn [log_info emit ret after res st out app next_tick fs].
      split; [|split; [|split; [|split]]].
      * intros solution. split.
        -- intros [= <-]. split; [eauto|]. split; [reflexivity|discriminate].
        -- intros (_ & [= <-] & _). reflexivity.
      * intros H. discriminate H.
      * repeat constructor.
      * reflexivity.
      * intros e H. discriminate H.
    + cbn [raise res st out any_exception]. erewrite bind_val by reflexivity.
      cbn [log_error emit raise after res st out app next_tick fs].
      split; [|split; [|split; [|split]]].
      * intros solution. split; [discriminate|]. intros (_ & H & _). discriminate H.
      * intros H. discriminate H.
      * repeat constructor.
      * reflexivity.
      * intros e [= <-]. do 2 (apply elem_of_cons; right). apply elem_of_cons. now left.
Qed.

End AiSolver.
